(** * Convolutional sequence-to-sequence model ([net.py]): a shallow embedding

    The development follows [net.py] definition by definition:
    [sentence_block_embed], [seq_linear], [ConvGLU], [ConvGLUEncoder],
    [ConvGLUDecoder] (with [attend]) and [Seq2seq] (forward pass and
    [translate]).

    Conventions.
    - An ndarray is its shape together with its contents, the contents
      being read through an index function; the element at an index
      inside the shape is what the Python array holds there.
    - Scalars are binary64 floats ([PrimFloat]) with IEEE infinities,
      signed zeros and NaN.  chainer computes in float32 and reduces in
      an order of its own; a reduction below adds its terms from index 0
      upwards.  No statement below depends on a rounded value.
    - The transcendental functions of the array library ([exp], [log],
      the logistic function) are section variables.
    - Python exceptions are the [Err] results of an error monad.
    - A block of token ids is an ndarray of dtype int32, the only type
      the embedding links take; an id is the integer it holds.
    - The hidden state of shape (batch, units, length, 1) is a rank-3
      array: the trailing axis of size 1 carries no data, so
      [x[:, :, :, None]] and [F.squeeze(x, axis=3)] are the identity on
      the representation. *)

From Stdlib Require Import String.
From Stdlib Require Import Floats ZArith List Bool Arith Lia.
Import ListNotations.

Set Implicit Arguments.

(** ** Exceptions *)

Inductive error : Set :=
| InvalidType      (* chainer.utils.type_check.InvalidType: a Function got operands of the wrong shape *)
| ValueError       (* numpy: read-only destination, failed broadcast or reshape, empty reduction or stack *)
| IndexError       (* numpy: index out of range *)
| AssertionError.  (* a failed [assert] *)

Inductive result (A : Type) : Type :=
| Ok (a : A)
| Err (e : error).

Arguments Ok {A} a.
Arguments Err {A} e.

Definition bind {A B : Type} (c : result A) (k : A -> result B) : result B :=
  match c with
  | Ok a => k a
  | Err e => Err e
  end.

Notation "x <- c ;; k" := (bind c (fun x => k))
  (at level 61, c at next level, right associativity).

Definition guard (b : bool) (e : error) : result unit :=
  if b then Ok tt else Err e.

(** ** Arrays *)

Record arr2 (A : Type) : Type := Arr2
  { dim2_0 : nat; dim2_1 : nat; at2 : nat -> nat -> A }.

Record arr3 (A : Type) : Type := Arr3
  { dim3_0 : nat; dim3_1 : nat; dim3_2 : nat; at3 : nat -> nat -> nat -> A }.

Record arr4 (A : Type) : Type := Arr4
  { dim4_0 : nat; dim4_1 : nat; dim4_2 : nat; dim4_3 : nat;
    at4 : nat -> nat -> nat -> nat -> A }.

Definition shape2 {A} (x : arr2 A) : nat * nat := (dim2_0 x, dim2_1 x).
Definition shape3 {A} (x : arr3 A) : nat * nat * nat :=
  (dim3_0 x, dim3_1 x, dim3_2 x).

Definition same_shape3 {A B} (x : arr3 A) (y : arr3 B) : bool :=
  (dim3_0 x =? dim3_0 y) && (dim3_1 x =? dim3_1 y) && (dim3_2 x =? dim3_2 y).

(** Contents as nested lists, outermost axis first. *)
Definition tabulate {A} (n : nat) (f : nat -> A) : list A := map f (seq 0 n).

Definition to_list2 {A} (x : arr2 A) : list (list A) :=
  tabulate (dim2_0 x) (fun i => tabulate (dim2_1 x) (fun j => at2 x i j)).

Definition to_list3 {A} (x : arr3 A) : list (list (list A)) :=
  tabulate (dim3_0 x) (fun i =>
    tabulate (dim3_1 x) (fun j => tabulate (dim3_2 x) (fun l => at3 x i j l))).

(** A block of token ids given by its rows; [cols] is the common row
    length (a row that is too short reads as the padding id -1). *)
Definition block_of_rows (cols : nat) (rows : list (list Z)) : arr2 Z :=
  Arr2 (length rows) cols (fun i j => nth j (nth i rows []) (-1)%Z).

(** ** Scalars *)

Definition of_nat (n : nat) : float := of_uint63 (Uint63.of_Z (Z.of_nat n)).

(** [sum_upto n f] is f 0 + f 1 + ... + f (n-1), added from the left. *)
Fixpoint sum_upto (n : nat) (f : nat -> float) : float :=
  match n with
  | O => zero
  | S k => (sum_upto k f + f k)%float
  end.

(** numpy's [maximum]: a NaN operand wins. *)
Definition fmaximum (a b : float) : float :=
  if is_nan a then a else if is_nan b then b else if (a <? b)%float then b else a.

(** Maximum of f 0 .. f n (n + 1 values). *)
Fixpoint max_upto (n : nat) (f : nat -> float) : float :=
  match n with
  | O => f O
  | S k => fmaximum (max_upto k f) (f (S k))
  end.

Definition forall_upto (n : nat) (p : nat -> bool) : bool :=
  forallb p (seq 0 n).

(** [scale = 0.5 ** 0.5] *)
Definition scale : float := sqrt 0.5.

(** ** Links: shapes fixed by the constructors, values by the weights *)

(** [L.Convolution2D(in, out, ksize=(k, 1), stride=(1, 1), pad=(p, 0))]:
    kernel W of shape (out, in, k, 1) and bias of shape (out,). *)
Record Convolution2D : Type := MkConv
  { conv_in : nat; conv_out : nat; conv_ksize : nat; conv_pad : nat;
    conv_W : nat -> nat -> nat -> float; conv_b : nat -> float }.

(** [L.Linear(in, out)]: W of shape (out, in) and bias of shape (out,). *)
Record Linear : Type := MkLinear
  { lin_in : nat; lin_out : nat;
    lin_W : nat -> nat -> float; lin_b : nat -> float }.

(** [L.EmbedID(in_size, out_size, ignore_label)]: W of shape (in_size, out_size). *)
Record EmbedID : Type := MkEmbed
  { emb_in : nat; emb_out : nat; emb_ignore : option Z;
    emb_W : nat -> nat -> float }.

Record ConvGLU : Type := MkConvGLU
  { glu_conv : Convolution2D; glu_dropout : float }.

(** [ConvGLU.__init__(n_units, width, dropout, nopad)];
    [pad = width // 2 * (1 - nopad)]. *)
Definition ConvGLU_init (n_units width : nat) (dropout : float) (nopad : bool)
    (W : nat -> nat -> nat -> float) (b : nat -> float) : ConvGLU :=
  MkConvGLU
    (MkConv n_units (2 * n_units) width
            (width / 2 * (1 - (if nopad then 1 else 0))) W b)
    dropout.

(** ** Array functions of chainer and numpy *)

(** A source of the uniform samples in [0, 1) that [F.dropout] draws:
    [rnd k i j l] is the sample the k-th dropout call of a forward pass
    draws for the element (i, j, l). *)
Definition rng : Type := nat -> nat -> nat -> nat -> float.

(** The mask of [Dropout.forward]: (1 / (1 - ratio)) * (rand >= ratio). *)
Definition dropout_mask (ratio r : float) : float :=
  if (ratio <=? r)%float then (1 / (1 - ratio))%float else zero.

(** [Dropout.__init__] raises [ValueError] unless 0.0 <= ratio < 1.0
    (a NaN ratio fails both comparisons). *)
Definition valid_ratio (ratio : float) : bool :=
  ((0 <=? ratio) && (ratio <? 1))%float.

(** [Dropout(ratio)(x)]: the check of the ratio, then x * mask. *)
Definition Dropout (rnd : nat -> nat -> nat -> float) (ratio : float)
    (x : arr3 float) : result (arr3 float) :=
  _ <- guard (valid_ratio ratio) ValueError ;;
  Ok (Arr3 (dim3_0 x) (dim3_1 x) (dim3_2 x)
           (fun i j l => (at3 x i j l * dropout_mask ratio (rnd i j l))%float)).

(** [F.dropout(x, ratio)]: [Dropout(ratio)(x)] when
    [chainer.config.train], x itself otherwise (the ratio is not looked
    at then). *)
Definition F_dropout (train : bool) (rnd : nat -> nat -> nat -> float)
    (ratio : float) (x : arr3 float) : result (arr3 float) :=
  if train then Dropout rnd ratio x else Ok x.

(** The same on a matrix. *)
Definition Dropout2 (rnd : nat -> nat -> nat -> float) (ratio : float)
    (x : arr2 float) : result (arr2 float) :=
  _ <- guard (valid_ratio ratio) ValueError ;;
  Ok (Arr2 (dim2_0 x) (dim2_1 x)
           (fun i j => (at2 x i j * dropout_mask ratio (rnd i j O))%float)).

Definition F_dropout2 (train : bool) (rnd : nat -> nat -> nat -> float)
    (ratio : float) (x : arr2 float) : result (arr2 float) :=
  if train then Dropout2 rnd ratio x else Ok x.

(** What [F.dropout] returns when it returns, and when it does. *)
Definition dropped (train : bool) (rnd : nat -> nat -> nat -> float)
    (ratio : float) (x : arr3 float) : arr3 float :=
  if train
  then Arr3 (dim3_0 x) (dim3_1 x) (dim3_2 x)
            (fun i j l => (at3 x i j l * dropout_mask ratio (rnd i j l))%float)
  else x.

Definition dropped2 (train : bool) (rnd : nat -> nat -> nat -> float)
    (ratio : float) (x : arr2 float) : arr2 float :=
  if train
  then Arr2 (dim2_0 x) (dim2_1 x)
            (fun i j => (at2 x i j * dropout_mask ratio (rnd i j O))%float)
  else x.

Definition dropout_ok (train : bool) (ratio : float) : bool :=
  negb train || valid_ratio ratio.

(** Variable + Variable (the [Add] of chainer 2, that [net.py] is written
    for, accepts equal shapes only). *)
Definition add3 (x y : arr3 float) : result (arr3 float) :=
  _ <- guard (same_shape3 x y) InvalidType ;;
  Ok (Arr3 (dim3_0 x) (dim3_1 x) (dim3_2 x)
           (fun i j l => (at3 x i j l + at3 y i j l)%float)).

(** Variable * Python float. *)
Definition mul_scalar3 (x : arr3 float) (c : float) : arr3 float :=
  Arr3 (dim3_0 x) (dim3_1 x) (dim3_2 x) (fun i j l => (at3 x i j l * c)%float).

(** Zero padding of the length axis by [p] on both sides, as the
    convolution reads it. *)
Definition padded (p : nat) (x : arr3 float) (i c t : nat) : float :=
  if (t <? p) || (p + dim3_2 x <=? t) then zero else at3 x i c (t - p).

(** One element of the output of the convolution link: the
    cross-correlation of the kernel with the padded input along the
    length axis, plus the bias. *)
Definition conv_at (cv : Convolution2D) (x : arr3 float) (i o t : nat) : float :=
  (sum_upto (conv_in cv) (fun c =>
     sum_upto (conv_ksize cv) (fun k =>
       conv_W cv o c k * padded (conv_pad cv) x i c (t + k)))
   + conv_b cv o)%float.

(** The convolution link on a (batch, in, length, 1) input: type check of
    the channel count, then [get_conv_outsize] = length + 2 pad - k + 1,
    asserted positive. *)
Definition Convolution2D_call (cv : Convolution2D) (x : arr3 float)
    : result (arr3 float) :=
  _ <- guard (dim3_1 x =? conv_in cv) InvalidType ;;
  _ <- guard (conv_ksize cv <=? dim3_2 x + 2 * conv_pad cv) AssertionError ;;
  Ok (Arr3 (dim3_0 x) (conv_out cv)
           (dim3_2 x + 2 * conv_pad cv - conv_ksize cv + 1)
           (conv_at cv x)).

Section Net.

(** The elementwise functions the array library supplies. *)
Variable xp_exp : float -> float.
Variable xp_log : float -> float.
Variable F_sigmoid : float -> float.

(** [out, pregate = F.split_axis(h, 2, axis=1); out * F.sigmoid(pregate)] *)
Definition glu (h : arr3 float) : result (arr3 float) :=
  _ <- guard (Nat.even (dim3_1 h)) ValueError ;;
  let n := dim3_1 h / 2 in
  Ok (Arr3 (dim3_0 h) n (dim3_2 h)
           (fun i j l => (at3 h i j l * F_sigmoid (at3 h i (n + j) l))%float)).

(** [ConvGLU.__call__] *)
Definition ConvGLU_call (train : bool) (rnd : nat -> nat -> nat -> float)
    (g : ConvGLU) (x : arr3 float) : result (arr3 float) :=
  x <- F_dropout train rnd (glu_dropout g) x ;;
  h <- Convolution2D_call (glu_conv g) x ;;
  glu h.

(** [ConvGLUEncoder]: the links l1, l2, ... in the order of [conv_names]. *)
Definition ConvGLUEncoder : Type := list ConvGLU.

Definition ConvGLUEncoder_init (n_layers n_units width : nat) (dropout : float)
    (W : nat -> nat -> nat -> nat -> float) (b : nat -> nat -> float)
    : ConvGLUEncoder :=
  map (fun i => ConvGLU_init n_units width dropout false (W i) (b i))
      (seq 0 n_layers).

(** [ConvGLUEncoder.__call__]; the layer at position k of the stack draws
    the dropout samples [rnd (k0 + k)]. *)
Fixpoint ConvGLUEncoder_call (train : bool) (rnd : rng) (k0 : nat)
    (layers : ConvGLUEncoder) (x : arr3 float) : result (arr3 float) :=
  match layers with
  | [] => Ok x
  | g :: rest =>
      h <- ConvGLU_call train (rnd k0) g x ;;
      s <- add3 x h ;;
      ConvGLUEncoder_call train rnd (S k0) rest (mul_scalar3 s scale)
  end.

(** ** Embedding of a block of ids *)

(** [W.take(i, axis=0)]: an index in range, counted from the end when
    negative; numpy raises [IndexError] otherwise. *)
Definition take_index (n : nat) (i : Z) : option nat :=
  if ((0 <=? i) && (i <? Z.of_nat n))%Z then Some (Z.to_nat i)
  else if ((- Z.of_nat n <=? i) && (i <? 0))%Z then Some (Z.to_nat (Z.of_nat n + i))
  else None.

Definition is_ignored (e : EmbedID) (i : Z) : bool :=
  match emb_ignore e with
  | Some l => (i =? l)%Z
  | None => false
  end.

(** The row [EmbedID] looks up for id [i]: with an ignore label,
    [where(mask, 0, W.take(where(mask, 0, x)))]. *)
Definition embed_index (e : EmbedID) (i : Z) : option nat :=
  take_index (emb_in e) (if is_ignored e i then 0%Z else i).

Definition embed_at (e : EmbedID) (i : Z) (u : nat) : float :=
  if is_ignored e i then zero
  else match embed_index e i with
       | Some r => emb_W e r u
       | None => zero
       end.

(** [embed(ids)] for a vector of [n] ids: an array of shape (n, units). *)
Definition EmbedID_call (e : EmbedID) (n : nat) (ids : nat -> Z)
    : result (arr2 float) :=
  _ <- guard (forall_upto n (fun p =>
                match embed_index e (ids p) with Some _ => true | None => false end))
             IndexError ;;
  Ok (Arr2 n (emb_out e) (fun p u => embed_at e (ids p) u)).

(** Row-major (C order) offsets: the element of a (d0, d1) array at
    offset [f], and the reading of a buffer as a (d0, d1, d2) array. *)
Definition flat2 {A} (x : arr2 A) (f : nat) : A :=
  at2 x (f / dim2_1 x) (f mod dim2_1 x).

Definition reshape3 {A} (d0 d1 d2 : nat) (buf : nat -> A) : arr3 A :=
  Arr3 d0 d1 d2 (fun i j l => buf ((i * d1 + j) * d2 + l)).

(** [sentence_block_embed(embed, x)]:
    [e = embed(x.reshape((batch * length,)))] has shape
    (batch * length, units); [e.reshape((batch, e.shape[1], length))]
    reads the same buffer with the new shape. *)
Definition sentence_block_embed (embed : EmbedID) (x : arr2 Z)
    : result (arr3 float) :=
  let batch := dim2_0 x in
  let length := dim2_1 x in
  e <- EmbedID_call embed (batch * length) (flat2 x) ;;
  Ok (reshape3 batch (dim2_1 e) length (flat2 e)).

(** ** Linear links *)

(** [linear(x)] for x of shape (n, in): x W^T + b. *)
Definition Linear_call (lin : Linear) (x : arr2 float) : result (arr2 float) :=
  _ <- guard (dim2_1 x =? lin_in lin) InvalidType ;;
  Ok (Arr2 (dim2_0 x) (lin_out lin)
           (fun r o => (sum_upto (lin_in lin) (fun i => at2 x r i * lin_W lin o i)
                        + lin_b lin o)%float)).

(** [seq_linear(linear, x)]: transpose to (batch, length, units), flatten
    to (batch * length, units), apply the link, reshape to
    (batch, length, units, 1) and transpose back. *)
Definition seq_linear (linear : Linear) (x : arr3 float) : result (arr3 float) :=
  let batch := dim3_0 x in
  let units := dim3_1 x in
  let length := dim3_2 x in
  h <- Linear_call linear
         (Arr2 (batch * length) units (fun r u => at3 x (r / length) u (r mod length))) ;;
  _ <- guard (dim2_0 h * dim2_1 h =? batch * length * units) InvalidType ;;
  let r := reshape3 batch length units (flat2 h) in
  Ok (Arr3 batch units length (fun i u l => at3 r i l u)).

(** ** The attention unit *)

(** Broadcasting of an axis of size [from]: size 1 repeats its element. *)
Definition bcast_ok (from to : nat) : bool := (from =? to) || (from =? 1).
Definition bidx (from i : nat) : nat := if from =? 1 then 0 else i.

(** [F.softmax(x, axis=2)] on one row of [n] scores:
    [y = x - x.max(); exp(y); y /= y.sum()]. *)
Definition softmax_row (n : nat) (row : nat -> float) (s : nat) : float :=
  let m := max_upto (n - 1) row in
  let e := fun s' => xp_exp (row s' - m)%float in
  (e s / sum_upto n e)%float.

(** The weights [a] of [ConvGLUDecoder.attend(query, key, value, mask)],
    with query (b, units, dec_l), key (b, units, enc_l) and
    mask (b, dec_l, enc_l): the lines of [attend] up to the re-mask. *)
Definition attention_weights (query key : arr3 float) (mask : arr3 bool)
    : result (arr3 float) :=
  (* pre_a = F.batch_matmul(query, key, transa=True) *)
  _ <- guard ((dim3_0 query =? dim3_0 key) && (dim3_1 query =? dim3_1 key))
             InvalidType ;;
  let pre_a := Arr3 (dim3_0 query) (dim3_2 query) (dim3_2 key)
                 (fun i t s => sum_upto (dim3_1 query)
                                 (fun u => (at3 query i u t * at3 key i u s)%float)) in
  (* pre_a = F.where(mask, pre_a, minfs), minfs full of -inf *)
  _ <- guard (same_shape3 mask pre_a) InvalidType ;;
  let pre_a := Arr3 (dim3_0 pre_a) (dim3_1 pre_a) (dim3_2 pre_a)
                 (fun i t s => if at3 mask i t s then at3 pre_a i t s
                               else neg_infinity) in
  (* a = F.softmax(pre_a, axis=2) *)
  _ <- guard (0 <? dim3_2 pre_a) ValueError ;;
  let a := Arr3 (dim3_0 pre_a) (dim3_1 pre_a) (dim3_2 pre_a)
             (fun i t s => softmax_row (dim3_2 pre_a) (at3 pre_a i t) s) in
  (* a = F.where(self.xp.isnan(a.data), zeros, a) *)
  Ok (Arr3 (dim3_0 a) (dim3_1 a) (dim3_2 a)
           (fun i t s => if is_nan (at3 a i t s) then zero else at3 a i t s)).

(** [ConvGLUDecoder.attend], value of shape (b, units, dec_l, enc_l):
    the weights, broadcast against [value], and the sum over the source
    axis. *)
Definition attend (query key : arr3 float) (value : arr4 float)
    (mask : arr3 bool) : result (arr3 float) :=
  a <- attention_weights query key mask ;;
  (* pre_c = F.broadcast_to(a[:, None], value.shape) * value *)
  _ <- guard (bcast_ok (dim3_0 a) (dim4_0 value)
              && bcast_ok (dim3_1 a) (dim4_2 value)
              && bcast_ok (dim3_2 a) (dim4_3 value)) InvalidType ;;
  (* c = F.sum(pre_c, axis=3, keepdims=True) *)
  Ok (Arr3 (dim4_0 value) (dim4_1 value) (dim4_2 value)
           (fun i u t =>
              sum_upto (dim4_3 value) (fun s =>
                (at3 a (bidx (dim3_0 a) i) (bidx (dim3_1 a) t) (bidx (dim3_2 a) s)
                 * at4 value i u t s)%float))).

(** ** The decoder stack *)

Record ConvGLUDecoder : Type := MkDecoder
  { dec_convs : list ConvGLU; dec_preatts : list Linear }.

(** [ConvGLUDecoder.__init__]: convolutions of width [width // 2 + 1]
    without padding of their own, and the links preatt1, preatt2, ... *)
Definition ConvGLUDecoder_init (n_layers n_units width : nat) (dropout : float)
    (W : nat -> nat -> nat -> nat -> float) (b : nat -> nat -> float)
    (Wp : nat -> nat -> nat -> float) (bp : nat -> nat -> float)
    : ConvGLUDecoder :=
  MkDecoder
    (map (fun i => ConvGLU_init n_units (width / 2 + 1) dropout true (W i) (b i))
         (seq 0 n_layers))
    (map (fun i => MkLinear n_units n_units (Wp i) (bp i)) (seq 0 n_layers)).

Definition count_upto (n : nat) (p : nat -> bool) : nat :=
  List.length (filter p (seq 0 n)).

(** [att_scale = xp.sum(mask, axis=2, keepdims=True)[:, None, :, :] ** 0.5],
    of shape (b, 1, dec_l, 1). *)
Definition att_scale (mask : arr3 bool) : arr2 float :=
  Arr2 (dim3_0 mask) (dim3_1 mask)
       (fun i t => sqrt (of_nat (count_upto (dim3_2 mask) (at3 mask i t)))).

(** [F.concat([pad, x], axis=2)] with pad = zeros of shape
    (x.shape[0], x.shape[1], 2, 1). *)
Definition concat_pad (x : arr3 float) : arr3 float :=
  Arr3 (dim3_0 x) (dim3_1 x) (2 + dim3_2 x)
       (fun i j l => if l <? 2 then zero else at3 x i j (l - 2)).

(** [c *= att_scale]: a Variable times an ndarray that must broadcast
    to the shape of the Variable. *)
Definition mul_att_scale (c : arr3 float) (a : arr2 float) : result (arr3 float) :=
  _ <- guard (bcast_ok (dim2_0 a) (dim3_0 c) && bcast_ok (dim2_1 a) (dim3_2 c))
             ValueError ;;
  Ok (Arr3 (dim3_0 c) (dim3_1 c) (dim3_2 c)
           (fun i u t => (at3 c i u t * at2 a (bidx (dim2_0 a) i) (bidx (dim2_1 a) t))%float)).

(** The query one layer hands to [attend]:
    [preatt = seq_linear(preatt_link, x); query = base_x + preatt;
     query = F.squeeze(x, axis=3)]. *)
Definition attention_query (preatt_link : Linear) (base_x x : arr3 float)
    : result (arr3 float) :=
  preatt <- seq_linear preatt_link x ;;
  query <- add3 base_x preatt ;;
  let query := x in
  Ok query.

(** One pass of the loop body of [ConvGLUDecoder.__call__]. *)
Definition decoder_layer (train : bool) (rnd : nat -> nat -> nat -> float)
    (g : ConvGLU) (preatt_link : Linear) (base_x : arr3 float)
    (z : arr3 float) (ze : arr4 float) (mask : arr3 bool)
    (x : arr3 float) : result (arr3 float) :=
  h <- ConvGLU_call train rnd g (concat_pad x) ;;
  s <- add3 x h ;;
  let x := mul_scalar3 s scale in
  query <- attention_query preatt_link base_x x ;;
  c <- attend query z ze mask ;;
  c <- mul_att_scale c (att_scale mask) ;;
  add3 x c.

Fixpoint decoder_loop (train : bool) (rnd : rng) (k0 : nat)
    (links : list (ConvGLU * Linear)) (base_x : arr3 float)
    (z : arr3 float) (ze : arr4 float) (mask : arr3 bool)
    (x : arr3 float) : result (arr3 float) :=
  match links with
  | [] => Ok x
  | (g, p) :: rest =>
      x' <- decoder_layer train (rnd k0) g p base_x z ze mask x ;;
      decoder_loop train rnd (S k0) rest base_x z ze mask x'
  end.

(** [ConvGLUDecoder.__call__(x, z, ze, mask)]; the loop runs over
    [zip(conv_names, preatt_names)]. *)
Definition ConvGLUDecoder_call (train : bool) (rnd : rng) (k0 : nat)
    (d : ConvGLUDecoder) (x z : arr3 float) (ze : arr4 float)
    (mask : arr3 bool) : result (arr3 float) :=
  decoder_loop train rnd k0 (combine (dec_convs d) (dec_preatts d)) x z ze mask x.

(** ** The model *)

(** The array module [self.xp] of a model: numpy on the CPU, cupy on a GPU. *)
Inductive backend : Set := Numpy | Cupy.

(** An integer ndarray with its [writeable] flag. *)
Record ndarray : Type := MkNd { nd_data : arr2 Z; nd_writeable : bool }.

(** [xp.broadcast_to(xp.arange(max_len, dtype='i')[None, ], (batch, max_len))].
    numpy returns a read-only view of the broadcast array; cupy returns
    a view that can be written. *)
Definition position_view (xp : backend) (batch max_len : nat) : ndarray :=
  MkNd (Arr2 batch max_len (fun _ j => Z.of_nat j))
       (match xp with Numpy => false | Cupy => true end).

(** [a[:, k:] = v]; numpy raises
    "ValueError: assignment destination is read-only" on a read-only array. *)
Definition setitem_from (a : ndarray) (k : nat) (v : Z) : result ndarray :=
  _ <- guard (nd_writeable a) ValueError ;;
  Ok (MkNd (Arr2 (dim2_0 (nd_data a)) (dim2_1 (nd_data a))
                 (fun i j => if k <=? j then v else at2 (nd_data a) i j))
           (nd_writeable a)).

(** [a[:, :n]] *)
Definition cols_upto (a : ndarray) (n : nat) : arr2 Z :=
  Arr2 (dim2_0 (nd_data a)) (Nat.min n (dim2_1 (nd_data a))) (at2 (nd_data a)).

(** The position block of a forward pass, clamped at [max_length - 1]. *)
Definition position_block (xp : backend) (max_length batch max_len : nat)
    : result ndarray :=
  let position_block := position_view xp batch max_len in
  if max_length <? max_len
  then setitem_from position_block max_length (Z.of_nat max_length - 1)%Z
  else Ok position_block.

Record Seq2seq : Type := MkSeq2seq
  { embed_x : EmbedID;
    embed_y : EmbedID;
    embed_position_x : EmbedID;
    embed_position_y : EmbedID;
    encoder : ConvGLUEncoder;
    decoder : ConvGLUDecoder;
    W : Linear;
    n_layers : nat;
    n_units : nat;
    n_target_vocab : nat;
    max_length : nat;
    dropout : float }.

(** The values of the parameters: drawn by the initializers at
    construction and changed by the optimizer afterwards. *)
Record weights : Type := MkWeights
  { w_embed_x : nat -> nat -> float;
    w_embed_y : nat -> nat -> float;
    w_position_x : nat -> nat -> float;
    w_position_y : nat -> nat -> float;
    w_enc : nat -> nat -> nat -> nat -> float;
    b_enc : nat -> nat -> float;
    w_dec : nat -> nat -> nat -> nat -> float;
    b_dec : nat -> nat -> float;
    w_preatt : nat -> nat -> nat -> float;
    b_preatt : nat -> nat -> float;
    w_out : nat -> nat -> float;
    b_out : nat -> float }.

(** [Seq2seq.__init__(n_layers, n_source_vocab, n_target_vocab, n_units,
    max_length, dropout)] *)
Definition Seq2seq_init (n_layers n_source_vocab n_target_vocab n_units
    max_length : nat) (dropout : float) (w : weights) : Seq2seq :=
  MkSeq2seq
    (MkEmbed n_source_vocab n_units (Some (-1)%Z) (w_embed_x w))
    (MkEmbed n_target_vocab n_units (Some (-1)%Z) (w_embed_y w))
    (MkEmbed max_length n_units None (w_position_x w))
    (MkEmbed max_length n_units None (w_position_y w))
    (ConvGLUEncoder_init n_layers n_units 5 dropout (w_enc w) (b_enc w))
    (ConvGLUDecoder_init n_layers n_units 5 dropout (w_dec w) (b_dec w)
                         (w_preatt w) (b_preatt w))
    (MkLinear n_units n_target_vocab (w_out w) (b_out w))
    n_layers n_units n_target_vocab max_length dropout.

(** [F.broadcast_to(F.transpose(v, (0, 1, 3, 2)), (batch, n_units, y_length, x_length))]
    for v of shape (b, units, x_length, 1). *)
Definition broadcast_value (v : arr3 float) (batch units y_length x_length : nat)
    : result (arr4 float) :=
  _ <- guard (bcast_ok (dim3_0 v) batch && bcast_ok (dim3_1 v) units
              && bcast_ok (dim3_2 v) x_length) InvalidType ;;
  Ok (Arr4 batch units y_length x_length
           (fun i u _ s => at3 v (bidx (dim3_0 v) i) (bidx (dim3_1 v) u)
                               (bidx (dim3_2 v) s))).

(** [(x_block.data[:, None, :] >= 0) * (y_in_block.data[:, :, None] >= 0)] *)
Definition make_mask (x_block y_in_block : arr2 Z) : result (arr3 bool) :=
  _ <- guard (bcast_ok (dim2_0 x_block) (dim2_0 y_in_block)
              || bcast_ok (dim2_0 y_in_block) (dim2_0 x_block)) ValueError ;;
  Ok (Arr3 (Nat.max (dim2_0 x_block) (dim2_0 y_in_block))
           (dim2_1 y_in_block) (dim2_1 x_block)
           (fun i t s =>
              (0 <=? at2 x_block (bidx (dim2_0 x_block) i) s)%Z
              && (0 <=? at2 y_in_block (bidx (dim2_0 y_in_block) i) t)%Z)).

(** [_log_softmax(x)] on one row of [n] logits:
    [m = x.max(); log_z = m + log(exp(x - m).sum()); x - log_z]. *)
Definition log_softmax_row (n : nat) (row : nat -> float) (v : nat) : float :=
  let m := max_upto (n - 1) row in
  (row v - (m + xp_log (sum_upto n (fun v' => xp_exp (row v' - m)))))%float.

Definition counted (t : Z) : bool := negb (t =? -1)%Z.

(** One term of the sum of the cross-entropy, [log_p] being the
    log-probability of class max(t, 0).  On numpy
    [log_p *= (t.ravel() != self.ignore_label)] multiplies it by 1.0 or
    by 0.0: the product by 1.0 is [log_p] itself, the product by 0.0 is
    a zero for a finite [log_p] and NaN otherwise.  The kernel of cupy
    reads [t == -1 ? T(0) : log_y[...]]. *)
Definition masked_log_p (xp : backend) (t : Z) (log_p : float) : float :=
  match xp with
  | Numpy => if counted t then log_p else (log_p * 0)%float
  | Cupy => if counted t then log_p else zero
  end.

(** The value [SoftmaxCrossEntropy.forward] computes for logits x of
    shape (n, vocab) and targets t of shape (n,), with chainer's
    defaults [ignore_label=-1], [normalize=True] and [reduce='mean']:
    [log_p = log_y[maximum(t, 0), arange(n)]], masked as above, then
    [log_p.sum() * (-coeff)] with coeff = 1.0 / max(count, 1), count the
    number of targets that are not -1. *)
Definition softmax_cross_entropy_forward (xp : backend) (x : arr2 float)
    (n_t : nat) (t : nat -> Z) : float :=
  let count := count_upto n_t (fun p => counted (t p)) in
  let coeff := (1 / of_nat (Nat.max count 1))%float in
  (sum_upto n_t (fun p =>
     masked_log_p xp (t p)
       (log_softmax_row (dim2_1 x) (at2 x p) (Z.to_nat (Z.max (t p) 0))))
   * - coeff)%float.

(** [F.softmax_cross_entropy(x, t)]: the type check, the maximum over
    an axis that must not be empty, and the indexing, in which an id
    beyond the vocabulary raises [IndexError] (on numpy; the kernel of
    cupy does not check it and such a call is not described here). *)
Definition F_softmax_cross_entropy (xp : backend) (x : arr2 float) (n_t : nat)
    (t : nat -> Z) : result float :=
  _ <- guard (dim2_0 x =? n_t) InvalidType ;;
  _ <- guard (0 <? dim2_1 x) ValueError ;;
  _ <- guard (forall_upto n_t (fun p =>
                negb (counted (t p)) || (Z.max (t p) 0 <? Z.of_nat (dim2_1 x))%Z))
             IndexError ;;
  Ok (softmax_cross_entropy_forward xp x n_t t).

(** [F.sum] of a scalar: the reduction adds the element to an
    accumulator that starts at 0.0, so that -0.0 comes back as 0.0 and
    every other value as it is. *)
Definition F_sum (x : float) : float := (zero + x)%float.

(** What a forward pass hands back: the logits, or the loss together
    with the observations it reported. *)
Inductive output : Type :=
| Prediction (pred_block : arr3 float)
| Loss (loss : float) (reported : list (string * float)).

(** The logits of a forward pass, of shape (batch * y_length, n_target_vocab):
    [Seq2seq.__call__] up to [concat_pred_block = self.W(concat_h_block)].
    The dropout calls of the encoder draw [rnd 0 ..], those of the
    decoder the next [n_layers], the last one [rnd (2 * n_layers)]. *)
Definition concat_pred (m : Seq2seq) (xp : backend) (train : bool) (rnd : rng)
    (x_block y_in_block : arr2 Z) : result (arr2 float) :=
  let x_length := dim2_1 x_block in
  let batch := dim2_0 y_in_block in
  let y_length := dim2_1 y_in_block in
  (* Embed *)
  ex_block <- sentence_block_embed (embed_x m) x_block ;;
  ey_block <- sentence_block_embed (embed_y m) y_in_block ;;
  let max_len := Nat.max x_length y_length in
  position_block <- position_block xp (max_length m) batch max_len ;;
  px_block <- sentence_block_embed (embed_position_x m)
                (cols_upto position_block x_length) ;;
  py_block <- sentence_block_embed (embed_position_y m)
                (cols_upto position_block y_length) ;;
  ex_block <- add3 ex_block px_block ;;
  ey_block <- add3 ey_block py_block ;;
  (* Encode and decode before output *)
  z_block <- ConvGLUEncoder_call train rnd 0 (encoder m) ex_block ;;
  v <- add3 z_block ex_block ;;
  ze_block <- broadcast_value v batch (n_units m) y_length x_length ;;
  z_mask <- make_mask x_block y_in_block ;;
  h_block <- ConvGLUDecoder_call train rnd (n_layers m) (decoder m)
               ey_block z_block ze_block z_mask ;;
  _ <- guard ((dim3_0 h_block =? batch) && (dim3_1 h_block =? n_units m)
              && (dim3_2 h_block =? y_length)) AssertionError ;;
  let concat_h_block :=
    Arr2 (batch * y_length) (n_units m)
         (fun r u => at3 h_block (r / y_length) u (r mod y_length)) in
  concat_h_block <-
    F_dropout2 train (rnd (2 * n_layers m)) (dropout m) concat_h_block ;;
  Linear_call (W m) concat_h_block.

(** [Seq2seq.__call__(x_block, y_in_block, y_out_block, get_prediction)] *)
Definition Seq2seq_call (m : Seq2seq) (xp : backend) (train : bool) (rnd : rng)
    (x_block y_in_block y_out_block : arr2 Z) (get_prediction : bool)
    : result output :=
  let batch := dim2_0 y_in_block in
  let y_length := dim2_1 y_in_block in
  concat_pred_block <- concat_pred m xp train rnd x_block y_in_block ;;
  if get_prediction
  then
    _ <- guard (dim2_0 concat_pred_block * dim2_1 concat_pred_block
                =? batch * y_length * n_target_vocab m) InvalidType ;;
    Ok (Prediction (reshape3 batch y_length (n_target_vocab m)
                             (flat2 concat_pred_block)))
  else
    _ <- guard (dim2_0 y_out_block * dim2_1 y_out_block =? batch * y_length)
               ValueError ;;
    loss <- F_softmax_cross_entropy xp concat_pred_block (batch * y_length)
              (flat2 y_out_block) ;;
    let loss := F_sum loss in
    let perp := xp_exp loss in
    Ok (Loss loss [("loss"%string, loss); ("perp"%string, perp)]).

(** ** Greedy decoding *)

(** [xp.argmax] over f 0 .. f n: the first index of the maximum, a NaN
    counting as the maximum. *)
Fixpoint argmax_upto (n : nat) (f : nat -> float) : nat :=
  match n with
  | O => O
  | S k =>
      let j := argmax_upto k f in
      if is_nan (f j) then j
      else if is_nan (f (S k)) || (f j <? f (S k))%float then S k else j
  end.

(** [chainer.dataset.convert.concat_examples(xs, device=None, padding=-1)]
    on a list of id sequences. *)
Definition concat_examples (xs : list (list Z)) : result (arr2 Z) :=
  match xs with
  | [] => Err ValueError
  | _ => Ok (block_of_rows (fold_right Nat.max 0 (map (@List.length Z) xs)) xs)
  end.

Inductive source : Type :=
| SourceList (xs : list (list Z))
| SourceBlock (x_block : arr2 Z).

(** [F.concat([y_block, ys[:, None]], axis=1)] *)
Definition append_column (y_block : arr2 Z) (ys : list Z) : result (arr2 Z) :=
  _ <- guard (dim2_0 y_block =? List.length ys) InvalidType ;;
  Ok (Arr2 (dim2_0 y_block) (S (dim2_1 y_block))
           (fun i j => if j <? dim2_1 y_block then at2 y_block i j
                       else nth i ys 0%Z)).

(** [eos_flags += (ys == 0)] *)
Definition add_eos (eos_flags : list nat) (ys : list Z) : list nat :=
  map (fun fy => fst fy + (if (snd fy =? 0)%Z then 1 else 0))
      (combine eos_flags ys).

(** The decoding loop [for i in range(max_length)]; [steps] iterations
    remain, [i] is the loop counter, [results] the list [result] of the
    vectors [ys] appended so far. *)
Fixpoint greedy_loop (m : Seq2seq) (xp : backend) (train : bool)
    (rnd : nat -> rng) (x_block : arr2 Z) (steps i : nat)
    (y_block : arr2 Z) (eos_flags : list nat) (results : list (list Z))
    : result (list (list Z)) :=
  match steps with
  | O => Ok results
  | S steps' =>
      out <- Seq2seq_call m xp train (rnd i) x_block y_block y_block true ;;
      match out with
      | Loss _ _ => Err InvalidType
      | Prediction log_prob_block =>
          (* log_prob_tail = log_prob_block[:, -1, :] *)
          _ <- guard (0 <? dim3_1 log_prob_block) IndexError ;;
          let log_prob_tail :=
            fun b => at3 log_prob_block b (dim3_1 log_prob_block - 1) in
          (* ys = xp.argmax(log_prob_tail.data, axis=1) *)
          _ <- guard (0 <? dim3_2 log_prob_block) ValueError ;;
          let ys := tabulate (dim3_0 log_prob_block) (fun b =>
            Z.of_nat (argmax_upto (dim3_2 log_prob_block - 1) (log_prob_tail b))) in
          let results := results ++ [ys] in
          y_block <- append_column y_block ys ;;
          let eos_flags := add_eos eos_flags ys in
          if forallb (fun f => negb (f =? 0)) eos_flags
          then Ok results
          else greedy_loop m xp train rnd x_block steps' (S i)
                           y_block eos_flags results
      end
  end.

(** [np.argwhere(y == 0)]: the positions of the end-of-sequence id. *)
Fixpoint argwhere_zero (i : nat) (y : list Z) : list nat :=
  match y with
  | [] => []
  | t :: rest =>
      if (t =? 0)%Z then i :: argwhere_zero (S i) rest
      else argwhere_zero (S i) rest
  end.

(** The body of the loop that removes the end-of-sequence tags. *)
Definition remove_eos (y : list Z) : list Z :=
  let inds := argwhere_zero 0 y in
  let y := match inds with
           | i0 :: _ => firstn i0 y
           | [] => y
           end in
  match y with
  | [] => [1%Z]
  | _ => y
  end.

(** [Seq2seq.translate(x_block, max_length)]; [rnd i] supplies the
    dropout samples of the forward pass of iteration [i]. *)
Definition translate (m : Seq2seq) (xp : backend) (train : bool)
    (rnd : nat -> rng) (x_block : source) (max_length : nat)
    : result (list (list Z)) :=
  x_block <- match x_block with
             | SourceList xs => concat_examples xs
             | SourceBlock x => Ok x
             end ;;
  let batch := dim2_0 x_block in
  let y_block := Arr2 batch 1 (fun _ _ => 0%Z) in
  let eos_flags := repeat 0 batch in
  results <- greedy_loop m xp train rnd x_block max_length 0
               y_block eos_flags [] ;;
  (* result = self.xp.stack(result).T *)
  _ <- guard (negb (List.length results =? 0)) ValueError ;;
  let rows := tabulate batch (fun b => map (fun ys => nth b ys 0%Z) results) in
  Ok (map remove_eos rows).

(** ** Concrete inputs used by the examples *)

Definition const_weights (c : float) : weights :=
  MkWeights (fun _ _ => c) (fun _ _ => c) (fun _ _ => c) (fun _ _ => c)
            (fun _ _ _ _ => c) (fun _ _ => c) (fun _ _ _ _ => c) (fun _ _ => c)
            (fun _ _ _ => c) (fun _ _ => c) (fun _ _ => c) (fun _ => c).

Definition no_rng : rng := fun _ _ _ _ => zero.

(** A hidden state of shape (1, 2, 3, 1). *)
Definition demo_state : arr3 float :=
  Arr3 1 2 3 (fun _ u l => of_nat (1 + u + 2 * l)).

(** Attention inputs with one target position and two source positions,
    both masked: query and key of shape (1, 1, 1) and (1, 1, 2), the
    mask of shape (1, 1, 2) false everywhere. *)
Definition masked_query : arr3 float := Arr3 1 1 1 (fun _ _ _ => one).
Definition masked_key : arr3 float := Arr3 1 1 2 (fun _ _ s => of_nat (1 + s)).
Definition masked_mask : arr3 bool := Arr3 1 1 2 (fun _ _ _ => false).
Definition finite_value : arr4 float := Arr4 1 1 1 2 (fun _ _ _ s => of_nat (3 + s)).
Definition infinite_value : arr4 float := Arr4 1 1 1 2 (fun _ _ _ _ => infinity).

(** Inputs of one decoder layer: the layer-0 embedding [demo_base], the
    state [demo_state] and a link [demo_preatt] that sums its inputs. *)
Definition demo_base : arr3 float := Arr3 1 2 3 (fun _ _ _ => 0.5%float).
Definition demo_preatt : Linear := MkLinear 2 2 (fun _ _ => one) (fun _ => zero).

(** Encoder output, values and mask for [demo_state] and two source
    positions. *)
Definition demo_z : arr3 float := Arr3 1 2 2 (fun _ u s => of_nat (u + s)).
Definition demo_ze : arr4 float := Arr4 1 2 3 2 (fun _ u _ s => of_nat (1 + u + s)).
Definition demo_mask : arr3 bool := Arr3 1 3 2 (fun _ _ _ => true).

(** The sum of [f] over the positions whose target is counted. *)
Fixpoint sum_counted (n : nat) (t : nat -> Z) (f : nat -> float) : float :=
  match n with
  | O => zero
  | S k => if counted (t k) then (sum_counted k t f + f k)%float
           else sum_counted k t f
  end.

(** The mean cross-entropy over the target positions that are not
    ignored, in the words of the specification: the positions whose
    target is not -1 are collected, the log-probabilities of their
    targets are added, and minus the sum is divided by their number (by 1
    when there is none; the division is the multiplication by the
    reciprocal). *)
Definition non_ignored (n : nat) (t : nat -> Z) : list nat :=
  filter (fun p => negb (t p =? -1)%Z) (seq 0 n).

Definition mean_cross_entropy (logits : arr2 float) (n : nat) (t : nat -> Z)
    : float :=
  let positions := non_ignored n t in
  let log_p := fun p =>
    log_softmax_row (dim2_1 logits) (at2 logits p) (Z.to_nat (t p)) in
  (fold_left (fun acc p => acc + log_p p) positions zero
   * - (1 / of_nat (Nat.max (List.length positions) 1)))%float.

(** Two floats are the same, or are both zeros (of any sign). *)
Definition same_up_to_zero_sign (a b : float) : Prop :=
  a = b \/ (is_zero a = true /\ is_zero b = true).

(** The targets [t] are ignored at a position only where the
    log-probability of class 0 is finite. *)
Definition finite_where_ignored (logits : arr2 float) (n : nat) (t : nat -> Z)
    : Prop :=
  forall p, p < n -> t p = (-1)%Z ->
    is_finite (log_softmax_row (dim2_1 logits) (at2 logits p) 0) = true.

(** A model with two positions only, no layers, one unit and a source
    vocabulary and a target vocabulary of 3 ids. *)
Definition short_model : Seq2seq := Seq2seq_init 0 3 3 1 2 0.5 (const_weights one).

(** The prefix of a decoded sequence before its first end-of-sequence
    id 0, in the words of the specification. *)
Fixpoint before_eos (y : list Z) : list Z :=
  match y with
  | [] => []
  | t :: rest => if (t =? 0)%Z then [] else t :: before_eos rest
  end.

(** What the specification returns for a decoded row: the row cut
    before its first end-of-sequence id, or the placeholder id 1 when
    nothing is left. *)
Definition cut_or_placeholder (y : list Z) : list Z :=
  match before_eos y with
  | [] => [1%Z]
  | y' => y'
  end.

(** The rows decoded for a batch: row b holds, step by step, the id
    chosen for sequence b ([xp.stack(result).T]). *)
Definition decoded_rows (batch : nat) (results : list (list Z)) : list (list Z) :=
  tabulate batch (fun b => map (fun ys => nth b ys 0%Z) results).

(** The block [translate] decodes: the source block, or the examples
    concatenated into one. *)
Definition source_block (s : source) : result (arr2 Z) :=
  match s with
  | SourceList xs => concat_examples xs
  | SourceBlock x => Ok x
  end.

(** A model without layers, with one unit, whose logits are
    (0, 0.5, h) for the hidden value h; all embeddings are 1. *)
Definition dropout_weights : weights :=
  MkWeights (fun _ _ => one) (fun _ _ => one) (fun _ _ => one) (fun _ _ => one)
            (fun _ _ _ _ => one) (fun _ _ => zero) (fun _ _ _ _ => one) (fun _ _ => zero)
            (fun _ _ _ => one) (fun _ _ => zero)
            (fun o _ => if o =? 2 then one else zero)
            (fun o => if o =? 1 then 0.5%float else zero).

Definition dropout_model : Seq2seq := Seq2seq_init 0 3 3 1 4 0.5 dropout_weights.

(** Dropout samples above and below the ratio 0.5: every element is
    kept, every element is dropped. *)
Definition keep_all : rng := fun _ _ _ _ => 0.75%float.
Definition drop_all : rng := fun _ _ _ _ => 0.25%float.

(** Two target prefixes that agree at position 0 and differ at
    position 1, with a model of two units and no layers whose target
    embedding of id r is (10 r, 10 r + 1), whose position embeddings are
    zero and whose logits all read unit 1 of the hidden state. *)
Definition causal_weights : weights :=
  MkWeights (fun _ _ => one) (fun r u => of_nat (10 * r + u))
            (fun _ _ => zero) (fun _ _ => zero)
            (fun _ _ _ _ => one) (fun _ _ => zero) (fun _ _ _ _ => one) (fun _ _ => zero)
            (fun _ _ _ => one) (fun _ _ => zero)
            (fun _ u => if u =? 1 then one else zero)
            (fun _ => zero).

Definition causal_model : Seq2seq := Seq2seq_init 0 3 3 2 4 0.5 causal_weights.

Definition source_1 : arr2 Z := block_of_rows 1 [[1%Z]].
Definition target_0_1 : arr2 Z := block_of_rows 2 [[0%Z; 1%Z]].
Definition target_0_2 : arr2 Z := block_of_rows 2 [[0%Z; 2%Z]].

(** A training example in the manner of the scenario of the
    specification, with padding in all three blocks: one layer, 2 units,
    a source vocabulary of 5 ids and a target vocabulary of 7. *)
Definition scenario_model : Seq2seq := Seq2seq_init 1 5 7 2 8 0.5 (const_weights 0.125).
Definition scenario_x : arr2 Z := block_of_rows 3 [[2; 3; -1]]%Z.
Definition scenario_y_in : arr2 Z := block_of_rows 3 [[0; 5; -1]]%Z.
Definition scenario_y_out : arr2 Z := block_of_rows 3 [[5; 0; -1]]%Z.

(** Two arrays hold the same values at the positions before [n] of
    their last (or, for values, third) axis, and [n] positions exist. *)
Definition agree_before (n : nat) (x x' : arr3 float) : Prop :=
  dim3_0 x = dim3_0 x' /\ dim3_1 x = dim3_1 x' /\
  n <= dim3_2 x /\ n <= dim3_2 x' /\
  forall i u t, i < dim3_0 x -> u < dim3_1 x -> t < n ->
    at3 x i u t = at3 x' i u t.

Definition mask_agree_before (n : nat) (m m' : arr3 bool) : Prop :=
  dim3_0 m = dim3_0 m' /\ dim3_2 m = dim3_2 m' /\
  forall i t s, i < dim3_0 m -> t < n -> s < dim3_2 m ->
    at3 m i t s = at3 m' i t s.

Definition value_agree_before (n : nat) (v v' : arr4 float) : Prop :=
  dim4_0 v = dim4_0 v' /\ dim4_1 v = dim4_1 v' /\ dim4_3 v = dim4_3 v' /\
  forall i u t s, i < dim4_0 v -> u < dim4_1 v -> t < n -> s < dim4_3 v ->
    at4 v i u t s = at4 v' i u t s.

(** States of lengths 3 and 2 that agree at positions 0 and 1, with
    values and masks for two source positions. *)
Definition demo_state_short : arr3 float :=
  Arr3 1 2 2 (fun _ u l => of_nat (1 + u + 2 * l)).
Definition demo_ze_short : arr4 float := Arr4 1 2 2 2 (fun _ u _ s => of_nat (1 + u + s)).
Definition demo_mask_short : arr3 bool := Arr3 1 2 2 (fun _ _ _ => true).
Definition demo_decoder : ConvGLUDecoder :=
  ConvGLUDecoder_init 1 2 5 0.5 (fun _ _ _ _ => 0.25%float) (fun _ _ => zero)
                      (fun _ _ _ => one) (fun _ _ => zero).

(** A block whose ids are padding (-1) or ids of a vocabulary of
    [vocab] entries. *)
Definition valid_ids (vocab : nat) (b : arr2 Z) : Prop :=
  forall i j, i < dim2_0 b -> j < dim2_1 b ->
    (-1 <= at2 b i j < Z.of_nat vocab)%Z.

(** Source and target blocks a model built by [Seq2seq_init] is meant
    for: the same number of rows, lengths between 1 and [max_length],
    ids of the two vocabularies or padding. *)
Definition well_formed_input (n_source_vocab n_target_vocab max_length : nat)
    (x_block y_in_block : arr2 Z) : Prop :=
  1 <= n_source_vocab /\ 1 <= n_target_vocab /\
  dim2_0 x_block = dim2_0 y_in_block /\
  1 <= dim2_1 x_block <= max_length /\
  1 <= dim2_1 y_in_block <= max_length /\
  valid_ids n_source_vocab x_block /\ valid_ids n_target_vocab y_in_block.

(** The number of sequences of a source. *)
Definition source_rows (s : source) : nat :=
  match s with
  | SourceList xs => List.length xs
  | SourceBlock x_block => dim2_0 x_block
  end.

(** A link of 2 inputs and 2 outputs with distinct weights, and a
    training example for [dropout_model]. *)
Definition demo_linear : Linear :=
  MkLinear 2 2 (fun o c => of_nat (1 + o + 2 * c)) (fun o => of_nat o).
Definition train_x : arr2 Z := block_of_rows 2 [[1; -1]]%Z.
Definition train_y_in : arr2 Z := block_of_rows 2 [[0; 2]]%Z.
Definition train_y_out : arr2 Z := block_of_rows 2 [[2; 0]]%Z.
Definition ignored_y_out : arr2 Z := block_of_rows 2 [[-1; -1]]%Z.


Definition padded_y_in : arr2 Z := block_of_rows 2 [[0; -1]]%Z.
Definition padded_query : arr3 float := Arr3 1 1 2 (fun _ _ t => of_nat (1 + t)).
Definition empty_block : arr2 Z := block_of_rows 0 [[]].

(** Two arrays of one shape hold the same values in row [b] of their
    first axis. *)
Definition row_agree (b : nat) (x x' : arr3 float) : Prop :=
  shape3 x = shape3 x' /\
  forall u l, u < dim3_1 x -> l < dim3_2 x -> at3 x b u l = at3 x' b u l.

Definition mask_row_agree (b : nat) (m m' : arr3 bool) : Prop :=
  shape3 m = shape3 m' /\
  forall t s, t < dim3_1 m -> s < dim3_2 m -> at3 m b t s = at3 m' b t s.

Definition value_row_agree (b : nat) (v v' : arr4 float) : Prop :=
  dim4_0 v = dim4_0 v' /\ dim4_1 v = dim4_1 v' /\
  dim4_2 v = dim4_2 v' /\ dim4_3 v = dim4_3 v' /\
  forall u t s, u < dim4_1 v -> t < dim4_2 v -> s < dim4_3 v ->
    at4 v b u t s = at4 v' b u t s.

(** Two blocks of ids of one shape with the same row [b]. *)
Definition same_row (b : nat) (x x' : arr2 Z) : Prop :=
  dim2_0 x' = dim2_0 x /\ dim2_1 x' = dim2_1 x /\
  forall j, j < dim2_1 x -> at2 x' b j = at2 x b j.

(** Batches of two sequences with the same second row. *)
Definition batch_x : arr2 Z := block_of_rows 2 [[1; 2]; [2; -1]]%Z.
Definition batch_x' : arr2 Z := block_of_rows 2 [[0; 0]; [2; -1]]%Z.
Definition batch_y : arr2 Z := block_of_rows 2 [[0; 1]; [0; 2]]%Z.
Definition batch_y' : arr2 Z := block_of_rows 2 [[0; 2]; [0; 2]]%Z.

(** * Properties *)

Unset Implicit Arguments.

(** ** The error monad *)

Lemma bind_inv {A B : Type} (c : result A) (k : A -> result B) (b : B) :
  bind c k = Ok b -> exists a, c = Ok a /\ k a = Ok b.
Proof.
  destruct c as [a|e]; simpl; intros H; [exists a; auto | discriminate].
Qed.

Lemma guard_inv (b : bool) (e : error) (u : unit) :
  guard b e = Ok u -> b = true.
Proof. destruct b; simpl; [reflexivity | discriminate]. Qed.

Lemma guard_true (e : error) : guard true e = Ok tt.
Proof. reflexivity. Qed.

(** [inv_bind H] splits a successful [x <- c ;; k] into its two halves;
    [inv_guard H] does the same for a guard and keeps its condition. *)
Ltac inv_bind H :=
  let a := fresh "a" in
  let Ha := fresh "Ha" in
  apply bind_inv in H; destruct H as (a & Ha & H).

Ltac inv_guard H :=
  let u := fresh "u" in
  let Hg := fresh "Hg" in
  apply bind_inv in H; destruct H as (u & Hg & H); apply guard_inv in Hg.

Ltac inv_ok H := injection H as H; try subst.

(** ** Shapes of the basic operations *)

Lemma dropped_shape train rnd ratio x :
  shape3 (dropped train rnd ratio x) = shape3 x.
Proof. destruct train; reflexivity. Qed.

(** [F.dropout] returns exactly when the train flag is off or the ratio
    is in [0, 1). *)
Lemma F_dropout_inv train rnd ratio x y :
  F_dropout train rnd ratio x = Ok y ->
  dropout_ok train ratio = true /\ y = dropped train rnd ratio x.
Proof.
  unfold F_dropout, Dropout, dropout_ok, dropped. destruct train; cbn [negb orb].
  - intros H. inv_guard H. inv_ok H. auto.
  - intros H. inv_ok H. auto.
Qed.

Lemma F_dropout_ok train rnd ratio x :
  dropout_ok train ratio = true ->
  F_dropout train rnd ratio x = Ok (dropped train rnd ratio x).
Proof.
  unfold F_dropout, Dropout, dropout_ok, dropped. destruct train; cbn [negb orb].
  - intros ->. reflexivity.
  - reflexivity.
Qed.

Lemma F_dropout_raises rnd ratio x :
  valid_ratio ratio = false -> F_dropout true rnd ratio x = Err ValueError.
Proof. unfold F_dropout, Dropout. intros ->. reflexivity. Qed.

Lemma F_dropout2_inv train rnd ratio x y :
  F_dropout2 train rnd ratio x = Ok y ->
  dropout_ok train ratio = true /\ y = dropped2 train rnd ratio x.
Proof.
  unfold F_dropout2, Dropout2, dropout_ok, dropped2. destruct train; cbn [negb orb].
  - intros H. inv_guard H. inv_ok H. auto.
  - intros H. inv_ok H. auto.
Qed.

Lemma F_dropout2_ok train rnd ratio x :
  dropout_ok train ratio = true ->
  F_dropout2 train rnd ratio x = Ok (dropped2 train rnd ratio x).
Proof.
  unfold F_dropout2, Dropout2, dropout_ok, dropped2. destruct train; cbn [negb orb].
  - intros ->. reflexivity.
  - reflexivity.
Qed.

Lemma add3_inv x y s :
  add3 x y = Ok s ->
  shape3 y = shape3 x /\ shape3 s = shape3 x /\
  forall i j l, at3 s i j l = (at3 x i j l + at3 y i j l)%float.
Proof.
  unfold add3. intros H. inv_guard H. inv_ok H.
  unfold same_shape3 in Hg.
  apply andb_prop in Hg as [Hg H2]. apply andb_prop in Hg as [H0 H1].
  apply Nat.eqb_eq in H0, H1, H2.
  unfold shape3; simpl. rewrite H0, H1, H2. auto.
Qed.

Lemma add3_same_shape x y :
  shape3 y = shape3 x -> exists s, add3 x y = Ok s.
Proof.
  unfold shape3, add3, same_shape3. intros H. injection H as H0 H1 H2.
  rewrite H0, H1, H2, !Nat.eqb_refl. simpl. eauto.
Qed.

Lemma mul_scalar3_shape x c : shape3 (mul_scalar3 x c) = shape3 x.
Proof. reflexivity. Qed.

Lemma even_double n : Nat.even (2 * n) = true.
Proof.
  rewrite Nat.even_mul. reflexivity.
Qed.

Lemma half_double n : 2 * n / 2 = n.
Proof. rewrite Nat.mul_comm. apply Nat.div_mul. discriminate. Qed.

Lemma odd_half w : Nat.odd w = true -> w = 2 * (w / 2) + 1.
Proof.
  intros H. pose proof (Nat.div_mod_eq w 2) as E.
  rewrite <- Nat.bit0_mod, Nat.bit0_odd, H in E. simpl in E. exact E.
Qed.

(** Shape of the output of one gated convolution in terms of its link. *)
Lemma ConvGLU_call_inv train rnd g x y :
  ConvGLU_call train rnd g x = Ok y ->
  dim3_1 x = conv_in (glu_conv g) /\
  conv_ksize (glu_conv g) <= dim3_2 x + 2 * conv_pad (glu_conv g) /\
  dim3_0 y = dim3_0 x /\
  dim3_1 y = conv_out (glu_conv g) / 2 /\
  dim3_2 y = dim3_2 x + 2 * conv_pad (glu_conv g) - conv_ksize (glu_conv g) + 1.
Proof.
  unfold ConvGLU_call, Convolution2D_call, glu. intros H.
  pose proof (dropped_shape train rnd (glu_dropout g) x) as Hs.
  unfold shape3 in Hs. injection Hs as S0 S1 S2.
  apply bind_inv in H as (x1 & Hd & H). apply F_dropout_inv in Hd as (_ & ->).
  inv_bind H. inv_guard Ha. inv_guard Ha. inv_ok Ha.
  inv_guard H. inv_ok H. simpl.
  apply Nat.eqb_eq in Hg. apply Nat.leb_le in Hg0.
  rewrite S0, S1, S2 in *. auto.
Qed.

Lemma ConvGLU_call_ratio train rnd g x y :
  ConvGLU_call train rnd g x = Ok y -> dropout_ok train (glu_dropout g) = true.
Proof.
  unfold ConvGLU_call. intros H.
  apply bind_inv in H as (x1 & Hd & _). apply F_dropout_inv in Hd as (Hd & _).
  exact Hd.
Qed.

Lemma ConvGLU_call_ok train rnd g x :
  dropout_ok train (glu_dropout g) = true ->
  dim3_1 x = conv_in (glu_conv g) ->
  conv_ksize (glu_conv g) <= dim3_2 x + 2 * conv_pad (glu_conv g) ->
  Nat.even (conv_out (glu_conv g)) = true ->
  exists y, ConvGLU_call train rnd g x = Ok y.
Proof.
  intros Hd H1 H2 H3.
  pose proof (dropped_shape train rnd (glu_dropout g) x) as Hs.
  unfold shape3 in Hs. injection Hs as S0 S1 S2.
  unfold ConvGLU_call. rewrite (F_dropout_ok _ _ _ _ Hd). cbn [bind].
  unfold Convolution2D_call, glu.
  rewrite S1, S2.
  apply Nat.eqb_eq in H1. apply Nat.leb_le in H2.
  rewrite H1, H2. simpl. rewrite H3. simpl. eauto.
Qed.

(** C7: a gated convolution block built for [n_units] channels accepts
    only inputs with [n_units] channels and returns [n_units] channels
    (half of the [2 * n_units] the convolution produces) for the same
    batch; with padding of its own ([nopad] false) and an odd [width]
    the length of the sequence is kept, and the call succeeds on every
    non-empty sequence when [F.dropout] accepts the ratio (the train
    flag is off, or 0 <= dropout < 1). *)
Theorem ConvGLU_output_shape n_units width dropout nopad Wc bc train rnd x :
  (forall y,
      ConvGLU_call train rnd (ConvGLU_init n_units width dropout nopad Wc bc) x = Ok y ->
      dim3_1 x = n_units /\ dim3_0 y = dim3_0 x /\ dim3_1 y = n_units /\
      conv_out (glu_conv (ConvGLU_init n_units width dropout nopad Wc bc)) = 2 * n_units /\
      (nopad = false -> Nat.odd width = true -> dim3_2 y = dim3_2 x))
  /\
  (dropout_ok train dropout = true ->
   dim3_1 x = n_units -> 1 <= dim3_2 x -> nopad = false -> Nat.odd width = true ->
   exists y,
     ConvGLU_call train rnd (ConvGLU_init n_units width dropout nopad Wc bc) x = Ok y).
Proof.
  split.
  - intros y H. apply ConvGLU_call_inv in H.
    unfold ConvGLU_init in *.
    cbn [glu_conv conv_in conv_out conv_ksize conv_pad] in *.
    destruct H as (Hin & Hk & H0 & H1 & H2).
    rewrite half_double in H1.
    repeat split; auto.
    intros -> Hodd. rewrite H2. apply odd_half in Hodd. lia.
  - intros Hd Hin HL -> Hodd. apply ConvGLU_call_ok; unfold ConvGLU_init;
      cbn [glu_conv glu_dropout conv_in conv_out conv_ksize conv_pad]; auto.
    + apply odd_half in Hodd. lia.
    + apply even_double.
Qed.

(** ** The encoder stack *)



(** The constant [scale] is the float nearest to the square root of 1/2. *)
Example scale_value : scale = 0x1.6a09e667f3bcdp-1%float.
Proof. reflexivity. Qed.

(** ** IEEE facts about NaN and zero *)

Lemma is_nan_SF x : is_nan x = true <-> Prim2SF x = S754_nan.
Proof.
  split; intros H.
  - unfold Prim2SF. rewrite H. reflexivity.
  - unfold is_nan. rewrite FloatAxioms.eqb_spec, H. reflexivity.
Qed.

Lemma is_zero_SF x : is_zero x = true <-> exists s, Prim2SF x = S754_zero s.
Proof.
  unfold is_zero. rewrite FloatAxioms.eqb_spec.
  change (Prim2SF zero) with (S754_zero false).
  destruct (Prim2SF x) as [s|s| |s m e]; simpl; split; intros H;
    try discriminate; try (destruct s; discriminate); eauto;
    destruct H as (s' & H); discriminate.
Qed.

Lemma is_finite_SF x :
  is_finite x = true ->
  (exists s, Prim2SF x = S754_zero s) \/ (exists s m e, Prim2SF x = S754_finite s m e).
Proof.
  unfold is_finite, is_infinity. intros H.
  apply negb_true_iff, orb_false_iff in H as [Hn Hi].
  rewrite FloatAxioms.eqb_spec, abs_spec in Hi.
  change (Prim2SF infinity) with (S754_infinity false) in Hi.
  destruct (Prim2SF x) as [s|s| |s m e] eqn:E; eauto.
  - simpl in Hi. discriminate.
  - apply is_nan_SF in E. congruence.
Qed.

Lemma nan_div x y : is_nan x = true -> is_nan (x / y) = true.
Proof.
  intros H. apply is_nan_SF in H. apply is_nan_SF.
  rewrite div_spec, H. reflexivity.
Qed.

Lemma zero_mul_finite v : is_finite v = true -> is_zero (zero * v) = true.
Proof.
  intros H. apply is_zero_SF. rewrite mul_spec.
  change (Prim2SF zero) with (S754_zero false).
  destruct (is_finite_SF _ H) as [(s & E)|(s & m & e & E)]; rewrite E; simpl; eauto.
Qed.

Lemma zero_add_zero a b :
  is_zero a = true -> is_zero b = true -> is_zero (a + b) = true.
Proof.
  intros Ha Hb. apply is_zero_SF in Ha as (sa & Ea). apply is_zero_SF in Hb as (sb & Eb).
  apply is_zero_SF. rewrite add_spec, Ea, Eb.
  destruct sa, sb; simpl; eauto.
Qed.

Lemma is_zero_not_nan x : is_zero x = true -> is_nan x = false.
Proof.
  intros H. apply is_zero_SF in H as (s & E).
  destruct (is_nan x) eqn:N; [|reflexivity].
  apply is_nan_SF in N. congruence.
Qed.

Lemma sum_upto_zero n f :
  (forall s, s < n -> is_zero (f s) = true) -> is_zero (sum_upto n f) = true.
Proof.
  induction n as [|n IH]; intros H; simpl.
  - reflexivity.
  - apply zero_add_zero; [apply IH; intros; apply H; lia | apply H; lia].
Qed.

Lemma sum_upto_ext n f g :
  (forall s, s < n -> f s = g s) -> sum_upto n f = sum_upto n g.
Proof.
  induction n as [|n IH]; intros H; simpl.
  - reflexivity.
  - rewrite IH by (intros; apply H; lia). rewrite H by lia. reflexivity.
Qed.

Lemma max_upto_ext n f g :
  (forall s, s <= n -> f s = g s) -> max_upto n f = max_upto n g.
Proof.
  induction n as [|n IH]; intros H; simpl.
  - apply H. lia.
  - rewrite IH by (intros; apply H; lia). rewrite H by lia. reflexivity.
Qed.

Lemma fmaximum_idem c : fmaximum c c = c.
Proof. unfold fmaximum. destruct (is_nan c), (c <? c)%float; reflexivity. Qed.

Lemma max_upto_const n f c :
  (forall s, s <= n -> f s = c) -> max_upto n f = c.
Proof.
  induction n as [|n IH]; intros H; simpl.
  - apply H. lia.
  - rewrite IH by (intros; apply H; lia). rewrite H by lia. apply fmaximum_idem.
Qed.

Lemma bidx_lt from to i : bcast_ok from to = true -> i < to -> bidx from i < from.
Proof.
  unfold bcast_ok, bidx. intros H Hi.
  destruct (from =? 1) eqn:E1.
  - apply Nat.eqb_eq in E1. lia.
  - rewrite orb_false_r in H. apply Nat.eqb_eq in H. lia.
Qed.

Lemma bidx_id from i : i < from -> bidx from i = i.
Proof.
  unfold bidx. intros Hi. destruct (from =? 1) eqn:E1; [|reflexivity].
  apply Nat.eqb_eq in E1. lia.
Qed.

(** ** The attention unit on a fully masked row *)

(** What the array library's [exp] does with a NaN. *)
Hypothesis xp_exp_nan : forall x, is_nan x = true -> is_nan (xp_exp x) = true.

Lemma softmax_row_all_minus_inf n row s :
  (forall s', s' < n -> row s' = neg_infinity) -> s < n ->
  is_nan (softmax_row n row s) = true.
Proof.
  intros Hrow Hs. unfold softmax_row.
  rewrite max_upto_const with (c := neg_infinity) by (intros; apply Hrow; lia).
  apply nan_div. rewrite Hrow by exact Hs. apply xp_exp_nan. reflexivity.
Qed.

Lemma attention_weights_inv query key mask a :
  attention_weights query key mask = Ok a ->
  shape3 a = shape3 mask /\
  dim3_0 mask = dim3_0 query /\ dim3_1 mask = dim3_2 query /\
  dim3_2 mask = dim3_2 key /\ dim3_0 query = dim3_0 key /\
  dim3_1 query = dim3_1 key /\ 0 < dim3_2 key.
Proof.
  unfold attention_weights. intros H.
  inv_guard H. inv_guard H. inv_guard H. inv_ok H.
  unfold same_shape3 in Hg0. simpl in *.
  apply andb_prop in Hg as [G0 G1].
  apply andb_prop in Hg0 as [Hg0 M2]. apply andb_prop in Hg0 as [M0 M1].
  apply Nat.eqb_eq in G0, G1, M0, M1, M2. apply Nat.ltb_lt in Hg1.
  unfold shape3. simpl. rewrite M0, M1, M2. auto 10.
Qed.

(** On a row of the mask that is entirely false the weights are exactly
    zero: the softmax of the all -inf row is NaN and the re-mask replaces
    it. *)
Lemma attention_weights_masked_row query key mask a i t :
  attention_weights query key mask = Ok a ->
  (forall s, s < dim3_2 mask -> at3 mask i t s = false) ->
  forall s, s < dim3_2 a -> at3 a i t s = zero.
Proof.
  intros H Hrow s Hs.
  pose proof (attention_weights_inv _ _ _ _ H) as (Hsh & M0 & M1 & M2 & _).
  unfold shape3 in Hsh. injection Hsh as A0 A1 A2.
  unfold attention_weights in H.
  inv_guard H. inv_guard H. inv_guard H. inv_ok H. simpl in *.
  rewrite softmax_row_all_minus_inf; [reflexivity| |lia].
  intros s' Hs'. rewrite Hrow by lia. reflexivity.
Qed.

(** C1 (as amended): where the row mask[i][t] is entirely false, the
    context vector that [attend] returns at (i, t) is zero (and not NaN)
    in every channel [u] whose values value[i][u][t][.] are finite. *)
Theorem attend_masked_row_zero query key value mask c i t u :
  attend query key value mask = Ok c ->
  i < dim3_0 mask -> t < dim3_1 mask ->
  (forall s, s < dim3_2 mask -> at3 mask i t s = false) ->
  (forall s, s < dim4_3 value -> is_finite (at4 value i u t s) = true) ->
  is_zero (at3 c i u t) = true /\ is_nan (at3 c i u t) = false.
Proof.
  intros H Hi Ht Hrow Hfin.
  assert (Z : is_zero (at3 c i u t) = true); [|split; [exact Z|apply is_zero_not_nan, Z]].
  unfold attend in H. inv_bind H. inv_guard H. inv_ok H. simpl in *.
  pose proof (attention_weights_inv _ _ _ _ Ha) as (Hsh & _).
  unfold shape3 in Hsh. injection Hsh as A0 A1 A2.
  apply andb_prop in Hg as [Hg B2]. apply andb_prop in Hg as [B0 B1].
  apply sum_upto_zero. intros s Hs.
  rewrite A0, A1, !bidx_id by assumption.
  rewrite (attention_weights_masked_row _ _ _ _ _ _ Ha Hrow).
  - apply zero_mul_finite, Hfin, Hs.
  - eapply bidx_lt; eauto.
Qed.

(** ** The query of a decoder layer *)

Lemma Linear_call_inv lin x h :
  Linear_call lin x = Ok h ->
  dim2_1 x = lin_in lin /\ dim2_0 h = dim2_0 x /\ dim2_1 h = lin_out lin.
Proof.
  unfold Linear_call. intros H. inv_guard H. inv_ok H.
  apply Nat.eqb_eq in Hg. simpl. auto.
Qed.

Lemma seq_linear_inv linear x r :
  seq_linear linear x = Ok r -> shape3 r = shape3 x.
Proof.
  unfold seq_linear. intros H. inv_bind H. inv_guard H. inv_ok H. reflexivity.
Qed.

Lemma seq_linear_ok linear x :
  dim3_1 x = lin_in linear -> lin_out linear = dim3_1 x ->
  exists r, seq_linear linear x = Ok r.
Proof.
  intros Hin Hout. unfold seq_linear, Linear_call. simpl.
  rewrite Hin, Nat.eqb_refl. simpl. rewrite Hout, Hin, Nat.eqb_refl. simpl. eauto.
Qed.

(** The query is the state [x] itself: the sum [base_x + preatt] is
    computed and then overwritten. *)
Lemma attention_query_eq preatt_link base_x x query :
  attention_query preatt_link base_x x = Ok query -> query = x.
Proof.
  unfold attention_query. intros H. inv_bind H. inv_bind H. inv_ok H. reflexivity.
Qed.

Lemma attention_query_ok preatt_link base_x x :
  dim3_1 x = lin_in preatt_link -> lin_out preatt_link = dim3_1 x ->
  shape3 base_x = shape3 x ->
  attention_query preatt_link base_x x = Ok x.
Proof.
  intros Hin Hout Hb. unfold attention_query.
  destruct (seq_linear_ok preatt_link x Hin Hout) as (r & Hr). rewrite Hr. simpl.
  apply seq_linear_inv in Hr.
  destruct (add3_same_shape base_x r) as (s & Hs); [congruence|].
  rewrite Hs. reflexivity.
Qed.

(** Whether the query is computed, and what it is, depends on the sizes
    of the link only, never on its weights. *)
Lemma attention_query_weights p p' base_x x :
  lin_in p = lin_in p' -> lin_out p = lin_out p' ->
  attention_query p base_x x = attention_query p' base_x x.
Proof.
  intros Hin Hout. unfold attention_query, seq_linear, Linear_call, add3, same_shape3.
  simpl. rewrite Hin, Hout.
  destruct (dim3_1 x =? lin_in p'); simpl; [|reflexivity].
  destruct (dim3_0 x * dim3_2 x * lin_out p' =? dim3_0 x * dim3_2 x * dim3_1 x);
    simpl; [|reflexivity].
  destruct ((dim3_0 base_x =? dim3_0 x) && (dim3_1 base_x =? dim3_1 x)
            && (dim3_2 base_x =? dim3_2 x)); reflexivity.
Qed.

(** ** Shapes in the decoder stack *)

Lemma attention_weights_ok query key mask :
  dim3_0 query = dim3_0 key -> dim3_1 query = dim3_1 key ->
  shape3 mask = (dim3_0 query, dim3_2 query, dim3_2 key) ->
  0 < dim3_2 key ->
  exists a, attention_weights query key mask = Ok a.
Proof.
  intros H0 H1 Hm Hk. unfold shape3 in Hm. injection Hm as M0 M1 M2.
  unfold attention_weights, same_shape3. simpl.
  rewrite H0, H1, !Nat.eqb_refl. simpl.
  rewrite M0, M1, M2, H0, !Nat.eqb_refl. simpl.
  apply Nat.ltb_lt in Hk. rewrite Hk. simpl. eauto.
Qed.

Lemma attend_inv query key value mask c :
  attend query key value mask = Ok c ->
  shape3 c = (dim4_0 value, dim4_1 value, dim4_2 value).
Proof.
  unfold attend. intros H. inv_bind H. inv_guard H. inv_ok H. reflexivity.
Qed.

Lemma bcast_ok_refl n : bcast_ok n n = true.
Proof. unfold bcast_ok. rewrite Nat.eqb_refl. reflexivity. Qed.

Lemma attend_ok query key value mask :
  dim3_0 query = dim3_0 key -> dim3_1 query = dim3_1 key ->
  shape3 mask = (dim3_0 query, dim3_2 query, dim3_2 key) ->
  0 < dim3_2 key ->
  dim4_0 value = dim3_0 query -> dim4_2 value = dim3_2 query ->
  dim4_3 value = dim3_2 key ->
  exists c, attend query key value mask = Ok c.
Proof.
  intros H0 H1 Hm Hk V0 V2 V3.
  destruct (attention_weights_ok query key mask H0 H1 Hm Hk) as (a & Ha).
  unfold attend. rewrite Ha. simpl.
  apply attention_weights_inv in Ha as (Hs & _).
  rewrite Hm in Hs. unfold shape3 in Hs. injection Hs as A0 A1 A2.
  rewrite A0, A1, A2, V0, V2, V3, !bcast_ok_refl. simpl. eauto.
Qed.

Lemma mul_att_scale_inv c a c' :
  mul_att_scale c a = Ok c' -> shape3 c' = shape3 c.
Proof.
  unfold mul_att_scale. intros H. inv_guard H. inv_ok H. reflexivity.
Qed.

Lemma mul_att_scale_ok c mask :
  dim3_0 mask = dim3_0 c -> dim3_1 mask = dim3_2 c ->
  exists c', mul_att_scale c (att_scale mask) = Ok c'.
Proof.
  intros H0 H1. unfold mul_att_scale, att_scale. simpl.
  rewrite H0, H1, !bcast_ok_refl. simpl. eauto.
Qed.

(** A layer of the decoder keeps the shape of the state, and can only
    succeed when the kernel is 3 + 2 pad wide: the state is padded by 2
    on the left before the convolution and added to its output. *)
Lemma decoder_layer_inv train rnd g p base_x z ze mask x x' :
  decoder_layer train rnd g p base_x z ze mask x = Ok x' ->
  shape3 x' = shape3 x /\
  conv_ksize (glu_conv g) = 3 + 2 * conv_pad (glu_conv g).
Proof.
  unfold decoder_layer. intros H.
  inv_bind H. inv_bind H. inv_bind H. inv_bind H. inv_bind H.
  apply ConvGLU_call_inv in Ha as (_ & Hk & _ & _ & HL).
  apply add3_inv in Ha0 as (Hh & Hs & _).
  apply add3_inv in H as (_ & Hx' & _).
  rewrite mul_scalar3_shape in Hx'. split; [congruence|].
  unfold shape3 in Hh. injection Hh as _ _ Hh2.
  unfold concat_pad in HL, Hk. cbn [dim3_2] in HL, Hk. lia.
Qed.

Lemma decoder_loop_shape train rnd links :
  forall k0 base_x z ze mask x y,
    decoder_loop train rnd k0 links base_x z ze mask x = Ok y ->
    shape3 y = shape3 x.
Proof.
  induction links as [|[g p] rest IH]; intros k0 base_x z ze mask x y H; simpl in H.
  - inv_ok H. reflexivity.
  - inv_bind H. apply IH in H. apply decoder_layer_inv in Ha as (Ha & _). congruence.
Qed.

(** The links of a decoder whose kernels are 3 wide, for [n] units. *)
Definition causal_link (n : nat) (gp : ConvGLU * Linear) : Prop :=
  conv_in (glu_conv (fst gp)) = n /\ conv_out (glu_conv (fst gp)) = 2 * n /\
  conv_ksize (glu_conv (fst gp)) = 3 /\ conv_pad (glu_conv (fst gp)) = 0 /\
  lin_in (snd gp) = n /\ lin_out (snd gp) = n.

(** Such a link whose dropout ratio [F.dropout] accepts. *)
Definition runnable_link (train : bool) (n : nat) (gp : ConvGLU * Linear) : Prop :=
  causal_link n gp /\ dropout_ok train (glu_dropout (fst gp)) = true.

(** The operands of a decoder call fit together: state x of shape
    (b, n, L) with L >= 1, encoder output z of shape (b, n, S) with
    S >= 1, values ze of shape (b, n, L, S), mask of shape (b, L, S). *)
Definition decoder_operands (n : nat) (x z : arr3 float) (ze : arr4 float)
    (mask : arr3 bool) : Prop :=
  dim3_1 x = n /\ 1 <= dim3_2 x /\
  shape3 z = (dim3_0 x, n, dim3_2 z) /\ 1 <= dim3_2 z /\
  dim4_0 ze = dim3_0 x /\ dim4_1 ze = n /\ dim4_2 ze = dim3_2 x /\
  dim4_3 ze = dim3_2 z /\
  shape3 mask = (dim3_0 x, dim3_2 x, dim3_2 z).

Lemma decoder_operands_shape n x x' z ze mask :
  shape3 x' = shape3 x ->
  decoder_operands n x z ze mask -> decoder_operands n x' z ze mask.
Proof.
  unfold decoder_operands, shape3. intros E H. injection E as E0 E1 E2.
  rewrite E0, E1, E2. exact H.
Qed.

Lemma decoder_layer_ok train rnd n g p base_x z ze mask x :
  runnable_link train n (g, p) ->
  decoder_operands n x z ze mask ->
  shape3 base_x = shape3 x ->
  exists x', decoder_layer train rnd g p base_x z ze mask x = Ok x'.
Proof.
  intros ((Gin & Gout & Gk & Gp & Pin & Pout) & Gd)
         (X1 & XL & Z & ZL & V0 & V1 & V2 & V3 & M) B.
  cbn [fst snd] in Gin, Gout, Gk, Gp, Pin, Pout, Gd.
  unfold shape3 in Z. injection Z as Z0 Z1.
  unfold decoder_layer.
  destruct (ConvGLU_call_ok train rnd g (concat_pad x)) as (h & Hh).
  { exact Gd. }
  { simpl. congruence. }
  { simpl. lia. }
  { rewrite Gout. apply even_double. }
  rewrite Hh. cbn [bind].
  apply ConvGLU_call_inv in Hh as (_ & _ & H0 & H1 & H2).
  rewrite Gout, half_double in H1. unfold concat_pad in H0, H2. cbn [dim3_0 dim3_2] in H0, H2.
  destruct (add3_same_shape x h) as (s & Hs).
  { unfold shape3. f_equal; [f_equal|]; lia. }
  rewrite Hs. cbn [bind].
  apply add3_inv in Hs as (_ & Hs & _).
  assert (S1 : shape3 (mul_scalar3 s scale) = shape3 x)
    by (rewrite mul_scalar3_shape; exact Hs).
  remember (mul_scalar3 s scale) as x1 eqn:Ex1. clear Ex1.
  unfold shape3 in S1. injection S1 as S10 S11 S12.
  rewrite attention_query_ok; [| congruence | congruence | unfold shape3 in *; congruence].
  cbn [bind].
  destruct (attend_ok x1 z ze mask) as (c & Hc);
    [congruence | congruence | rewrite M; congruence | lia | congruence | congruence
    | congruence |].
  rewrite Hc. cbn [bind].
  apply attend_inv in Hc. unfold shape3 in Hc, M. injection Hc as C0 C1 C2.
  injection M as M0 M1 M2.
  destruct (mul_att_scale_ok c mask) as (c' & Hc'); [congruence | congruence |].
  rewrite Hc'. cbn [bind].
  apply mul_att_scale_inv in Hc'. unfold shape3 in Hc'. injection Hc' as C0' C1' C2'.
  apply add3_same_shape. unfold shape3. congruence.
Qed.

Lemma decoder_loop_ok train rnd n links :
  Forall (runnable_link train n) links ->
  forall k0 base_x z ze mask x,
    decoder_operands n x z ze mask ->
    shape3 base_x = shape3 x ->
    exists y, decoder_loop train rnd k0 links base_x z ze mask x = Ok y.
Proof.
  induction 1 as [|[g p] rest Hgp _ IH]; intros k0 base_x z ze mask x Hop Hb; simpl.
  - eauto.
  - destruct (decoder_layer_ok train (rnd k0) n g p base_x z ze mask x Hgp Hop Hb)
      as (x' & Hx').
    rewrite Hx'. cbn [bind].
    apply decoder_layer_inv in Hx' as (Hs & _).
    apply IH; [eapply decoder_operands_shape; eauto | congruence].
Qed.

Lemma decoder_links_from train n_layers n_units width dropout Wd bd Wp bp k :
  dropout_ok train dropout = true ->
  width / 2 + 1 = 3 ->
  Forall (runnable_link train n_units)
         (combine
            (map (fun i => ConvGLU_init n_units (width / 2 + 1) dropout true (Wd i) (bd i))
                 (seq k n_layers))
            (map (fun i => MkLinear n_units n_units (Wp i) (bp i)) (seq k n_layers))).
Proof.
  intros Hd Hw. revert k. induction n_layers as [|m IH]; intros k; simpl; constructor.
  - unfold runnable_link, causal_link, ConvGLU_init.
    cbn [fst snd glu_conv glu_dropout conv_in conv_out conv_ksize conv_pad lin_in lin_out].
    repeat split; try reflexivity; try exact Hw; try exact Hd.
    change (1 - 1) with 0. apply Nat.mul_0_r.
  - apply IH.
Qed.

Lemma decoder_init_links train n_layers n_units width dropout Wd bd Wp bp :
  dropout_ok train dropout = true ->
  width / 2 + 1 = 3 ->
  Forall (runnable_link train n_units)
         (combine (dec_convs (ConvGLUDecoder_init n_layers n_units width dropout Wd bd Wp bp))
                  (dec_preatts (ConvGLUDecoder_init n_layers n_units width dropout Wd bd Wp bp))).
Proof.
  intros Hd Hw. apply decoder_links_from; assumption.
Qed.

Lemma width_4_or_5 width : width / 2 + 1 = 3 <-> width = 4 \/ width = 5.
Proof.
  pose proof (Nat.div_mod_eq width 2) as E.
  pose proof (Nat.mod_upper_bound width 2) as B.
  split; intros H.
  - lia.
  - destruct H as [-> | ->]; reflexivity.
Qed.

Lemma decoder_layer_weights train rnd g p p' base_x z ze mask x :
  lin_in p = lin_in p' -> lin_out p = lin_out p' ->
  decoder_layer train rnd g p base_x z ze mask x
  = decoder_layer train rnd g p' base_x z ze mask x.
Proof.
  intros Hin Hout. unfold decoder_layer.
  destruct (ConvGLU_call train rnd g (concat_pad x)) as [h|e]; [|reflexivity].
  cbn [bind]. destruct (add3 x h) as [s|e]; [|reflexivity].
  cbn [bind]. rewrite (attention_query_weights p p') by assumption. reflexivity.
Qed.

Lemma decoder_loop_weights train rnd z ze mask (convs : nat -> ConvGLU)
    n_units Wp bp Wp' bp' n_layers :
  forall k k0 base_x x,
    decoder_loop train rnd k0
      (combine (map convs (seq k n_layers))
               (map (fun i => MkLinear n_units n_units (Wp i) (bp i)) (seq k n_layers)))
      base_x z ze mask x
    = decoder_loop train rnd k0
      (combine (map convs (seq k n_layers))
               (map (fun i => MkLinear n_units n_units (Wp' i) (bp' i)) (seq k n_layers)))
      base_x z ze mask x.
Proof.
  induction n_layers as [|m IH]; intros k k0 base_x x; simpl.
  - reflexivity.
  - rewrite (decoder_layer_weights train (rnd k0) _ _
               (MkLinear n_units n_units (Wp' k) (bp' k))) by reflexivity.
    destruct (decoder_layer train (rnd k0) _ _ base_x z ze mask x) as [x'|e];
      [|reflexivity].
    cbn [bind]. apply IH.
Qed.

(** The weights of the preatt links have no influence on what the
    decoder returns. *)
Lemma decoder_ignores_preatt n_layers n_units width dropout Wd bd Wp bp Wp' bp'
    train rnd k0 x z ze mask :
  ConvGLUDecoder_call train rnd k0
    (ConvGLUDecoder_init n_layers n_units width dropout Wd bd Wp bp) x z ze mask
  = ConvGLUDecoder_call train rnd k0
    (ConvGLUDecoder_init n_layers n_units width dropout Wd bd Wp' bp') x z ze mask.
Proof.
  unfold ConvGLUDecoder_call, ConvGLUDecoder_init. cbn [dec_convs dec_preatts].
  apply decoder_loop_weights.
Qed.

(** C5 (the code diverges from the claim): on the inputs [demo_preatt],
    [demo_base], [demo_state] the query handed to [attend] is the state
    itself, not the sum base_x + preatt, which is computed and dropped. *)
Theorem attention_query_is_the_state :
  exists query s,
    attention_query demo_preatt demo_base demo_state = Ok query /\
    (preatt <- seq_linear demo_preatt demo_state ;; add3 demo_base preatt) = Ok s /\
    to_list3 query = to_list3 demo_state /\
    to_list3 query = [[[1; 3; 5]; [2; 4; 6]]]%float /\
    to_list3 s = [[[3.5; 7.5; 11.5]; [3.5; 7.5; 11.5]]]%float.
Proof.
  eexists. eexists. split; [reflexivity|]. split; [reflexivity|].
  repeat split; vm_compute; reflexivity.
Qed.

(** ** The length of the decoder's output *)

Lemma ConvGLUDecoder_call_ok n_layers n_units width dropout Wd bd Wp bp
    train rnd k0 x z ze mask :
  dropout_ok train dropout = true ->
  width / 2 + 1 = 3 -> decoder_operands n_units x z ze mask ->
  exists y,
    ConvGLUDecoder_call train rnd k0
      (ConvGLUDecoder_init n_layers n_units width dropout Wd bd Wp bp)
      x z ze mask = Ok y /\ shape3 y = shape3 x.
Proof.
  intros Hd Hw Hop.
  destruct (decoder_loop_ok train rnd n_units _
              (decoder_init_links train n_layers n_units width dropout Wd bd Wp bp Hd Hw)
              k0 x z ze mask x Hop eq_refl) as (y & Hy).
  exists y. split; [exact Hy|]. eapply decoder_loop_shape. exact Hy.
Qed.


(** C10 (as amended): the decoder pads its state by 2 on the left
    whatever [width] is.  With at least one layer a call can only succeed
    when the kernel width [width // 2 + 1] is 3, and then the output has
    the shape of the input; conversely, with kernel width 3 the call
    succeeds on operands that fit together, when [F.dropout] accepts the
    ratio (the train flag is off, or 0 <= dropout < 1), and keeps the
    length.  With no layer the call returns its input, for every
    [width], every ratio and all operands.  The kernel width is 3
    exactly for [width] 4 or 5, and [Seq2seq] builds its decoder with
    [width] 5. *)
Theorem decoder_keeps_length n_layers n_units width dropout Wd bd Wp bp
    train rnd k0 x z ze mask :
  dim3_2 (concat_pad x) = 2 + dim3_2 x
  /\
  (forall y,
      ConvGLUDecoder_call train rnd k0
        (ConvGLUDecoder_init (S n_layers) n_units width dropout Wd bd Wp bp)
        x z ze mask = Ok y ->
      width / 2 + 1 = 3 /\ shape3 y = shape3 x)
  /\
  (dropout_ok train dropout = true ->
   width / 2 + 1 = 3 -> decoder_operands n_units x z ze mask ->
   exists y,
     ConvGLUDecoder_call train rnd k0
       (ConvGLUDecoder_init (S n_layers) n_units width dropout Wd bd Wp bp)
       x z ze mask = Ok y /\ dim3_2 y = dim3_2 x)
  /\
  ConvGLUDecoder_call train rnd k0
    (ConvGLUDecoder_init 0 n_units width dropout Wd bd Wp bp) x z ze mask = Ok x
  /\
  (width / 2 + 1 = 3 <-> width = 4 \/ width = 5)
  /\
  (forall n n_source_vocab n_target_vocab units max_length dr w,
      decoder (Seq2seq_init n n_source_vocab n_target_vocab units max_length dr w)
      = ConvGLUDecoder_init n units 5 dr (w_dec w) (b_dec w) (w_preatt w) (b_preatt w)).
Proof.
  split; [reflexivity|].
  split; [|split; [|split; [reflexivity|split; [apply width_4_or_5|reflexivity]]]].
  - intros y H. split.
    + unfold ConvGLUDecoder_call, ConvGLUDecoder_init in H.
      cbn [dec_convs dec_preatts map seq combine decoder_loop] in H.
      inv_bind H. apply decoder_layer_inv in Ha as (_ & Hk).
      unfold ConvGLU_init in Hk.
      cbn [glu_conv conv_ksize conv_pad] in Hk.
      change (1 - 1) with 0 in Hk. rewrite Nat.mul_0_r in Hk. exact Hk.
    + eapply decoder_loop_shape. exact H.
  - intros Hd Hw Hop.
    destruct (ConvGLUDecoder_call_ok (S n_layers) n_units width dropout Wd bd Wp bp
                train rnd k0 x z ze mask Hd Hw Hop) as (y & Hy & Sy).
    exists y. split; [exact Hy|]. unfold shape3 in Sy. congruence.
Qed.

(** ** Position indices beyond [max_length] *)

(** On numpy the position block is a read-only view, and the clamping
    assignment raises. *)
Lemma position_block_numpy max_length batch max_len :
  max_length < max_len ->
  position_block Numpy max_length batch max_len = Err ValueError.
Proof.
  intros H. unfold position_block. apply Nat.ltb_lt in H. rewrite H. reflexivity.
Qed.

(** On cupy the assignment goes through: position j holds
    min(j, max_length - 1). *)
Lemma position_block_cupy max_length batch max_len :
  1 <= max_length ->
  exists a,
    position_block Cupy max_length batch max_len = Ok a /\
    shape2 (nd_data a) = (batch, max_len) /\
    forall i j, j < max_len ->
      at2 (nd_data a) i j = Z.of_nat (Nat.min j (max_length - 1)).
Proof.
  intros H. unfold position_block.
  destruct (max_length <? max_len) eqn:E.
  - eexists. split; [reflexivity|]. split; [reflexivity|].
    intros i j _. simpl. destruct (max_length <=? j) eqn:Ej.
    + apply Nat.leb_le in Ej. rewrite Nat.min_r by lia. lia.
    + apply Nat.leb_gt in Ej. rewrite Nat.min_l by lia. reflexivity.
  - eexists. split; [reflexivity|]. split; [reflexivity|].
    intros i j Hj. simpl. apply Nat.ltb_ge in E. rewrite Nat.min_l by lia. reflexivity.
Qed.

(** C3 (the code diverges from the claim): on numpy, a forward pass on a
    source or a target longer than [max_length] ends in an exception,
    whatever the parameters and the ids. *)
Theorem overlong_call_raises_on_numpy m train rnd x_block y_in_block y_out_block
    get_prediction :
  max_length m < Nat.max (dim2_1 x_block) (dim2_1 y_in_block) ->
  exists e,
    Seq2seq_call m Numpy train rnd x_block y_in_block y_out_block get_prediction
    = Err e.
Proof.
  intros H. unfold Seq2seq_call, concat_pred.
  destruct (sentence_block_embed (embed_x m) x_block) as [ex|e]; [|simpl; eauto].
  destruct (sentence_block_embed (embed_y m) y_in_block) as [ey|e]; [|simpl; eauto].
  cbn [bind]. rewrite position_block_numpy by exact H. simpl. eauto.
Qed.

(** ** The loss *)

Lemma sum_counted_ext n t f g :
  (forall p, f p = g p) -> sum_counted n t f = sum_counted n t g.
Proof.
  intros H. induction n as [|n IH]; simpl; [reflexivity|].
  rewrite IH, H. reflexivity.
Qed.

(** Skipping the ignored positions while adding is adding over the
    positions that are not ignored. *)
Lemma sum_counted_non_ignored n t f :
  sum_counted n t f
  = fold_left (fun acc p => (acc + f p)%float) (non_ignored n t) zero.
Proof.
  unfold non_ignored. induction n as [|n IH]; [reflexivity|].
  rewrite seq_S, filter_app, fold_left_app, <- IH. simpl.
  unfold counted. destruct (negb (t n =? -1)%Z); reflexivity.
Qed.

Lemma to_nat_max_0 t : Z.to_nat (Z.max t 0) = Z.to_nat t.
Proof. lia. Qed.

Lemma same_up_to_zero_sign_trans a b c :
  same_up_to_zero_sign a b -> same_up_to_zero_sign b c -> same_up_to_zero_sign a c.
Proof.
  unfold same_up_to_zero_sign. intros [->|(Ha & Hb)] [->|(Hb' & Hc)]; auto.
Qed.

Lemma mul_zero_finite v : is_finite v = true -> is_zero (v * 0) = true.
Proof.
  intros H. apply is_zero_SF. rewrite mul_spec.
  change (Prim2SF 0) with (S754_zero false).
  destruct (is_finite_SF _ H) as [(s & E)|(s & m & e & E)]; rewrite E; simpl; eauto.
Qed.

(** Adding a zero changes nothing but, possibly, the sign of a zero. *)
Lemma add_zero_r a z :
  is_zero z = true -> same_up_to_zero_sign (a + z) a.
Proof.
  intros Hz. apply is_zero_SF in Hz as (sz & Ez).
  destruct (Prim2SF a) as [sa|sa| |sa ma ea] eqn:Ea.
  - right. split; apply is_zero_SF; [|eauto].
    rewrite add_spec, Ea, Ez. destruct sa, sz; simpl; eauto.
  - left. apply Prim2SF_inj. rewrite add_spec, Ea, Ez. reflexivity.
  - left. apply Prim2SF_inj. rewrite add_spec, Ea, Ez. reflexivity.
  - left. apply Prim2SF_inj. rewrite add_spec, Ea, Ez. reflexivity.
Qed.

Lemma add_same_up_to_zero_sign a a' f :
  same_up_to_zero_sign a a' -> same_up_to_zero_sign (a + f) (a' + f).
Proof.
  intros [->|(Ha & Ha')]; [left; reflexivity|].
  apply is_zero_SF in Ha as (sa & Ea). apply is_zero_SF in Ha' as (sa' & Ea').
  destruct (Prim2SF f) as [sf|sf| |sf mf ef] eqn:Ef.
  - right. split; apply is_zero_SF; rewrite add_spec, ?Ea, ?Ea', Ef.
    + destruct sa, sf; simpl; eauto.
    + destruct sa', sf; simpl; eauto.
  - left. apply Prim2SF_inj. rewrite !add_spec, Ea, Ea', Ef. reflexivity.
  - left. apply Prim2SF_inj. rewrite !add_spec, Ea, Ea', Ef. reflexivity.
  - left. apply Prim2SF_inj. rewrite !add_spec, Ea, Ea', Ef. reflexivity.
Qed.

Lemma mul_same_up_to_zero_sign a a' c :
  same_up_to_zero_sign a a' -> same_up_to_zero_sign (a * c) (a' * c).
Proof.
  intros [->|(Ha & Ha')]; [left; reflexivity|].
  apply is_zero_SF in Ha as (sa & Ea). apply is_zero_SF in Ha' as (sa' & Ea').
  destruct (Prim2SF c) as [sc|sc| |sc mc ec] eqn:Ec.
  - right. split; apply is_zero_SF; rewrite mul_spec, ?Ea, ?Ea', Ec; simpl; eauto.
  - left. apply Prim2SF_inj. rewrite !mul_spec, Ea, Ea', Ec. reflexivity.
  - left. apply Prim2SF_inj. rewrite !mul_spec, Ea, Ea', Ec. reflexivity.
  - right. split; apply is_zero_SF; rewrite mul_spec, ?Ea, ?Ea', Ec; simpl; eauto.
Qed.

(** [F.sum] forgets the sign of a zero. *)
Lemma F_sum_same_up_to_zero_sign a a' :
  same_up_to_zero_sign a a' -> F_sum a = F_sum a'.
Proof.
  intros [->|(Ha & Ha')]; [reflexivity|].
  apply is_zero_SF in Ha as (sa & Ea). apply is_zero_SF in Ha' as (sa' & Ea').
  unfold F_sum. apply Prim2SF_inj. rewrite !add_spec, Ea, Ea'.
  change (Prim2SF zero) with (S754_zero false).
  destruct sa, sa'; reflexivity.
Qed.

Lemma is_zero_zero : is_zero zero = true.
Proof. reflexivity. Qed.

(** The sum with its masked terms is the sum over the counted
    positions, up to the sign of a zero, when every masked term is a
    zero: on cupy always, on numpy when the masked log-probabilities are
    finite. *)
Lemma sum_masked_counted xp n t log_p :
  (xp = Cupy \/
   forall p, p < n -> counted (t p) = false -> is_finite (log_p p) = true) ->
  same_up_to_zero_sign
    (sum_upto n (fun p => masked_log_p xp (t p) (log_p p)))
    (sum_counted n t log_p).
Proof.
  intros H. induction n as [|n IH]; [left; reflexivity|].
  assert (IH' : same_up_to_zero_sign
                  (sum_upto n (fun p => masked_log_p xp (t p) (log_p p)))
                  (sum_counted n t log_p)).
  { apply IH. destruct H as [H|H]; [left; exact H|right]. intros p Hp. apply H. lia. }
  cbn [sum_upto sum_counted]. destruct (counted (t n)) eqn:Ec.
  - replace (masked_log_p xp (t n) (log_p n)) with (log_p n)
      by (unfold masked_log_p; rewrite Ec; destruct xp; reflexivity).
    apply add_same_up_to_zero_sign, IH'.
  - eapply same_up_to_zero_sign_trans; [|exact IH'].
    apply add_zero_r. unfold masked_log_p. rewrite Ec.
    destruct xp.
    + destruct H as [H|H]; [discriminate|].
      apply mul_zero_finite, H; [lia|exact Ec].
    + reflexivity.
Qed.

Lemma counted_false t : counted t = false <-> t = (-1)%Z.
Proof.
  unfold counted. rewrite negb_false_iff. apply Z.eqb_eq.
Qed.

(** What [F.softmax_cross_entropy] returns is, once [F.sum] has been
    applied to it, the mean cross-entropy over the targets that are not
    ignored: on cupy, and on numpy when the log-probability of class 0
    is finite wherever the target is ignored. *)
Lemma F_softmax_cross_entropy_inv xp x n t loss :
  F_softmax_cross_entropy xp x n t = Ok loss ->
  dim2_0 x = n /\
  (xp = Cupy \/ finite_where_ignored x n t ->
   F_sum loss = F_sum (mean_cross_entropy x n t)).
Proof.
  unfold F_softmax_cross_entropy. intros H.
  inv_guard H. inv_guard H. inv_guard H. inv_ok H.
  apply Nat.eqb_eq in Hg. split; [exact Hg|].
  intros Hf. apply F_sum_same_up_to_zero_sign.
  unfold softmax_cross_entropy_forward, mean_cross_entropy.
  rewrite <- sum_counted_non_ignored.
  rewrite (sum_counted_ext n t
             (fun p => log_softmax_row (dim2_1 x) (at2 x p) (Z.to_nat (t p)))
             (fun p => log_softmax_row (dim2_1 x) (at2 x p) (Z.to_nat (Z.max (t p) 0))))
    by (intros p; rewrite to_nat_max_0; reflexivity).
  apply mul_same_up_to_zero_sign.
  apply sum_masked_counted.
  destruct Hf as [Hf|Hf]; [left; exact Hf|right].
  intros p Hp Hc. apply counted_false in Hc. rewrite Hc. apply Hf; assumption.
Qed.

(** The rows of the logits at ignored positions do not enter the loss. *)
Lemma mean_cross_entropy_ignores x x' n t :
  dim2_1 x = dim2_1 x' ->
  (forall p v, In p (non_ignored n t) -> at2 x p v = at2 x' p v) ->
  mean_cross_entropy x n t = mean_cross_entropy x' n t.
Proof.
  intros Hd H. unfold mean_cross_entropy. f_equal.
  rewrite Hd.
  revert H. generalize (non_ignored n t) as ps. generalize zero as acc.
  intros acc ps. revert acc.
  induction ps as [|p ps IH]; intros acc H; simpl; [reflexivity|].
  rewrite IH by (intros; apply H; right; assumption).
  f_equal. f_equal. unfold log_softmax_row.
  rewrite (max_upto_ext (dim2_1 x' - 1) (at2 x p) (at2 x' p))
    by (intros; apply H; left; reflexivity).
  rewrite (sum_upto_ext (dim2_1 x') _
             (fun v' => xp_exp (at2 x' p v' - max_upto (dim2_1 x' - 1) (at2 x' p))%float))
    by (intros; rewrite H by (left; reflexivity); reflexivity).
  rewrite H by (left; reflexivity). reflexivity.
Qed.


(** ** Greedy decoding *)

(** Both sides run the same computation first. *)
Ltac same_bind :=
  match goal with
  | |- bind ?c _ = bind ?c _ => destruct c; cbn [bind]; [|reflexivity]
  end.

Lemma ConvGLUEncoder_call_test_mode rnd rnd' layers :
  forall k0 x,
    ConvGLUEncoder_call false rnd k0 layers x
    = ConvGLUEncoder_call false rnd' k0 layers x.
Proof.
  induction layers as [|g rest IH]; intros k0 x; simpl; [reflexivity|].
  change (ConvGLU_call false (rnd k0) g x) with (ConvGLU_call false (rnd' k0) g x).
  same_bind. same_bind. apply IH.
Qed.

Lemma decoder_loop_test_mode rnd rnd' links :
  forall k0 base_x z ze mask x,
    decoder_loop false rnd k0 links base_x z ze mask x
    = decoder_loop false rnd' k0 links base_x z ze mask x.
Proof.
  induction links as [|[g p] rest IH]; intros k0 base_x z ze mask x; simpl;
    [reflexivity|].
  change (decoder_layer false (rnd k0) g p base_x z ze mask x)
    with (decoder_layer false (rnd' k0) g p base_x z ze mask x).
  same_bind. apply IH.
Qed.

(** Outside train mode the logits do not depend on the dropout samples. *)
Lemma concat_pred_test_mode m xp rnd rnd' x_block y_in_block :
  concat_pred m xp false rnd x_block y_in_block
  = concat_pred m xp false rnd' x_block y_in_block.
Proof.
  unfold concat_pred.
  do 7 same_bind.
  rewrite (ConvGLUEncoder_call_test_mode rnd rnd').
  do 4 same_bind.
  unfold ConvGLUDecoder_call. rewrite (decoder_loop_test_mode rnd rnd').
  same_bind. reflexivity.
Qed.

Lemma Seq2seq_call_test_mode m xp rnd rnd' x_block y_in_block y_out_block gp :
  Seq2seq_call m xp false rnd x_block y_in_block y_out_block gp
  = Seq2seq_call m xp false rnd' x_block y_in_block y_out_block gp.
Proof.
  unfold Seq2seq_call. rewrite (concat_pred_test_mode m xp rnd rnd'). reflexivity.
Qed.

Lemma greedy_loop_test_mode m xp rnd rnd' x_block steps :
  forall i y_block eos_flags results,
    greedy_loop m xp false rnd x_block steps i y_block eos_flags results
    = greedy_loop m xp false rnd' x_block steps i y_block eos_flags results.
Proof.
  induction steps as [|steps IH]; intros i y_block eos_flags results; simpl;
    [reflexivity|].
  rewrite (Seq2seq_call_test_mode m xp (rnd i) (rnd' i)).
  same_bind. destruct a as [log_prob_block|loss reported]; [|reflexivity].
  do 3 same_bind.
  destruct (forallb _ _); [reflexivity|]. apply IH.
Qed.

(** C4 (as amended): when [chainer.config.train] is off, [translate] is
    a function of the parameters, the source block and [max_length]
    alone: two calls return the same sequences (or raise the same
    exception) whatever the random source holds. *)
Theorem translate_deterministic_in_test_mode m xp rnd rnd' x_block max_length :
  translate m xp false rnd x_block max_length
  = translate m xp false rnd' x_block max_length.
Proof.
  unfold translate. same_bind.
  rewrite (greedy_loop_test_mode m xp rnd rnd'). reflexivity.
Qed.

(** Removing the end-of-sequence tags: slicing at the first position
    found by [argwhere] is cutting before the first 0. *)
Lemma argwhere_zero_spec y :
  forall i,
    match argwhere_zero i y with
    | [] => before_eos y = y
    | i0 :: _ => i <= i0 /\ firstn (i0 - i) y = before_eos y
    end.
Proof.
  induction y as [|t rest IH]; intros i; simpl; [reflexivity|].
  destruct (t =? 0)%Z.
  - split; [lia|]. rewrite Nat.sub_diag. reflexivity.
  - specialize (IH (S i)). destruct (argwhere_zero (S i) rest) as [|i0 inds].
    + rewrite IH. reflexivity.
    + destruct IH as [Hle IH]. split; [lia|].
      replace (i0 - i) with (S (i0 - S i)) by lia. simpl. rewrite IH. reflexivity.
Qed.

Lemma remove_eos_spec y :
  remove_eos y = match before_eos y with [] => [1%Z] | y' => y' end.
Proof.
  unfold remove_eos. pose proof (argwhere_zero_spec y 0) as H.
  destruct (argwhere_zero 0 y) as [|i0 inds].
  - rewrite H. destruct y; reflexivity.
  - destruct H as [_ H]. rewrite Nat.sub_0_r in H. rewrite H.
    destruct (before_eos y); reflexivity.
Qed.

Lemma before_eos_no_eos y : ~ In 0%Z (before_eos y).
Proof.
  induction y as [|t rest IH]; simpl; [tauto|].
  destruct (t =? 0)%Z eqn:E; simpl; [tauto|].
  apply Z.eqb_neq in E. intros [H|H]; [congruence|tauto].
Qed.

Lemma remove_eos_nonempty y :
  1 <= List.length (remove_eos y) /\ ~ In 0%Z (remove_eos y).
Proof.
  rewrite remove_eos_spec. pose proof (before_eos_no_eos y) as H.
  destruct (before_eos y) as [|t rest]; simpl.
  - split; [lia|]. intros [E|[]]. discriminate.
  - split; [lia|exact H].
Qed.

(** C6: when [translate] returns, the decoding loop has returned the
    ids it chose, step by step, for at least one step, and the
    sequences returned are, in the order of the batch, the rows decoded
    for the sequences of the batch, each cut before its first
    end-of-sequence id 0 and replaced by the single id 1 when nothing
    is left; every one of them has at least one id and holds no 0. *)
Theorem translate_outputs_nonempty m xp train rnd x_block max_length outs :
  translate m xp train rnd x_block max_length = Ok outs ->
  exists x results,
    source_block x_block = Ok x /\
    greedy_loop m xp train rnd x max_length 0
      (Arr2 (dim2_0 x) 1 (fun _ _ => 0%Z)) (repeat 0 (dim2_0 x)) [] = Ok results /\
    results <> [] /\
    outs = map cut_or_placeholder (decoded_rows (dim2_0 x) results) /\
    Forall (fun y => 1 <= List.length y /\ ~ In 0%Z y) outs.
Proof.
  unfold translate. intros H.
  apply bind_inv in H as (x & Hx & H). apply bind_inv in H as (results & Hr & H).
  inv_guard H. inv_ok H.
  exists x, results. split; [exact Hx|]. split; [exact Hr|]. split.
  - intros E. rewrite E in Hg. discriminate.
  - split.
    + apply map_ext. intros y. apply remove_eos_spec.
    + apply Forall_forall. intros y Hy. apply in_map_iff in Hy as (row & <- & _).
      apply remove_eos_nonempty.
Qed.

(** ** Causality of the decoder stack in its hidden-state input *)

Lemma softmax_row_ext n row row' s :
  0 < n -> (forall s', s' < n -> row s' = row' s') -> s < n ->
  softmax_row n row s = softmax_row n row' s.
Proof.
  intros Hn H Hs. unfold softmax_row.
  rewrite (max_upto_ext (n - 1) row row') by (intros; apply H; lia).
  rewrite (sum_upto_ext n _ (fun s' => xp_exp (row' s' - max_upto (n - 1) row')%float))
    by (intros s' Hs'; rewrite H by exact Hs'; reflexivity).
  rewrite H by exact Hs. reflexivity.
Qed.

Lemma count_upto_ext n p q :
  (forall s, s < n -> p s = q s) -> count_upto n p = count_upto n q.
Proof.
  intros H. unfold count_upto. f_equal. apply filter_ext_in.
  intros s Hs. apply in_seq in Hs. apply H. lia.
Qed.

Lemma attention_weights_at query key mask a :
  attention_weights query key mask = Ok a ->
  forall i t s,
    at3 a i t s =
    (let r := softmax_row (dim3_2 key)
                (fun s' => if at3 mask i t s'
                           then sum_upto (dim3_1 query)
                                  (fun u => (at3 query i u t * at3 key i u s')%float)
                           else neg_infinity) s in
     if is_nan r then zero else r).
Proof.
  unfold attention_weights. intros H.
  inv_guard H. inv_guard H. inv_guard H. inv_ok H. reflexivity.
Qed.

Lemma attend_at query key value mask c :
  attend query key value mask = Ok c ->
  exists a,
    attention_weights query key mask = Ok a /\
    bcast_ok (dim3_0 a) (dim4_0 value) = true /\
    bcast_ok (dim3_1 a) (dim4_2 value) = true /\
    bcast_ok (dim3_2 a) (dim4_3 value) = true /\
    forall i u t,
      at3 c i u t =
      sum_upto (dim4_3 value) (fun s =>
        (at3 a (bidx (dim3_0 a) i) (bidx (dim3_1 a) t) (bidx (dim3_2 a) s)
         * at4 value i u t s)%float).
Proof.
  unfold attend. intros H. inv_bind H. inv_guard H. inv_ok H.
  apply andb_prop in Hg as [Hg B2]. apply andb_prop in Hg as [B0 B1].
  exists a. auto.
Qed.

(** The weights of the rows before [n] depend on the queries and on the
    mask rows before [n] only. *)
Lemma attention_weights_causal n query query' key mask mask' a a' :
  attention_weights query key mask = Ok a ->
  attention_weights query' key mask' = Ok a' ->
  agree_before n query query' ->
  mask_agree_before n mask mask' ->
  forall i t s, i < dim3_0 a -> t < n -> s < dim3_2 a ->
    at3 a i t s = at3 a' i t s.
Proof.
  intros H H' (Q0 & Q1 & QL & QL' & Q) (M0 & M2 & M) i t s Hi Ht Hs.
  rewrite (attention_weights_at _ _ _ _ H), (attention_weights_at _ _ _ _ H').
  apply attention_weights_inv in H as (Hsh & A0 & _ & A2 & K0 & K1 & Kpos).
  unfold shape3 in Hsh. injection Hsh as S0 S1 S2.
  cbv zeta. rewrite <- Q1.
  rewrite (softmax_row_ext (dim3_2 key) _
             (fun s' => if at3 mask' i t s'
                        then sum_upto (dim3_1 query)
                               (fun u => (at3 query' i u t * at3 key i u s')%float)
                        else neg_infinity)); [reflexivity|exact Kpos| |lia].
  intros s' Hs'. rewrite <- (M i t s') by lia.
  destruct (at3 mask i t s'); [|reflexivity].
  apply sum_upto_ext. intros u Hu. rewrite Q by lia. reflexivity.
Qed.

Lemma attend_causal n query query' key value value' mask mask' c c' :
  attend query key value mask = Ok c ->
  attend query' key value' mask' = Ok c' ->
  agree_before n query query' ->
  mask_agree_before n mask mask' ->
  value_agree_before n value value' ->
  forall i u t, i < dim4_0 value -> u < dim4_1 value -> t < n ->
    at3 c i u t = at3 c' i u t.
Proof.
  intros H H' Hq Hm (V0 & V1 & V3 & V) i u t I0 Hu Ht.
  apply attend_at in H as (a & Ha & B0 & B1 & B2 & Hc).
  apply attend_at in H' as (a' & Ha' & B0' & B1' & B2' & Hc').
  rewrite Hc, Hc', <- V3.
  pose proof (attention_weights_causal n _ _ _ _ _ _ _ Ha Ha' Hq Hm) as Hw.
  destruct Hq as (Q0 & Q1 & QL & QL' & _). destruct Hm as (M0 & M2 & _).
  apply attention_weights_inv in Ha as (Hsh & A0 & A1 & A2 & _).
  apply attention_weights_inv in Ha' as (Hsh' & A0' & A1' & A2' & _).
  unfold shape3 in Hsh, Hsh'. injection Hsh as S0 S1 S2. injection Hsh' as S0' S1' S2'.
  assert (D0 : dim3_0 a' = dim3_0 a) by congruence.
  assert (D2 : dim3_2 a' = dim3_2 a) by congruence.
  apply sum_upto_ext. intros s Hs.
  rewrite D0, D2.
  rewrite (bidx_id (dim3_1 a) t), (bidx_id (dim3_1 a') t) by lia.
  rewrite Hw; [| eapply bidx_lt; eauto | exact Ht | eapply bidx_lt; eauto].
  rewrite V by assumption. reflexivity.
Qed.

Lemma ConvGLU_call_at train rnd g x y :
  ConvGLU_call train rnd g x = Ok y ->
  forall i j l,
    at3 y i j l =
    (conv_at (glu_conv g) (dropped train rnd (glu_dropout g) x) i j l
     * F_sigmoid (conv_at (glu_conv g) (dropped train rnd (glu_dropout g) x)
                           i (conv_out (glu_conv g) / 2 + j) l))%float.
Proof.
  unfold ConvGLU_call, Convolution2D_call, glu. intros H.
  apply bind_inv in H as (x1 & Hd & H). apply F_dropout_inv in Hd as (_ & ->).
  inv_bind H. inv_guard Ha. inv_guard Ha. inv_ok Ha. inv_guard H. inv_ok H.
  reflexivity.
Qed.

Lemma mul_att_scale_at c mask c' :
  mul_att_scale c (att_scale mask) = Ok c' ->
  forall i u t,
    at3 c' i u t =
    (at3 c i u t
     * sqrt (of_nat (count_upto (dim3_2 mask)
                       (at3 mask (bidx (dim3_0 mask) i) (bidx (dim3_1 mask) t)))))%float.
Proof.
  unfold mul_att_scale. intros H. inv_guard H. inv_ok H. reflexivity.
Qed.

(** What the convolution reads of the padded state at the positions
    before [n + 2]. *)
Lemma dropped_pad_agree train rnd ratio n x x' i c l :
  agree_before n x x' -> i < dim3_0 x -> c < dim3_1 x -> l < 2 + n ->
  at3 (dropped train rnd ratio (concat_pad x)) i c l
  = at3 (dropped train rnd ratio (concat_pad x')) i c l.
Proof.
  intros (_ & _ & _ & _ & H) Hi Hc Hl.
  assert (E : at3 (concat_pad x) i c l = at3 (concat_pad x') i c l).
  { simpl. destruct (l <? 2) eqn:E2; [reflexivity|].
    apply Nat.ltb_ge in E2. apply H; lia. }
  destruct train; simpl in *; rewrite E; reflexivity.
Qed.

Lemma conv_at_causal train rnd ratio n cv x x' i o t :
  conv_pad cv = 0 -> conv_ksize cv = 3 -> conv_in cv = dim3_1 x ->
  agree_before n x x' -> i < dim3_0 x -> t < n ->
  conv_at cv (dropped train rnd ratio (concat_pad x)) i o t
  = conv_at cv (dropped train rnd ratio (concat_pad x')) i o t.
Proof.
  intros Hp Hk Hin Hx Hi Ht. unfold conv_at. f_equal.
  apply sum_upto_ext. intros c Hc. apply sum_upto_ext. intros k Hkk. f_equal.
  unfold padded. rewrite Hp.
  pose proof (dropped_shape train rnd ratio (concat_pad x)) as S.
  pose proof (dropped_shape train rnd ratio (concat_pad x')) as S'.
  unfold shape3 in S, S'. injection S as _ _ S2. injection S' as _ _ S2'.
  rewrite S2, S2'. cbn [concat_pad dim3_2].
  pose proof Hx as (X0 & X1 & XL & XL' & _).
  repeat match goal with
         | |- context [?a <=? ?b] => destruct (Nat.leb_spec a b); [lia|]
         | |- context [?a <? ?b] => destruct (Nat.ltb_spec a b); [lia|]
         end.
  cbn [orb]. rewrite Nat.sub_0_r.
  apply (dropped_pad_agree train rnd ratio n x x'); [assumption|lia|lia|lia].
Qed.

(** One layer of the decoder: what it returns at the positions before
    [n] depends on the state, the mask rows and the values at the
    positions before [n] only. *)
Lemma decoder_layer_causal n train rnd g p base_x base_x' z ze ze' mask mask' x x' y y' :
  conv_pad (glu_conv g) = 0 ->
  decoder_layer train rnd g p base_x z ze mask x = Ok y ->
  decoder_layer train rnd g p base_x' z ze' mask' x' = Ok y' ->
  agree_before n x x' ->
  mask_agree_before n mask mask' ->
  value_agree_before n ze ze' ->
  agree_before n y y'.
Proof.
  intros Hp H H' Hx Hm Hv.
  pose proof (decoder_layer_inv _ _ _ _ _ _ _ _ _ _ H) as (Sy & Hk).
  pose proof (decoder_layer_inv _ _ _ _ _ _ _ _ _ _ H') as (Sy' & _).
  rewrite Hp in Hk. cbn in Hk.
  unfold shape3 in Sy, Sy'. injection Sy as Y0 Y1 Y2. injection Sy' as Y0' Y1' Y2'.
  pose proof Hx as (X0 & X1 & XL & XL' & Hxx).
  split; [congruence|]. split; [congruence|]. split; [lia|]. split; [lia|].
  intros i u t Hi Hu Ht. rewrite Y0 in Hi. rewrite Y1 in Hu.
  unfold decoder_layer in H, H'.
  apply bind_inv in H as (h & Hh & H). apply bind_inv in H' as (h' & Hh' & H').
  apply bind_inv in H as (s & Hs & H). apply bind_inv in H' as (s' & Hs' & H').
  apply bind_inv in H as (q & Hq & H). apply bind_inv in H' as (q' & Hq' & H').
  apply bind_inv in H as (c & Hc & H). apply bind_inv in H' as (c' & Hc' & H').
  apply bind_inv in H as (c2 & Hc2 & H). apply bind_inv in H' as (c2' & Hc2' & H').
  apply attention_query_eq in Hq, Hq'. subst q q'.
  (* the convolution on the padded state *)
  pose proof (ConvGLU_call_inv _ _ _ _ _ Hh) as (Hin & _).
  cbn [concat_pad dim3_1] in Hin.
  assert (Eh : forall j, at3 h i j t = at3 h' i j t).
  { intros j. rewrite (ConvGLU_call_at _ _ _ _ _ Hh), (ConvGLU_call_at _ _ _ _ _ Hh').
    rewrite !(conv_at_causal train rnd (glu_dropout g) n (glu_conv g) x x')
      by (try assumption; congruence).
    reflexivity. }
  (* the residual sum and its scaling *)
  apply add3_inv in Hs as (_ & Ss & As). apply add3_inv in Hs' as (_ & Ss' & As').
  unfold shape3 in Ss, Ss'. injection Ss as S0 S1 S2. injection Ss' as S0' S1' S2'.
  assert (Hx1 : agree_before n (mul_scalar3 s scale) (mul_scalar3 s' scale)).
  { unfold agree_before. cbn [mul_scalar3 dim3_0 dim3_1 dim3_2 at3].
    split; [congruence|]. split; [congruence|]. split; [lia|]. split; [lia|].
    intros i1 u1 t1 Hi1 Hu1 Ht1.
    rewrite As, As'. rewrite Hxx by congruence.
    assert (Eh1 : at3 h i1 u1 t1 = at3 h' i1 u1 t1).
    { rewrite (ConvGLU_call_at _ _ _ _ _ Hh), (ConvGLU_call_at _ _ _ _ _ Hh').
      rewrite !(conv_at_causal train rnd (glu_dropout g) n (glu_conv g) x x')
        by (try assumption; congruence).
      reflexivity. }
    rewrite Eh1. reflexivity. }
  (* the attention *)
  pose proof (attend_causal n _ _ _ _ _ _ _ _ _ Hc Hc' Hx1 Hm Hv) as Ec.
  pose proof (attend_inv _ _ _ _ _ Hc) as Sc.
  pose proof (attend_at _ _ _ _ _ Hc) as (a & Ha & _).
  pose proof (attend_at _ _ _ _ _ Hc') as (a' & Ha' & _).
  apply attention_weights_inv in Ha as (_ & A0 & A1 & _).
  apply attention_weights_inv in Ha' as (_ & A0' & A1' & _).
  cbn [mul_scalar3 dim3_0 dim3_2] in A0, A1, A0', A1'.
  pose proof (mul_att_scale_inv _ _ _ Hc2) as Sc2.
  pose proof (mul_att_scale_at _ _ _ Hc2) as Ac2.
  pose proof (mul_att_scale_at _ _ _ Hc2') as Ac2'.
  apply add3_inv in H as (Sx & _ & Ay). apply add3_inv in H' as (_ & _ & Ay').
  rewrite Sc2, Sc in Sx. unfold shape3 in Sx. cbn [mul_scalar3 dim3_0 dim3_1 dim3_2] in Sx.
  injection Sx as V0 V1 V2.
  rewrite Ay, Ay', Ac2, Ac2'.
  cbn [mul_scalar3 at3]. rewrite As, As', Eh, Hxx by assumption.
  rewrite Ec by lia.
  destruct Hm as (M0 & M2 & Hmm).
  rewrite !bidx_id by lia.
  rewrite <- M2.
  rewrite (count_upto_ext (dim3_2 mask) (at3 mask i t) (at3 mask' i t))
    by (intros s0 Hs0; apply Hmm; lia).
  reflexivity.
Qed.

Lemma decoder_loop_causal n train rnd links :
  Forall (fun gp : ConvGLU * Linear => conv_pad (glu_conv (fst gp)) = 0) links ->
  forall k0 base_x base_x' z ze ze' mask mask' x x' y y',
    decoder_loop train rnd k0 links base_x z ze mask x = Ok y ->
    decoder_loop train rnd k0 links base_x' z ze' mask' x' = Ok y' ->
    agree_before n x x' ->
    mask_agree_before n mask mask' ->
    value_agree_before n ze ze' ->
    agree_before n y y'.
Proof.
  induction 1 as [|[g p] rest Hg _ IH];
    intros k0 base_x base_x' z ze ze' mask mask' x x' y y' H H' Hx Hm Hv; simpl in H, H'.
  - inv_ok H. inv_ok H'. exact Hx.
  - apply bind_inv in H as (x1 & H1 & H). apply bind_inv in H' as (x1' & H1' & H').
    eapply IH; [exact H | exact H' | | exact Hm | exact Hv].
    eapply (decoder_layer_causal n); [exact Hg | exact H1 | exact H1' | | |]; assumption.
Qed.

Lemma decoder_init_no_padding n_layers n_units width dropout Wd bd Wp bp :
  Forall (fun gp : ConvGLU * Linear => conv_pad (glu_conv (fst gp)) = 0)
         (combine (dec_convs (ConvGLUDecoder_init n_layers n_units width dropout Wd bd Wp bp))
                  (dec_preatts (ConvGLUDecoder_init n_layers n_units width dropout Wd bd Wp bp))).
Proof.
  unfold ConvGLUDecoder_init. cbn [dec_convs dec_preatts].
  generalize (seq 0 n_layers) as l.
  induction l as [|k l IH]; simpl; constructor; [|exact IH].
  unfold ConvGLU_init. cbn [fst glu_conv conv_pad].
  change (1 - 1) with 0. apply Nat.mul_0_r.
Qed.

(** The decoder stack is causal in its hidden-state input: when two
    calls succeed on the same encoder output, with the same random
    source, and their states, mask rows and values agree at the
    positions before [n], their outputs agree at the positions before
    [n], whatever follows these positions (the sequences may even have
    different lengths). *)
Theorem ConvGLUDecoder_causal n_layers n_units width dropout Wd bd Wp bp
    train rnd k0 n x x' z ze ze' mask mask' y y' :
  ConvGLUDecoder_call train rnd k0
    (ConvGLUDecoder_init n_layers n_units width dropout Wd bd Wp bp)
    x z ze mask = Ok y ->
  ConvGLUDecoder_call train rnd k0
    (ConvGLUDecoder_init n_layers n_units width dropout Wd bd Wp bp)
    x' z ze' mask' = Ok y' ->
  agree_before n x x' ->
  mask_agree_before n mask mask' ->
  value_agree_before n ze ze' ->
  forall i u t, i < dim3_0 y -> u < dim3_1 y -> t < n ->
    at3 y i u t = at3 y' i u t.
Proof.
  intros H H' Hx Hm Hv.
  unfold ConvGLUDecoder_call in H, H'.
  pose proof (decoder_loop_causal n train rnd _
                (decoder_init_no_padding n_layers n_units width dropout Wd bd Wp bp)
                _ _ _ _ _ _ _ _ _ _ _ _ H H' Hx Hm Hv) as (_ & _ & _ & _ & E).
  exact E.
Qed.

(** ** The embedding of a block *)

(** [sentence_block_embed] reads the (batch * length, units) result of
    the lookup as (batch, units, length) without transposing it: the
    element (i, u, l) is component [f mod units] of the embedding of the
    id at offset [f / units] of the block, for
    f = (i * units + u) * length + l. *)
Lemma sentence_block_embed_at embed x e :
  sentence_block_embed embed x = Ok e ->
  shape3 e = (dim2_0 x, emb_out embed, dim2_1 x) /\
  forall i u l,
    at3 e i u l =
    embed_at embed (flat2 x (((i * emb_out embed + u) * dim2_1 x + l) / emb_out embed))
             (((i * emb_out embed + u) * dim2_1 x + l) mod emb_out embed).
Proof.
  unfold sentence_block_embed, EmbedID_call. intros H.
  inv_bind H. inv_guard Ha. inv_ok Ha. inv_ok H.
  split; reflexivity.
Qed.

(** ** Row-major offsets *)

Lemma offset_div_mod a b c : c < b -> (a * b + c) / b = a /\ (a * b + c) mod b = c.
Proof.
  intros H. split.
  - symmetry. apply Nat.div_unique with c; lia.
  - symmetry. apply Nat.mod_unique with a; lia.
Qed.

Lemma offset_div a b c : c < b -> (a * b + c) / b = a.
Proof. intros H. apply offset_div_mod, H. Qed.

Lemma offset_mod a b c : c < b -> (a * b + c) mod b = c.
Proof. intros H. apply offset_div_mod, H. Qed.

Lemma forall_upto_true n p :
  (forall i, i < n -> p i = true) -> forall_upto n p = true.
Proof.
  intros H. unfold forall_upto. apply forallb_forall.
  intros i Hi. apply in_seq in Hi. apply H. lia.
Qed.

Lemma forall_upto_inv n p :
  forall_upto n p = true -> forall i, i < n -> p i = true.
Proof.
  unfold forall_upto. intros H i Hi.
  rewrite forallb_forall in H. apply H. apply in_seq. lia.
Qed.

(** ** [seq_linear] applies its link position by position *)

(** When [seq_linear] returns, its result has the shape of its input
    and, at every batch row and position, holds the link applied to the
    vector of the units at that row and position: the transpositions and
    reshapes around the link undo each other. *)
Theorem seq_linear_positionwise linear x r :
  seq_linear linear x = Ok r ->
  shape3 r = shape3 x /\
  lin_in linear = dim3_1 x /\
  forall i o l, i < dim3_0 x -> o < dim3_1 x -> l < dim3_2 x ->
    lin_out linear = dim3_1 x /\
    at3 r i o l =
    (sum_upto (dim3_1 x) (fun c => at3 x i c l * lin_W linear o c)
     + lin_b linear o)%float.
Proof.
  intros H. split; [eapply seq_linear_inv; exact H|].
  unfold seq_linear in H. inv_bind H. inv_guard H. inv_ok H.
  pose proof (Linear_call_inv _ _ _ Ha) as (Hin & H0 & H1).
  cbn [dim2_0 dim2_1] in Hin, H0. split; [congruence|].
  intros i o l Hi Ho Hl.
  apply Nat.eqb_eq in Hg. rewrite H0, H1 in Hg.
  assert (Hout : lin_out linear = dim3_1 x) by nia.
  split; [exact Hout|].
  cbn [at3 reshape3]. unfold flat2. rewrite H1, Hout.
  rewrite offset_div, offset_mod by exact Ho.
  unfold Linear_call in Ha. inv_guard Ha. inv_ok Ha. cbn [at2].
  rewrite offset_div, offset_mod by exact Hl.
  rewrite <- Hin. reflexivity.
Qed.

(** ** [sentence_block_embed] on blocks of length 1 and on models of one unit *)

(** For a block of length 1, or an embedding of 1 unit, the embedded
    block holds at (i, u, l) component u of the embedding of the id at
    (i, l): only then is the reshape a transposition. *)
Theorem sentence_block_embed_positionwise embed x e :
  sentence_block_embed embed x = Ok e ->
  dim2_1 x = 1 \/ emb_out embed = 1 ->
  forall i u l, i < dim2_0 x -> u < emb_out embed -> l < dim2_1 x ->
    at3 e i u l = embed_at embed (at2 x i l) u.
Proof.
  intros H Hd i u l Hi Hu Hl.
  apply sentence_block_embed_at in H as (_ & H). rewrite H. unfold flat2.
  destruct Hd as [E|E]; rewrite E in *.
  - assert (l = 0) by lia. subst l.
    rewrite Nat.mul_1_r, Nat.add_0_r.
    rewrite offset_div, offset_mod by exact Hu.
    rewrite Nat.div_1_r, Nat.mod_1_r. reflexivity.
  - assert (u = 0) by lia. subst u.
    rewrite Nat.mul_1_r, Nat.add_0_r, Nat.div_1_r, Nat.mod_1_r.
    rewrite offset_div, offset_mod by exact Hl. reflexivity.
Qed.

(** ** Edge cases of [translate] *)

(** With [max_length] 0 the loop never runs and [xp.stack] gets an empty
    list; an empty list of sources has nothing to concatenate: both
    raise [ValueError]. *)
Theorem translate_raises_on_nothing m xp train rnd :
  (forall x_block, translate m xp train rnd (SourceBlock x_block) 0 = Err ValueError)
  /\ (forall xs, xs <> [] -> translate m xp train rnd (SourceList xs) 0 = Err ValueError)
  /\ (forall max_length, translate m xp train rnd (SourceList []) max_length = Err ValueError).
Proof.
  split; [reflexivity|]. split; [|reflexivity].
  intros [|x xs] H; [congruence|reflexivity].
Qed.

(** Removing the end-of-sequence tags twice is removing them once, and
    a non-empty sequence without a 0 is returned as it is. *)
Theorem remove_eos_idempotent y :
  remove_eos (remove_eos y) = remove_eos y /\
  (y <> [] -> ~ In 0%Z y -> remove_eos y = y).
Proof.
  assert (F : forall z, ~ In 0%Z z -> before_eos z = z).
  { induction z as [|t z IH]; simpl; intros H; [reflexivity|].
    destruct (t =? 0)%Z eqn:E.
    - apply Z.eqb_eq in E. tauto.
    - rewrite IH by tauto. reflexivity. }
  assert (G : forall z, z <> [] -> ~ In 0%Z z -> remove_eos z = z).
  { intros z Hz Hn. rewrite remove_eos_spec, F by exact Hn.
    destruct z; [congruence|reflexivity]. }
  split; [|apply G].
  pose proof (remove_eos_nonempty y) as (Hl & Hn).
  apply G; [|exact Hn]. intros E. rewrite E in Hl. simpl in Hl. lia.
Qed.

(** ** When the encoder stack runs *)

(** The layers of an encoder whose kernels cover their own padding on
    both sides, for [n] units, and whose dropout ratio [F.dropout]
    accepts. *)
Definition centred_layer (train : bool) (n : nat) (g : ConvGLU) : Prop :=
  conv_in (glu_conv g) = n /\ conv_out (glu_conv g) = 2 * n /\
  conv_ksize (glu_conv g) = 2 * conv_pad (glu_conv g) + 1 /\
  dropout_ok train (glu_dropout g) = true.

Lemma ConvGLUEncoder_call_ok train rnd n layers :
  Forall (centred_layer train n) layers ->
  forall k0 x,
    dim3_1 x = n -> 1 <= dim3_2 x ->
    exists y, ConvGLUEncoder_call train rnd k0 layers x = Ok y /\ shape3 y = shape3 x.
Proof.
  induction 1 as [|g rest (Gin & Gout & Gk & Gd) _ IH]; intros k0 x Hu HL; simpl.
  - eauto.
  - destruct (ConvGLU_call_ok train (rnd k0) g x) as (h & Hh);
      [exact Gd | congruence | lia | rewrite Gout; apply even_double |].
    rewrite Hh. cbn [bind].
    apply ConvGLU_call_inv in Hh as (_ & _ & H0 & H1 & H2).
    rewrite Gout, half_double in H1.
    destruct (add3_same_shape x h) as (s & Hs).
    { unfold shape3. f_equal; [f_equal|]; lia. }
    rewrite Hs. cbn [bind].
    apply add3_inv in Hs as (_ & Hs & _).
    unfold shape3 in Hs. injection Hs as S0 S1 S2.
    destruct (IH (S k0) (mul_scalar3 s scale)) as (y & Hy & Sy);
      [cbn [mul_scalar3 dim3_1]; congruence | cbn [mul_scalar3 dim3_2]; lia |].
    exists y. split; [exact Hy|]. rewrite Sy. unfold shape3. simpl. congruence.
Qed.

Lemma encoder_init_centred train n_layers n_units width dropout We be :
  dropout_ok train dropout = true ->
  Nat.odd width = true ->
  Forall (centred_layer train n_units)
         (ConvGLUEncoder_init n_layers n_units width dropout We be).
Proof.
  intros Hd Hodd. unfold ConvGLUEncoder_init.
  generalize (seq 0 n_layers) as l.
  induction l as [|k l IH]; simpl; constructor; [|exact IH].
  unfold centred_layer, ConvGLU_init.
  cbn [glu_conv glu_dropout conv_in conv_out conv_ksize conv_pad].
  repeat split; [|exact Hd]. apply odd_half in Hodd. change (1 - 0) with 1. lia.
Qed.

(** An encoder built with an odd [width] and a ratio that [F.dropout]
    accepts (the train flag is off, or 0 <= dropout < 1) runs on every
    non-empty state with [n_units] channels, for every number of
    layers, and returns a state of the same shape. *)
Theorem ConvGLUEncoder_odd_width_runs n_layers n_units width dropout We be
    train rnd k0 x :
  dropout_ok train dropout = true ->
  Nat.odd width = true -> dim3_1 x = n_units -> 1 <= dim3_2 x ->
  exists y,
    ConvGLUEncoder_call train rnd k0
      (ConvGLUEncoder_init n_layers n_units width dropout We be) x = Ok y
    /\ shape3 y = shape3 x.
Proof.
  intros Hd Hodd Hu HL.
  apply (ConvGLUEncoder_call_ok train rnd n_units); [|exact Hu|exact HL].
  apply encoder_init_centred; assumption.
Qed.

Lemma even_half w : Nat.even w = true -> w = 2 * (w / 2).
Proof.
  intros H. pose proof (Nat.div_mod_eq w 2) as E.
  rewrite <- Nat.bit0_mod, Nat.bit0_odd in E.
  rewrite <- Nat.negb_even, H in E. change (Nat.b2n (negb true)) with 0 in E. lia.
Qed.

(** An encoder with at least one layer built with an even [width]
    raises on every state of two positions or more: its convolution
    returns one position more than it gets, so that the residual sum
    has operands of different lengths, neither of them 1. *)
Theorem ConvGLUEncoder_even_width_raises n_layers n_units width dropout We be
    train rnd k0 x :
  Nat.even width = true -> 2 <= dim3_2 x ->
  exists e,
    ConvGLUEncoder_call train rnd k0
      (ConvGLUEncoder_init (S n_layers) n_units width dropout We be) x = Err e.
Proof.
  intros Hev HL. unfold ConvGLUEncoder_init.
  cbn [seq map ConvGLUEncoder_call].
  destruct (ConvGLU_call train (rnd k0)
              (ConvGLU_init n_units width dropout false (We 0) (be 0)) x)
    as [h|e] eqn:Hh; cbn [bind]; [|eauto].
  apply ConvGLU_call_inv in Hh as (_ & Hk & _ & _ & H2).
  unfold ConvGLU_init in Hk, H2. cbn [glu_conv conv_ksize conv_pad] in Hk, H2.
  change (1 - 0) with 1 in Hk, H2. apply even_half in Hev.
  unfold add3, same_shape3.
  replace (dim3_2 x =? dim3_2 h) with false
    by (symmetry; apply Nat.eqb_neq; lia).
  rewrite andb_false_r. cbn. eauto.
Qed.

(** A gated convolution without padding of its own ([nopad] true, as in
    the decoder) returns [width - 1] positions fewer than it gets, and
    raises when the sequence is shorter than the kernel. *)
Theorem ConvGLU_nopad_length n_units width dropout Wc bc train rnd x :
  (forall y,
      ConvGLU_call train rnd (ConvGLU_init n_units width dropout true Wc bc) x = Ok y ->
      width <= dim3_2 x /\ dim3_2 y + width = dim3_2 x + 1)
  /\ (dim3_2 x < width ->
      exists e,
        ConvGLU_call train rnd (ConvGLU_init n_units width dropout true Wc bc) x = Err e).
Proof.
  split.
  - intros y H. apply ConvGLU_call_inv in H as (_ & Hk & _ & _ & H2).
    unfold ConvGLU_init in Hk, H2. cbn [glu_conv conv_ksize conv_pad] in Hk, H2.
    change (1 - 1) with 0 in Hk, H2. rewrite Nat.mul_0_r in Hk, H2. lia.
  - intros HL.
    destruct (ConvGLU_call train rnd (ConvGLU_init n_units width dropout true Wc bc) x)
      as [y|e] eqn:H; [|eauto].
    apply ConvGLU_call_inv in H as (_ & Hk & _).
    unfold ConvGLU_init in Hk. cbn [glu_conv conv_ksize conv_pad] in Hk.
    change (1 - 1) with 0 in Hk. rewrite Nat.mul_0_r in Hk. lia.
Qed.

(** ** The forward pass on well-formed input *)

Lemma flat2_in_range {A} (x : arr2 A) p :
  p < dim2_0 x * dim2_1 x -> p / dim2_1 x < dim2_0 x /\ p mod dim2_1 x < dim2_1 x.
Proof.
  intros H. assert (0 < dim2_1 x) by nia. split.
  - apply Nat.Div0.div_lt_upper_bound. lia.
  - apply Nat.mod_upper_bound. lia.
Qed.

Lemma sentence_block_embed_ok embed x :
  (forall i j, i < dim2_0 x -> j < dim2_1 x -> embed_index embed (at2 x i j) <> None) ->
  exists e,
    sentence_block_embed embed x = Ok e /\
    shape3 e = (dim2_0 x, emb_out embed, dim2_1 x).
Proof.
  intros H. unfold sentence_block_embed, EmbedID_call.
  rewrite forall_upto_true.
  - cbn. eexists. split; reflexivity.
  - intros p Hp. apply flat2_in_range in Hp as (Hi & Hj). unfold flat2.
    specialize (H _ _ Hi Hj).
    destruct (embed_index embed (at2 x (p / dim2_1 x) (p mod dim2_1 x)));
      [reflexivity|congruence].
Qed.

Lemma token_index_ok vocab units W0 t :
  1 <= vocab -> (-1 <= t < Z.of_nat vocab)%Z ->
  embed_index (MkEmbed vocab units (Some (-1)%Z) W0) t <> None.
Proof.
  intros Hv Ht. unfold embed_index, is_ignored, take_index. cbn [emb_ignore emb_in].
  destruct (t =? -1)%Z eqn:E.
  - replace ((0 <=? 0) && (0 <? Z.of_nat vocab))%Z with true; [discriminate|].
    symmetry. apply andb_true_intro. split; [reflexivity|apply Z.ltb_lt; lia].
  - apply Z.eqb_neq in E.
    replace ((0 <=? t) && (t <? Z.of_nat vocab))%Z with true; [discriminate|].
    symmetry. apply andb_true_intro. split; [apply Z.leb_le|apply Z.ltb_lt]; lia.
Qed.

Lemma position_index_ok max_length units W0 j :
  j < max_length ->
  embed_index (MkEmbed max_length units None W0) (Z.of_nat j) <> None.
Proof.
  intros Hj. unfold embed_index, is_ignored, take_index. cbn [emb_ignore emb_in].
  replace ((0 <=? Z.of_nat j) && (Z.of_nat j <? Z.of_nat max_length))%Z with true;
    [discriminate|].
  symmetry. apply andb_true_intro. split; [apply Z.leb_le|apply Z.ltb_lt]; lia.
Qed.

(** Within [max_length] the position block is 0, 1, 2, ... on both
    array modules. *)
Lemma position_block_short xp max_length batch max_len :
  max_len <= max_length ->
  position_block xp max_length batch max_len = Ok (position_view xp batch max_len).
Proof.
  intros H. unfold position_block.
  apply Nat.ltb_ge in H. rewrite H. reflexivity.
Qed.

Lemma Linear_call_ok lin x :
  dim2_1 x = lin_in lin ->
  exists h, Linear_call lin x = Ok h /\ shape2 h = (dim2_0 x, lin_out lin).
Proof.
  intros H. unfold Linear_call. apply Nat.eqb_eq in H. rewrite H. cbn.
  eexists. split; reflexivity.
Qed.

Lemma dropped2_dims train rnd ratio x :
  dim2_0 (dropped2 train rnd ratio x) = dim2_0 x /\
  dim2_1 (dropped2 train rnd ratio x) = dim2_1 x.
Proof. destruct train; split; reflexivity. Qed.

(** A position block whose indices are rows of the position tables. *)
Definition positions_in_range (xp : backend) (ml batch max_len : nat) : Prop :=
  exists a,
    position_block xp ml batch max_len = Ok a /\
    dim2_0 (nd_data a) = batch /\ dim2_1 (nd_data a) = max_len /\
    forall i j, j < max_len -> (0 <= at2 (nd_data a) i j < Z.of_nat ml)%Z.

Lemma position_row_ok ml units W0 t :
  (0 <= t < Z.of_nat ml)%Z ->
  embed_index (MkEmbed ml units None W0) t <> None.
Proof.
  intros Ht. unfold embed_index, is_ignored, take_index. cbn [emb_ignore emb_in].
  replace ((0 <=? t) && (t <? Z.of_nat ml))%Z with true; [discriminate|].
  symmetry. apply andb_true_intro. split; [apply Z.leb_le|apply Z.ltb_lt]; lia.
Qed.

(** The logits of a model built by [Seq2seq_init] on blocks of valid ids
    whose positions are in range. *)
Lemma concat_pred_ok_with_positions nl n_source_vocab n_target_vocab nu ml
    dr w xp train rnd x_block y_in_block :
  dropout_ok train dr = true ->
  1 <= n_source_vocab -> 1 <= n_target_vocab ->
  dim2_0 x_block = dim2_0 y_in_block ->
  1 <= dim2_1 x_block -> 1 <= dim2_1 y_in_block ->
  valid_ids n_source_vocab x_block -> valid_ids n_target_vocab y_in_block ->
  positions_in_range xp ml (dim2_0 y_in_block)
                     (Nat.max (dim2_1 x_block) (dim2_1 y_in_block)) ->
  exists logits,
    concat_pred
      (Seq2seq_init nl n_source_vocab n_target_vocab nu ml dr w)
      xp train rnd x_block y_in_block = Ok logits /\
    shape2 logits = (dim2_0 y_in_block * dim2_1 y_in_block, n_target_vocab).
Proof.
  intros Hd Hsv Htv Hb HxL HyL Vx Vy (pb & Hpb & A0 & A1 & Ar).
  unfold concat_pred, Seq2seq_init.
  cbn [embed_x embed_y embed_position_x embed_position_y encoder decoder W
       n_layers n_units max_length dropout].
  (* token embeddings *)
  destruct (sentence_block_embed_ok
              (MkEmbed n_source_vocab nu (Some (-1)%Z) (w_embed_x w)) x_block)
    as (ex & Hex & Sex).
  { intros i j Hi Hj. apply token_index_ok; [exact Hsv|apply Vx; assumption]. }
  rewrite Hex. cbn [bind].
  destruct (sentence_block_embed_ok
              (MkEmbed n_target_vocab nu (Some (-1)%Z) (w_embed_y w)) y_in_block)
    as (ey & Hey & Sey).
  { intros i j Hi Hj. apply token_index_ok; [exact Htv|apply Vy; assumption]. }
  rewrite Hey. cbn [bind].
  (* positions *)
  rewrite Hpb. cbn [bind].
  destruct (sentence_block_embed_ok
              (MkEmbed ml nu None (w_position_x w)) (cols_upto pb (dim2_1 x_block)))
    as (px & Hpx & Spx).
  { cbn [cols_upto dim2_0 dim2_1 at2]. intros i j Hi Hj.
    apply position_row_ok, Ar. lia. }
  rewrite Hpx. cbn [bind].
  destruct (sentence_block_embed_ok
              (MkEmbed ml nu None (w_position_y w)) (cols_upto pb (dim2_1 y_in_block)))
    as (py & Hpy & Spy).
  { cbn [cols_upto dim2_0 dim2_1 at2]. intros i j Hi Hj.
    apply position_row_ok, Ar. lia. }
  rewrite Hpy. cbn [bind].
  cbn [cols_upto dim2_0 dim2_1 emb_out] in Sex, Sey, Spx, Spy.
  rewrite A0, A1 in Spx, Spy.
  rewrite Nat.min_l in Spx by lia. rewrite Nat.min_l in Spy by lia.
  destruct (add3_same_shape ex px) as (ex2 & Hex2); [congruence|].
  rewrite Hex2. cbn [bind].
  destruct (add3_same_shape ey py) as (ey2 & Hey2); [congruence|].
  rewrite Hey2. cbn [bind].
  apply add3_inv in Hex2 as (_ & Sex2 & _). apply add3_inv in Hey2 as (_ & Sey2 & _).
  rewrite Sex in Sex2. rewrite Sey in Sey2.
  unfold shape3 in Sex2, Sey2. injection Sex2 as X0 X1 X2. injection Sey2 as Y0 Y1 Y2.
  (* encoder *)
  destruct (ConvGLUEncoder_call_ok train rnd nu
              (ConvGLUEncoder_init nl nu 5 dr (w_enc w) (b_enc w))
              (encoder_init_centred train nl nu 5 dr (w_enc w) (b_enc w) Hd eq_refl)
              0 ex2) as (z & Hz & Sz); [exact X1|lia|].
  rewrite Hz. cbn [bind].
  unfold shape3 in Sz. injection Sz as Z0 Z1 Z2.
  destruct (add3_same_shape z ex2) as (v & Hv); [unfold shape3; congruence|].
  rewrite Hv. cbn [bind].
  apply add3_inv in Hv as (_ & Sv & _).
  unfold shape3 in Sv. injection Sv as V0 V1 V2.
  unfold broadcast_value.
  replace (bcast_ok (dim3_0 v) (dim2_0 y_in_block)) with true
    by (symmetry; replace (dim3_0 v) with (dim2_0 y_in_block) by congruence;
        apply bcast_ok_refl).
  replace (bcast_ok (dim3_1 v) nu) with true
    by (symmetry; replace (dim3_1 v) with nu by congruence; apply bcast_ok_refl).
  replace (bcast_ok (dim3_2 v) (dim2_1 x_block)) with true
    by (symmetry; replace (dim3_2 v) with (dim2_1 x_block) by congruence;
        apply bcast_ok_refl).
  cbn [andb guard bind].
  unfold make_mask. rewrite Hb, bcast_ok_refl. cbn [orb guard bind].
  (* decoder *)
  match goal with
  | |- context [ConvGLUDecoder_call train rnd nl ?d ey2 z ?ze ?mask] =>
      destruct (ConvGLUDecoder_call_ok nl nu 5 dr (w_dec w) (b_dec w)
                  (w_preatt w) (b_preatt w) train rnd nl ey2 z ze mask)
        as (h & Hh & Sh)
  end.
  { exact Hd. }
  { reflexivity. }
  { unfold decoder_operands. cbn [dim4_0 dim4_1 dim4_2 dim4_3 dim3_0 dim3_1 dim3_2].
    rewrite Nat.max_id.
    assert (E0 : dim3_0 z = dim3_0 ey2) by lia.
    assert (E1 : dim3_1 z = nu) by lia.
    assert (E2 : dim2_1 x_block = dim3_2 z) by lia.
    unfold shape3. cbn [dim3_0 dim3_1 dim3_2].
    rewrite E0, E1, Y0, Y2, <- E2.
    repeat split; try reflexivity; lia. }
  rewrite Hh. cbn [bind].
  unfold shape3 in Sh. injection Sh as H0 H1 H2.
  replace (dim3_0 h =? dim2_0 y_in_block) with true
    by (symmetry; apply Nat.eqb_eq; congruence).
  replace (dim3_1 h =? nu) with true by (symmetry; apply Nat.eqb_eq; congruence).
  replace (dim3_2 h =? dim2_1 y_in_block) with true
    by (symmetry; apply Nat.eqb_eq; congruence).
  cbn [andb guard bind].
  rewrite (F_dropout2_ok _ _ _ _ Hd). cbn [bind].
  match goal with
  | |- context [Linear_call ?lin ?c] =>
      destruct (Linear_call_ok lin c) as (logits & Hl & Sl)
  end.
  { rewrite (proj2 (dropped2_dims _ _ _ _)). reflexivity. }
  exists logits. split; [exact Hl|].
  rewrite Sl, (proj1 (dropped2_dims _ _ _ _)). reflexivity.
Qed.

(** The logits of a model built by [Seq2seq_init] on well-formed input. *)
Lemma concat_pred_ok nl n_source_vocab n_target_vocab nu ml
    dr w xp train rnd x_block y_in_block :
  dropout_ok train dr = true ->
  well_formed_input n_source_vocab n_target_vocab ml x_block y_in_block ->
  exists logits,
    concat_pred
      (Seq2seq_init nl n_source_vocab n_target_vocab nu ml dr w)
      xp train rnd x_block y_in_block = Ok logits /\
    shape2 logits = (dim2_0 y_in_block * dim2_1 y_in_block, n_target_vocab).
Proof.
  intros Hd (Hsv & Htv & Hb & (HxL & HxM) & (HyL & HyM) & Vx & Vy).
  apply concat_pred_ok_with_positions; try assumption.
  exists (position_view xp (dim2_0 y_in_block)
            (Nat.max (dim2_1 x_block) (dim2_1 y_in_block))).
  split; [apply position_block_short; lia|].
  split; [reflexivity|]. split; [reflexivity|].
  intros i j Hj. cbn. lia.
Qed.

Lemma prediction_ok nl n_source_vocab ntv nu ml dr w xp train rnd
    x_block y_in_block y_out_block :
  dropout_ok train dr = true ->
  well_formed_input n_source_vocab ntv ml x_block y_in_block ->
  exists logits p,
    concat_pred (Seq2seq_init nl n_source_vocab ntv nu ml dr w)
      xp train rnd x_block y_in_block = Ok logits /\
    Seq2seq_call (Seq2seq_init nl n_source_vocab ntv nu ml dr w)
      xp train rnd x_block y_in_block y_out_block true = Ok (Prediction p) /\
    shape2 logits = (dim2_0 y_in_block * dim2_1 y_in_block, ntv) /\
    shape3 p = (dim2_0 y_in_block, dim2_1 y_in_block, ntv) /\
    forall b t v, t < dim2_1 y_in_block -> v < ntv ->
      at3 p b t v = at2 logits (b * dim2_1 y_in_block + t) v.
Proof.
  intros Hd Hwf.
  destruct (concat_pred_ok nl n_source_vocab ntv nu ml dr w xp train rnd
              x_block y_in_block Hd Hwf) as (logits & Hl & Sl).
  unfold Seq2seq_call. rewrite Hl. cbn [bind].
  unfold shape2 in Sl. injection Sl as S0 S1.
  unfold Seq2seq_init at 1. cbn [n_target_vocab]. rewrite S0, S1, Nat.eqb_refl. cbn [guard bind].
  exists logits. eexists. split; [reflexivity|]. split; [reflexivity|].
  split; [unfold shape2; congruence|]. split; [reflexivity|].
  intros b t v Ht Hv. cbn [reshape3 at3]. unfold flat2. rewrite S1.
  rewrite offset_div, offset_mod by exact Hv. reflexivity.
Qed.

(** On well-formed input a model built by [Seq2seq_init] with a ratio
    that [F.dropout] accepts (the train flag is off, or
    0 <= dropout < 1) returns, on the prediction path, logits of shape
    (batch, target length, n_target_vocab), on both array modules, for
    every number of layers. *)
Theorem forward_runs_on_well_formed_input nl n_source_vocab n_target_vocab nu ml dr w
    xp train rnd x_block y_in_block y_out_block :
  dropout_ok train dr = true ->
  well_formed_input n_source_vocab n_target_vocab ml x_block y_in_block ->
  exists p,
    Seq2seq_call (Seq2seq_init nl n_source_vocab n_target_vocab nu ml dr w)
      xp train rnd x_block y_in_block y_out_block true = Ok (Prediction p) /\
    shape3 p = (dim2_0 y_in_block, dim2_1 y_in_block, n_target_vocab).
Proof.
  intros Hd Hwf.
  destruct (prediction_ok nl n_source_vocab n_target_vocab nu ml dr w xp train rnd
              x_block y_in_block y_out_block Hd Hwf) as (logits & p & _ & Hp & _ & Sp & _).
  exists p. split; assumption.
Qed.

(** On well-formed input whose targets are padding or ids of the target
    vocabulary, in a block of the shape of the target input, and with a
    ratio that [F.dropout] accepts (the train flag is off, or
    0 <= dropout < 1), the training path returns a loss and reports it
    with its exponential. *)
Theorem loss_runs_on_well_formed_input nl n_source_vocab n_target_vocab nu ml dr w
    xp train rnd x_block y_in_block y_out_block :
  dropout_ok train dr = true ->
  well_formed_input n_source_vocab n_target_vocab ml x_block y_in_block ->
  shape2 y_out_block = shape2 y_in_block ->
  valid_ids n_target_vocab y_out_block ->
  exists loss,
    Seq2seq_call (Seq2seq_init nl n_source_vocab n_target_vocab nu ml dr w)
      xp train rnd x_block y_in_block y_out_block false
    = Ok (Loss loss [("loss"%string, loss); ("perp"%string, xp_exp loss)]).
Proof.
  intros Hd Hwf So Vo.
  destruct (concat_pred_ok nl n_source_vocab n_target_vocab nu ml dr w xp train rnd
              x_block y_in_block Hd Hwf) as (logits & Hl & Sl).
  destruct Hwf as (_ & Htv & _).
  unfold Seq2seq_call. rewrite Hl. cbn [bind].
  unfold shape2 in Sl, So. injection Sl as S0 S1. injection So as O0 O1.
  rewrite O0, O1, Nat.eqb_refl. cbn [guard bind].
  unfold F_softmax_cross_entropy.
  rewrite S0, S1, Nat.eqb_refl. cbn [guard bind].
  replace (0 <? n_target_vocab) with true by (symmetry; apply Nat.ltb_lt; lia).
  cbn [guard bind].
  rewrite forall_upto_true.
  - cbn [guard bind]. eexists. reflexivity.
  - intros p Hp. rewrite <- O0, <- O1 in Hp.
    apply flat2_in_range in Hp as (Hi & Hj). unfold flat2.
    specialize (Vo _ _ Hi Hj). unfold counted.
    destruct (at2 y_out_block (p / dim2_1 y_out_block) (p mod dim2_1 y_out_block) =? -1)%Z
      eqn:E; [reflexivity|].
    apply Z.eqb_neq in E. cbn [negb orb]. apply Z.ltb_lt. lia.
Qed.

(** ** How many ids [translate] returns *)

Lemma length_tabulate {A} n (f : nat -> A) : List.length (tabulate n f) = n.
Proof. unfold tabulate. rewrite length_map, length_seq. reflexivity. Qed.

Lemma nth_tabulate {A} n (f : nat -> A) i d : i < n -> nth i (tabulate n f) d = f i.
Proof.
  intros H. unfold tabulate.
  rewrite (nth_indep _ d (f 0)) by (rewrite length_map, length_seq; exact H).
  rewrite map_nth, seq_nth by exact H. reflexivity.
Qed.

Lemma greedy_loop_length m xp train rnd x_block steps :
  forall i y_block eos_flags results res,
    greedy_loop m xp train rnd x_block steps i y_block eos_flags results = Ok res ->
    List.length results <= List.length res <= List.length results + steps.
Proof.
  induction steps as [|steps IH]; intros i y_block eos_flags results res H; simpl in H.
  - inv_ok H. lia.
  - inv_bind H. destruct a as [p|l r]; [|discriminate].
    inv_guard H. inv_guard H. inv_bind H.
    destruct (forallb _ _).
    + inv_ok H. rewrite length_app. simpl. lia.
    + apply IH in H. rewrite length_app in H. simpl in H. lia.
Qed.

Lemma before_eos_length y : List.length (before_eos y) <= List.length y.
Proof.
  induction y as [|t y IH]; simpl; [lia|].
  destruct (t =? 0)%Z; simpl; lia.
Qed.

Lemma remove_eos_length y : List.length (remove_eos y) <= Nat.max (List.length y) 1.
Proof.
  rewrite remove_eos_spec. pose proof (before_eos_length y) as H.
  destruct (before_eos y); simpl in *; lia.
Qed.

Lemma concat_examples_rows xs x_block :
  concat_examples xs = Ok x_block -> dim2_0 x_block = List.length xs.
Proof.
  unfold concat_examples. destruct xs; intros H; [discriminate|].
  inv_ok H. reflexivity.
Qed.

(** Whenever [translate] returns, [max_length] is at least 1, there is
    one sequence for each source sequence, and no sequence is longer
    than [max_length]. *)
Theorem translate_output_sizes m xp train rnd x_block max_len outs :
  translate m xp train rnd x_block max_len = Ok outs ->
  1 <= max_len /\
  List.length outs = source_rows x_block /\
  Forall (fun y => List.length y <= max_len) outs.
Proof.
  unfold translate. intros H. inv_bind H. inv_bind H. inv_guard H. inv_ok H.
  apply greedy_loop_length in Ha0. simpl in Ha0.
  apply negb_true_iff, Nat.eqb_neq in Hg.
  split; [lia|]. split.
  - rewrite length_map, length_tabulate.
    destruct x_block as [xs|xb]; simpl.
    + apply concat_examples_rows, Ha.
    + inv_ok Ha. reflexivity.
  - apply Forall_forall. intros y Hy.
    apply in_map_iff in Hy as (row & <- & Hrow).
    unfold tabulate in Hrow. apply in_map_iff in Hrow as (b & <- & _).
    pose proof (remove_eos_length (map (fun ys => nth b ys 0%Z) a0)) as L.
    rewrite length_map in L. lia.
Qed.

(** ** [translate] on a well-formed source *)

Lemma argmax_upto_le n f : argmax_upto n f <= n.
Proof.
  induction n as [|n IH]; simpl; [lia|].
  destruct (is_nan (f (argmax_upto n f))); [lia|].
  destruct (is_nan (f (S n)) || (f (argmax_upto n f) <? f (S n))%float); lia.
Qed.

Lemma add_eos_length eos_flags ys :
  List.length eos_flags = List.length ys ->
  List.length (add_eos eos_flags ys) = List.length ys.
Proof.
  intros H. unfold add_eos. rewrite length_map, length_combine. lia.
Qed.

Lemma greedy_loop_ok nl nsv ntv nu ml dr w xp train rnd x_block steps :
  dropout_ok train dr = true ->
  1 <= nsv -> 1 <= ntv -> 1 <= dim2_1 x_block <= ml -> valid_ids nsv x_block ->
  forall i y_block eos_flags results,
    dim2_0 y_block = dim2_0 x_block ->
    1 <= dim2_1 y_block -> dim2_1 y_block + steps <= ml + 1 ->
    valid_ids ntv y_block ->
    List.length eos_flags = dim2_0 x_block ->
    exists res,
      greedy_loop (Seq2seq_init nl nsv ntv nu ml dr w) xp train rnd x_block steps i
        y_block eos_flags results = Ok res /\
      (1 <= steps -> List.length results + 1 <= List.length res).
Proof.
  intros Hd Hsv Htv Hx Vx.
  induction steps as [|steps IH]; intros i y_block eos_flags results Hb HyL HyM Vy He;
    simpl.
  - eexists. split; [reflexivity|lia].
  - destruct (prediction_ok nl nsv ntv nu ml dr w xp train (rnd i)
                x_block y_block y_block Hd) as (logits & p & _ & Hp & _ & Sp & _).
    { unfold well_formed_input.
      repeat match goal with |- _ /\ _ => split end; try assumption; lia. }
    rewrite Hp. cbn [bind].
    unfold shape3 in Sp. injection Sp as P0 P1 P2.
    rewrite P0, P1, P2.
    replace (0 <? dim2_1 y_block) with true by (symmetry; apply Nat.ltb_lt; lia).
    replace (0 <? ntv) with true by (symmetry; apply Nat.ltb_lt; lia).
    cbn [guard bind]. unfold append_column.
    rewrite length_tabulate, Nat.eqb_refl. cbn [guard bind].
    match goal with
    | |- context [forallb ?f ?l] => destruct (forallb f l)
    end.
    + eexists. split; [reflexivity|]. intros _. rewrite length_app. simpl. lia.
    + match goal with
      | |- context [greedy_loop _ _ _ _ _ _ _ ?yb ?ef ?rs] =>
          destruct (IH (S i) yb ef rs) as (res & Hres & _)
      end.
      * cbn [dim2_0]. exact Hb.
      * cbn [dim2_1]. lia.
      * cbn [dim2_1]. lia.
      * intros b j Hbb Hj. cbn [dim2_0 dim2_1 at2] in Hbb, Hj |- *.
        destruct (j <? dim2_1 y_block) eqn:E.
        -- apply Nat.ltb_lt in E. apply Vy; assumption.
        -- rewrite nth_tabulate by lia.
           pose proof (argmax_upto_le (ntv - 1)
                         (at3 p b (dim2_1 y_block - 1))) as A. lia.
      * rewrite add_eos_length; rewrite length_tabulate; congruence.
      * exists res. split; [exact Hres|]. intros _.
        apply greedy_loop_length in Hres. rewrite length_app in Hres. simpl in Hres. lia.
Qed.

(** On a source block of ids of the source vocabulary (or padding), of a
    length between 1 and the model's [max_length], for a number of
    steps between 1 and the model's [max_length], and with a ratio that
    [F.dropout] accepts (the train flag is off, or 0 <= dropout < 1),
    [translate] returns: one sequence for each row of the block, each
    of 1 to [max_len] ids, none of them the end-of-sequence id 0. *)
Theorem translate_runs_on_well_formed_source nl nsv ntv nu ml dr w xp train rnd
    x_block max_len :
  dropout_ok train dr = true ->
  1 <= nsv -> 1 <= ntv -> 1 <= dim2_1 x_block <= ml -> valid_ids nsv x_block ->
  1 <= max_len <= ml ->
  exists outs,
    translate (Seq2seq_init nl nsv ntv nu ml dr w) xp train rnd
      (SourceBlock x_block) max_len = Ok outs /\
    List.length outs = dim2_0 x_block /\
    Forall (fun y => 1 <= List.length y <= max_len /\ ~ In 0%Z y) outs.
Proof.
  intros Hd Hsv Htv Hx Vx Hm. unfold translate. cbn [bind].
  destruct (greedy_loop_ok nl nsv ntv nu ml dr w xp train rnd x_block max_len
              Hd Hsv Htv Hx Vx 0 (Arr2 (dim2_0 x_block) 1 (fun _ _ => 0%Z))
              (repeat 0 (dim2_0 x_block)) [])
    as (res & Hres & Hlen).
  - reflexivity.
  - cbn. lia.
  - cbn. lia.
  - intros b j _ _. cbn. lia.
  - apply repeat_length.
  - rewrite Hres. cbn [bind].
    specialize (Hlen (proj1 Hm)). simpl in Hlen.
    pose proof (greedy_loop_length _ _ _ _ _ _ _ _ _ _ _ Hres) as Hle. simpl in Hle.
    replace (List.length res =? 0) with false by (symmetry; apply Nat.eqb_neq; lia).
    cbn [negb guard bind].
    eexists. split; [reflexivity|]. split.
    + rewrite length_map, length_tabulate. reflexivity.
    + apply Forall_forall. intros y Hy.
      apply in_map_iff in Hy as (row & <- & Hrow).
      unfold tabulate in Hrow. apply in_map_iff in Hrow as (b & <- & _).
      pose proof (remove_eos_nonempty (map (fun ys => nth b ys 0%Z) res)) as (N1 & N2).
      pose proof (remove_eos_length (map (fun ys => nth b ys 0%Z) res)) as L.
      rewrite length_map in L. repeat split; [lia|lia|exact N2].
Qed.

(** ** Sequences longer than [max_length] on cupy *)

(** On cupy, with a position table of at least one row and a ratio
    that [F.dropout] accepts (the train flag is off, or
    0 <= dropout < 1), the forward pass runs on blocks of valid ids of
    any length: the position of column j is min(j, max_length - 1), and
    the logits come back with the shape
    (batch, target length, n_target_vocab). *)
Theorem forward_clamps_positions_on_cupy nl nsv ntv nu ml dr w train rnd
    x_block y_in_block y_out_block :
  dropout_ok train dr = true ->
  1 <= ml -> 1 <= nsv -> 1 <= ntv ->
  dim2_0 x_block = dim2_0 y_in_block ->
  1 <= dim2_1 x_block -> 1 <= dim2_1 y_in_block ->
  valid_ids nsv x_block -> valid_ids ntv y_in_block ->
  (exists a,
      position_block Cupy ml (dim2_0 y_in_block)
        (Nat.max (dim2_1 x_block) (dim2_1 y_in_block)) = Ok a /\
      forall i j, j < Nat.max (dim2_1 x_block) (dim2_1 y_in_block) ->
        at2 (nd_data a) i j = Z.of_nat (Nat.min j (ml - 1)))
  /\
  exists p,
    Seq2seq_call (Seq2seq_init nl nsv ntv nu ml dr w)
      Cupy train rnd x_block y_in_block y_out_block true = Ok (Prediction p) /\
    shape3 p = (dim2_0 y_in_block, dim2_1 y_in_block, ntv).
Proof.
  intros Hd Hml Hsv Htv Hb HxL HyL Vx Vy.
  destruct (position_block_cupy ml (dim2_0 y_in_block)
              (Nat.max (dim2_1 x_block) (dim2_1 y_in_block)) Hml)
    as (a & Ha & Sa & Aa).
  split; [exists a; split; assumption|].
  destruct (concat_pred_ok_with_positions nl nsv ntv nu ml dr w Cupy train rnd
              x_block y_in_block Hd Hsv Htv Hb HxL HyL Vx Vy) as (logits & Hl & Sl).
  { exists a. unfold shape2 in Sa. injection Sa as A0 A1.
    repeat match goal with |- _ /\ _ => split end; try assumption.
    intros i j Hj. rewrite Aa by exact Hj. lia. }
  unfold Seq2seq_call. rewrite Hl. cbn [bind].
  unfold shape2 in Sl. injection Sl as S0 S1.
  unfold Seq2seq_init at 1. cbn [n_target_vocab].
  rewrite S0, S1, Nat.eqb_refl. cbn [guard bind].
  eexists. split; reflexivity.
Qed.

(** ** The weights of the attention unit *)

(** No weight the attention unit computes is NaN, whatever the scores
    and the mask are: the re-mask replaces every NaN by zero. *)
Theorem attention_weights_never_nan query key mask a :
  attention_weights query key mask = Ok a ->
  forall i t s, is_nan (at3 a i t s) = false.
Proof.
  intros H i t s. rewrite (attention_weights_at _ _ _ _ H). cbv zeta.
  match goal with
  | |- is_nan (if is_nan ?r then _ else _) = false => destruct (is_nan r) eqn:E
  end; [reflexivity|exact E].
Qed.

(** ** The loss when every target is ignored *)

Lemma non_ignored_nil n t :
  (forall p, p < n -> t p = (-1)%Z) -> non_ignored n t = [].
Proof.
  intros H. unfold non_ignored.
  induction n as [|n IH]; [reflexivity|].
  rewrite seq_S, filter_app, IH by (intros; apply H; lia). simpl.
  rewrite H by lia. reflexivity.
Qed.

Lemma mul_zero_zero_or_nan v :
  is_zero (v * 0) = true \/ is_nan (v * 0) = true.
Proof.
  destruct (Prim2SF v) as [sv|sv| |sv mv ev] eqn:Ev.
  - left. apply is_zero_SF. rewrite mul_spec, Ev. simpl. eauto.
  - right. apply is_nan_SF. rewrite mul_spec, Ev. reflexivity.
  - right. apply is_nan_SF. rewrite mul_spec, Ev. reflexivity.
  - left. apply is_zero_SF. rewrite mul_spec, Ev. simpl. eauto.
Qed.

Lemma add_zero_or_nan a b :
  is_zero a = true \/ is_nan a = true ->
  is_zero b = true \/ is_nan b = true ->
  is_zero (a + b) = true \/ is_nan (a + b) = true.
Proof.
  intros [Ha|Ha] [Hb|Hb].
  - left. apply zero_add_zero; assumption.
  - right. apply is_nan_SF in Hb. apply is_nan_SF. rewrite add_spec, Hb.
    destruct (Prim2SF a); reflexivity.
  - right. apply is_nan_SF in Ha. apply is_nan_SF. rewrite add_spec, Ha. reflexivity.
  - right. apply is_nan_SF in Ha. apply is_nan_SF. rewrite add_spec, Ha. reflexivity.
Qed.

Lemma sum_upto_zero_or_nan n f :
  (forall s, s < n -> is_zero (f s) = true \/ is_nan (f s) = true) ->
  is_zero (sum_upto n f) = true \/ is_nan (sum_upto n f) = true.
Proof.
  induction n as [|n IH]; intros H; cbn [sum_upto].
  - left. reflexivity.
  - apply add_zero_or_nan; [apply IH; intros; apply H; lia | apply H; lia].
Qed.

Lemma mul_zero_or_nan a c :
  is_zero a = true \/ is_nan a = true ->
  is_zero (a * c) = true \/ is_nan (a * c) = true.
Proof.
  intros [Ha|Ha].
  - apply is_zero_SF in Ha as (sa & Ea).
    destruct (Prim2SF c) as [sc|sc| |sc mc ec] eqn:Ec.
    + left. apply is_zero_SF. rewrite mul_spec, Ea, Ec. simpl. eauto.
    + right. apply is_nan_SF. rewrite mul_spec, Ea, Ec. reflexivity.
    + right. apply is_nan_SF. rewrite mul_spec, Ea, Ec. reflexivity.
    + left. apply is_zero_SF. rewrite mul_spec, Ea, Ec. simpl. eauto.
  - right. apply is_nan_SF in Ha. apply is_nan_SF. rewrite mul_spec, Ha. reflexivity.
Qed.

Lemma F_sum_zero_or_nan a :
  is_zero a = true \/ is_nan a = true ->
  F_sum a = zero \/ is_nan (F_sum a) = true.
Proof.
  unfold F_sum. intros [Ha|Ha].
  - left. apply is_zero_SF in Ha as (sa & Ea). apply Prim2SF_inj.
    rewrite add_spec, Ea. change (Prim2SF zero) with (S754_zero false).
    destruct sa; reflexivity.
  - right. apply is_nan_SF in Ha. apply is_nan_SF. rewrite add_spec, Ha.
    reflexivity.
Qed.

(** When every target is the ignore id -1 and the training path
    returns, the loss is the zero +0.0 or NaN, never another number;
    it is +0.0 when the log-probability of class 0 is finite at every
    position. *)
Theorem loss_of_ignored_targets m xp train rnd x_block y_in_block y_out_block
    loss reported :
  Seq2seq_call m xp train rnd x_block y_in_block y_out_block false
  = Ok (Loss loss reported) ->
  (forall i j, i < dim2_0 y_out_block -> j < dim2_1 y_out_block ->
     at2 y_out_block i j = (-1)%Z) ->
  (loss = zero \/ is_nan loss = true) /\
  (forall logits,
      concat_pred m xp train rnd x_block y_in_block = Ok logits ->
      finite_where_ignored logits (dim2_0 y_in_block * dim2_1 y_in_block)
                           (flat2 y_out_block) ->
      loss = zero).
Proof.
  unfold Seq2seq_call. intros H Hall.
  inv_bind H. inv_guard H. inv_bind H.
  injection H as El _. subst loss.
  apply Nat.eqb_eq in Hg.
  assert (Hi : forall p, p < dim2_0 y_in_block * dim2_1 y_in_block ->
                 flat2 y_out_block p = (-1)%Z).
  { intros p Hp. rewrite <- Hg in Hp.
    apply flat2_in_range in Hp as (Hi & Hj). unfold flat2. apply Hall; assumption. }
  split.
  - unfold F_softmax_cross_entropy in Ha0.
    inv_guard Ha0. inv_guard Ha0. inv_guard Ha0. inv_ok Ha0.
    apply F_sum_zero_or_nan. unfold softmax_cross_entropy_forward.
    apply mul_zero_or_nan, sum_upto_zero_or_nan.
    intros p Hp. rewrite (Hi p Hp). unfold masked_log_p. cbn [counted Z.eqb negb].
    destruct xp; [apply mul_zero_zero_or_nan|left; reflexivity].
  - intros logits Hl Hf. rewrite Ha in Hl. inv_ok Hl.
    apply F_softmax_cross_entropy_inv in Ha0 as (_ & Hce).
    rewrite (Hce (or_intror Hf)). unfold mean_cross_entropy.
    rewrite non_ignored_nil by exact Hi. reflexivity.
Qed.

(** ** The two paths of the forward pass *)

Lemma log_softmax_row_ext n row row' v :
  0 < n -> v < n -> (forall v', v' < n -> row v' = row' v') ->
  log_softmax_row n row v = log_softmax_row n row' v.
Proof.
  intros Hn Hv H. unfold log_softmax_row.
  rewrite (max_upto_ext (n - 1) row row') by (intros; apply H; lia).
  rewrite (sum_upto_ext n _ (fun v' => xp_exp (row' v' - max_upto (n - 1) row')%float))
    by (intros v' Hv'; rewrite H by exact Hv'; reflexivity).
  rewrite H by exact Hv. reflexivity.
Qed.

Lemma mean_cross_entropy_ext x x' n t :
  dim2_1 x = dim2_1 x' -> 0 < dim2_1 x ->
  (forall p, In p (non_ignored n t) ->
     Z.to_nat (t p) < dim2_1 x /\ forall v, v < dim2_1 x -> at2 x p v = at2 x' p v) ->
  mean_cross_entropy x n t = mean_cross_entropy x' n t.
Proof.
  intros Hd Hpos H. unfold mean_cross_entropy. f_equal. rewrite <- Hd.
  revert H. generalize (non_ignored n t) as ps. generalize zero as acc.
  intros acc ps. revert acc.
  induction ps as [|p ps IH]; intros acc H; simpl; [reflexivity|].
  rewrite IH by (intros; apply H; right; assumption).
  destruct (H p (or_introl eq_refl)) as (Ht & Hrow).
  rewrite (log_softmax_row_ext (dim2_1 x) (at2 x p) (at2 x' p)) by assumption.
  reflexivity.
Qed.

(** The two paths of the forward pass compute the same logits: the
    loss of the training path is [F.sum] of the cross-entropy of the
    logits the prediction path returns for the same call, the rows of
    the (batch, length, vocab) prediction being read row by row against
    the flattened targets. *)
Theorem loss_is_cross_entropy_of_prediction m xp train rnd x_block y_in_block
    y_out_block p loss reported :
  Seq2seq_call m xp train rnd x_block y_in_block y_out_block true
  = Ok (Prediction p) ->
  Seq2seq_call m xp train rnd x_block y_in_block y_out_block false
  = Ok (Loss loss reported) ->
  loss =
  F_sum
    (softmax_cross_entropy_forward xp
       (Arr2 (dim2_0 y_in_block * dim2_1 y_in_block) (n_target_vocab m)
             (fun r v => at3 p (r / dim2_1 y_in_block) (r mod dim2_1 y_in_block) v))
       (dim2_0 y_in_block * dim2_1 y_in_block) (flat2 y_out_block)).
Proof.
  unfold Seq2seq_call. intros Hp Hl.
  inv_bind Hp. rewrite Ha in Hl. cbn [bind] in Hl.
  inv_guard Hp. injection Hp as Ep. subst p.
  inv_guard Hl. inv_bind Hl. injection Hl as El _. subst loss.
  apply Nat.eqb_eq in Hg.
  unfold F_softmax_cross_entropy in Ha0.
  apply bind_inv in Ha0 as (u1 & G0 & Ha0). apply guard_inv in G0.
  apply bind_inv in Ha0 as (u2 & Gpos & Ha0). apply guard_inv in Gpos.
  apply bind_inv in Ha0 as (u3 & Gidx & Ha0). apply guard_inv in Gidx.
  inv_ok Ha0. apply Nat.eqb_eq in G0. apply Nat.ltb_lt in Gpos.
  f_equal. unfold softmax_cross_entropy_forward. f_equal.
  remember (dim2_0 y_in_block * dim2_1 y_in_block) as n eqn:En.
  apply sum_upto_ext. intros q Hq.
  assert (Hd : dim2_1 a = n_target_vocab m).
  { rewrite G0 in Hg. apply Nat.mul_cancel_l in Hg; [exact Hg|lia]. }
  cbn [dim2_1 at2]. rewrite <- Hd. f_equal.
  apply log_softmax_row_ext; [exact Gpos| |].
  - pose proof (forall_upto_inv _ _ Gidx q Hq) as G. cbv beta in G.
    unfold counted in G.
    destruct (flat2 y_out_block q =? -1)%Z eqn:E.
    + apply Z.eqb_eq in E. rewrite E. exact Gpos.
    + cbn [negb orb] in G. apply Z.ltb_lt in G. lia.
  - intros v Hv. cbn [at3 reshape3]. unfold flat2.
    assert (Hy : dim2_1 y_in_block <> 0) by (intros E0; rewrite E0 in En; lia).
    replace (q / dim2_1 y_in_block * dim2_1 y_in_block + q mod dim2_1 y_in_block)
      with q by (rewrite (Nat.div_mod_eq q (dim2_1 y_in_block)) at 1; lia).
    rewrite offset_div, offset_mod by exact Hv. reflexivity.
Qed.

(** ** Padding in the attention *)

Lemma make_mask_inv x_block y_in_block mask :
  make_mask x_block y_in_block = Ok mask ->
  dim3_1 mask = dim2_1 y_in_block /\ dim3_2 mask = dim2_1 x_block /\
  forall i t s,
    at3 mask i t s =
    (0 <=? at2 x_block (bidx (dim2_0 x_block) i) s)%Z
    && (0 <=? at2 y_in_block (bidx (dim2_0 y_in_block) i) t)%Z.
Proof.
  unfold make_mask. intros H. inv_guard H. inv_ok H. repeat split.
Qed.

(** The scale of the attention context at target position t of row b:
    the square root of the number of source ids of the row that are not
    padding when the target id is not padding, and zero when it is. *)
Theorem att_scale_counts_source x_block y_in_block mask b t :
  make_mask x_block y_in_block = Ok mask ->
  b < dim2_0 x_block -> b < dim2_0 y_in_block ->
  at2 (att_scale mask) b t =
  if (0 <=? at2 y_in_block b t)%Z
  then sqrt (of_nat (count_upto (dim2_1 x_block) (fun s => (0 <=? at2 x_block b s)%Z)))
  else zero.
Proof.
  intros H Hx Hy. apply make_mask_inv in H as (_ & M2 & Hm).
  unfold att_scale. cbn [at2]. rewrite M2.
  rewrite (count_upto_ext (dim2_1 x_block) (at3 mask b t)
             (fun s => (0 <=? at2 x_block b s)%Z && (0 <=? at2 y_in_block b t)%Z))
    by (intros s _; rewrite Hm, !bidx_id by assumption; reflexivity).
  destruct (0 <=? at2 y_in_block b t)%Z.
  - f_equal. f_equal. apply count_upto_ext. intros s _. apply andb_true_r.
  - rewrite (count_upto_ext _ _ (fun _ => false))
      by (intros s _; apply andb_false_r).
    unfold count_upto.
    replace (filter (fun _ : nat => false) (seq 0 (dim2_1 x_block))) with (@nil nat);
      [reflexivity|].
    induction (seq 0 (dim2_1 x_block)) as [|k l IH]; [reflexivity|exact IH].
Qed.

(** A padded target position attends to nothing: all its attention
    weights are exactly zero. *)
Theorem padded_target_attends_nothing x_block y_in_block mask query key a b t :
  make_mask x_block y_in_block = Ok mask ->
  attention_weights query key mask = Ok a ->
  b < dim2_0 y_in_block ->
  (at2 y_in_block b t < 0)%Z ->
  forall s, s < dim2_1 x_block -> at3 a b t s = zero.
Proof.
  intros Hm Ha Hb Hpad s Hs.
  pose proof (make_mask_inv _ _ _ Hm) as (_ & M2 & Hat).
  pose proof (attention_weights_inv _ _ _ _ Ha) as (Hsh & _).
  unfold shape3 in Hsh. injection Hsh as _ _ A2.
  apply (attention_weights_masked_row query key mask a b t Ha); [|lia].
  intros s' _. rewrite Hat, (bidx_id (dim2_0 y_in_block) b) by exact Hb.
  replace (0 <=? at2 y_in_block b t)%Z with false by (symmetry; apply Z.leb_gt; lia).
  apply andb_false_r.
Qed.

(** ** Empty sequences *)

Lemma ConvGLUEncoder_call_nonempty train rnd k0 n_layers nu width dr We be x y :
  Nat.odd width = true ->
  ConvGLUEncoder_call train rnd k0 (ConvGLUEncoder_init (S n_layers) nu width dr We be) x
  = Ok y ->
  1 <= dim3_2 x.
Proof.
  intros Hodd H. unfold ConvGLUEncoder_init in H.
  cbn [seq map ConvGLUEncoder_call] in H. inv_bind H.
  apply ConvGLU_call_inv in Ha as (_ & Hk & _).
  unfold ConvGLU_init in Hk. cbn [glu_conv conv_ksize conv_pad] in Hk.
  change (1 - 0) with 1 in Hk. apply odd_half in Hodd. lia.
Qed.

Lemma ConvGLUDecoder_call_nonempty train rnd k0 n_layers nu width dr Wd bd Wp bp
    x z ze mask y :
  ConvGLUDecoder_call train rnd k0
    (ConvGLUDecoder_init (S n_layers) nu width dr Wd bd Wp bp) x z ze mask = Ok y ->
  1 <= dim3_2 x.
Proof.
  unfold ConvGLUDecoder_call, ConvGLUDecoder_init. intros H.
  cbn [dec_convs dec_preatts seq map combine decoder_loop] in H. inv_bind H.
  pose proof (decoder_layer_inv _ _ _ _ _ _ _ _ _ _ Ha) as (_ & Hk).
  unfold decoder_layer in Ha. inv_bind Ha.
  apply ConvGLU_call_inv in Ha0 as (_ & Hk' & _).
  unfold concat_pad in Hk'. cbn [dim3_2] in Hk'. lia.
Qed.

(** A model with at least one layer raises on an empty source and on an
    empty target: the convolutions have no position to return. *)
Theorem empty_sequence_raises nl nsv ntv nu ml dr w xp train rnd
    x_block y_in_block y_out_block get_prediction :
  dim2_1 x_block = 0 \/ dim2_1 y_in_block = 0 ->
  exists e,
    Seq2seq_call (Seq2seq_init (S nl) nsv ntv nu ml dr w) xp train rnd
      x_block y_in_block y_out_block get_prediction = Err e.
Proof.
  intros Hempty.
  destruct (Seq2seq_call (Seq2seq_init (S nl) nsv ntv nu ml dr w) xp train rnd
              x_block y_in_block y_out_block get_prediction) as [out|e] eqn:H;
    [exfalso|eauto].
  unfold Seq2seq_call in H. apply bind_inv in H as (logits & H & _).
  unfold concat_pred, Seq2seq_init in H.
  cbn [embed_x embed_y embed_position_x embed_position_y encoder decoder W
       n_layers n_units max_length dropout] in H.
  apply bind_inv in H as (ex & Hex & H). apply bind_inv in H as (ey & Hey & H).
  apply bind_inv in H as (pb & Hpb & H).
  apply bind_inv in H as (px & Hpx & H). apply bind_inv in H as (py & Hpy & H).
  apply bind_inv in H as (ex2 & Hex2 & H). apply bind_inv in H as (ey2 & Hey2 & H).
  apply bind_inv in H as (z & Hz & H). apply bind_inv in H as (v & Hv & H).
  apply bind_inv in H as (ze & Hze & H). apply bind_inv in H as (mask & Hmask & H).
  apply bind_inv in H as (h & Hh & _).
  apply sentence_block_embed_at in Hex as (Sex & _).
  apply sentence_block_embed_at in Hey as (Sey & _).
  apply add3_inv in Hex2 as (_ & Sex2 & _). apply add3_inv in Hey2 as (_ & Sey2 & _).
  rewrite Sex in Sex2. rewrite Sey in Sey2.
  unfold shape3 in Sex2, Sey2. injection Sex2 as _ _ X2. injection Sey2 as _ _ Y2.
  apply ConvGLUEncoder_call_nonempty in Hz; [|reflexivity].
  apply ConvGLUDecoder_call_nonempty in Hh.
  lia.
Qed.

(** ** The rows of a batch do not mix *)

Lemma conv_at_row train rnd ratio cv b x x' o t :
  conv_in cv = dim3_1 x -> row_agree b x x' ->
  conv_at cv (dropped train rnd ratio x) b o t
  = conv_at cv (dropped train rnd ratio x') b o t.
Proof.
  intros Hin (Hs & Hx). unfold shape3 in Hs. injection Hs as S0 S1 S2.
  unfold conv_at. f_equal.
  apply sum_upto_ext. intros c Hc. apply sum_upto_ext. intros k Hk. f_equal.
  unfold padded.
  pose proof (dropped_shape train rnd ratio x) as D.
  pose proof (dropped_shape train rnd ratio x') as D'.
  unfold shape3 in D, D'. injection D as _ _ D2. injection D' as _ _ D2'.
  rewrite D2, D2', <- S2.
  destruct (t + k <? conv_pad cv) eqn:E1; [reflexivity|].
  destruct (conv_pad cv + dim3_2 x <=? t + k) eqn:E2; [reflexivity|].
  apply Nat.ltb_ge in E1. apply Nat.leb_gt in E2. cbn [orb].
  assert (E : at3 x b c (t + k - conv_pad cv) = at3 x' b c (t + k - conv_pad cv))
    by (apply Hx; lia).
  destruct train; cbn [dropped at3]; rewrite E; reflexivity.
Qed.

Lemma ConvGLU_call_row train rnd g b x x' y y' :
  ConvGLU_call train rnd g x = Ok y ->
  ConvGLU_call train rnd g x' = Ok y' ->
  row_agree b x x' -> row_agree b y y'.
Proof.
  intros H H' Hx.
  pose proof (ConvGLU_call_inv _ _ _ _ _ H) as (Hin & _ & Y0 & Y1 & Y2).
  pose proof (ConvGLU_call_inv _ _ _ _ _ H') as (_ & _ & Y0' & Y1' & Y2').
  pose proof Hx as (Hs & _). unfold shape3 in Hs. injection Hs as S0 S1 S2.
  split.
  - unfold shape3. congruence.
  - intros u l _ _.
    rewrite (ConvGLU_call_at _ _ _ _ _ H), (ConvGLU_call_at _ _ _ _ _ H').
    rewrite !(conv_at_row train rnd (glu_dropout g) (glu_conv g) b x x')
      by (try exact Hx; congruence).
    reflexivity.
Qed.

Lemma add3_row b x x' y y' s s' :
  add3 x y = Ok s -> add3 x' y' = Ok s' ->
  row_agree b x x' -> row_agree b y y' -> row_agree b s s'.
Proof.
  intros H H' (Sx & Hx) (Sy & Hy).
  apply add3_inv in H as (Syx & Ss & As). apply add3_inv in H' as (_ & Ss' & As').
  split; [congruence|].
  unfold shape3 in Ss, Syx. injection Ss as S0 S1 S2. injection Syx as T0 T1 T2.
  intros u l Hu Hl. rewrite As, As', Hx, Hy by lia. reflexivity.
Qed.

Lemma mul_scalar3_row b x x' c :
  row_agree b x x' -> row_agree b (mul_scalar3 x c) (mul_scalar3 x' c).
Proof.
  intros (Sx & Hx). split; [exact Sx|].
  cbn [mul_scalar3 dim3_1 dim3_2 at3]. intros u l Hu Hl.
  rewrite Hx by assumption. reflexivity.
Qed.

Lemma ConvGLUEncoder_call_row train rnd b layers :
  forall k0 x x' y y',
    ConvGLUEncoder_call train rnd k0 layers x = Ok y ->
    ConvGLUEncoder_call train rnd k0 layers x' = Ok y' ->
    row_agree b x x' -> row_agree b y y'.
Proof.
  induction layers as [|g rest IH]; intros k0 x x' y y' H H' Hx;
    cbn [ConvGLUEncoder_call] in H, H'.
  - inv_ok H. inv_ok H'. exact Hx.
  - apply bind_inv in H as (h & Hh & H). apply bind_inv in H' as (h' & Hh' & H').
    apply bind_inv in H as (s & Hs & H). apply bind_inv in H' as (s' & Hs' & H').
    eapply IH; [exact H | exact H' |].
    apply mul_scalar3_row.
    eapply add3_row; [exact Hs | exact Hs' | exact Hx |].
    eapply ConvGLU_call_row; eauto.
Qed.

Lemma attention_weights_row b query query' key key' mask mask' a a' :
  attention_weights query key mask = Ok a ->
  attention_weights query' key' mask' = Ok a' ->
  row_agree b query query' -> row_agree b key key' ->
  mask_row_agree b mask mask' ->
  forall t s, t < dim3_1 a -> s < dim3_2 a -> at3 a b t s = at3 a' b t s.
Proof.
  intros H H' (Sq & Hq) (Sk & Hk) (Sm & Hm) t s Ht Hs.
  rewrite (attention_weights_at _ _ _ _ H), (attention_weights_at _ _ _ _ H').
  apply attention_weights_inv in H as (Hsh & A0 & A1 & A2 & K0 & K1 & Kpos).
  unfold shape3 in Hsh, Sq, Sk, Sm.
  injection Hsh as S0 S1 S2. injection Sq as Q0 Q1 Q2.
  injection Sk as K0' K1' K2'. injection Sm as M0 M1 M2.
  cbv zeta. rewrite <- Q1, <- K2'.
  rewrite (softmax_row_ext (dim3_2 key) _
             (fun s' => if at3 mask' b t s'
                        then sum_upto (dim3_1 query)
                               (fun u => (at3 query' b u t * at3 key' b u s')%float)
                        else neg_infinity)); [reflexivity|exact Kpos| |lia].
  intros s' Hs'. rewrite <- (Hm t s') by lia.
  destruct (at3 mask b t s'); [|reflexivity].
  apply sum_upto_ext. intros u Hu. rewrite Hq, Hk by lia. reflexivity.
Qed.

Lemma attend_row b query query' key key' value value' mask mask' c c' :
  attend query key value mask = Ok c ->
  attend query' key' value' mask' = Ok c' ->
  b < dim3_0 query ->
  row_agree b query query' -> row_agree b key key' ->
  mask_row_agree b mask mask' -> value_row_agree b value value' ->
  row_agree b c c'.
Proof.
  intros H H' Hb Hq Hk Hm (V0 & V1 & V2 & V3 & V).
  pose proof (attend_inv _ _ _ _ _ H) as Sc.
  pose proof (attend_inv _ _ _ _ _ H') as Sc'.
  split; [congruence|].
  unfold shape3 in Sc. injection Sc as C0 C1 C2. rewrite C1, C2.
  intros u t Hu Ht.
  apply attend_at in H as (a & Ha & B0 & B1 & B2 & Hc).
  apply attend_at in H' as (a' & Ha' & B0' & B1' & B2' & Hc').
  rewrite Hc, Hc', <- V3.
  pose proof (attention_weights_row b _ _ _ _ _ _ _ _ Ha Ha' Hq Hk Hm) as Hw.
  destruct Hm as (Sm & _).
  apply attention_weights_inv in Ha as (Hsh & A0 & _).
  apply attention_weights_inv in Ha' as (Hsh' & _).
  unfold shape3 in Hsh, Hsh', Sm.
  injection Hsh as S0 S1 S2. injection Hsh' as S0' S1' S2'. injection Sm as M0 M1 M2.
  assert (D0 : dim3_0 a' = dim3_0 a) by congruence.
  assert (D1 : dim3_1 a' = dim3_1 a) by congruence.
  assert (D2 : dim3_2 a' = dim3_2 a) by congruence.
  apply sum_upto_ext. intros s Hs.
  rewrite D0, D1, D2.
  rewrite (bidx_id (dim3_0 a) b) by lia.
  rewrite Hw; [| eapply bidx_lt; eauto | eapply bidx_lt; eauto].
  rewrite V by assumption. reflexivity.
Qed.

Lemma decoder_layer_row b train rnd g p base_x base_x' z z' ze ze' mask mask' x x' y y' :
  decoder_layer train rnd g p base_x z ze mask x = Ok y ->
  decoder_layer train rnd g p base_x' z' ze' mask' x' = Ok y' ->
  b < dim3_0 x ->
  row_agree b x x' -> row_agree b z z' ->
  mask_row_agree b mask mask' -> value_row_agree b ze ze' ->
  row_agree b y y'.
Proof.
  intros H H' Hb Hx Hz Hm Hv.
  unfold decoder_layer in H, H'.
  apply bind_inv in H as (h & Hh & H). apply bind_inv in H' as (h' & Hh' & H').
  apply bind_inv in H as (s & Hs & H). apply bind_inv in H' as (s' & Hs' & H').
  apply bind_inv in H as (q & Hq & H). apply bind_inv in H' as (q' & Hq' & H').
  apply bind_inv in H as (c & Hc & H). apply bind_inv in H' as (c' & Hc' & H').
  apply bind_inv in H as (c2 & Hc2 & H). apply bind_inv in H' as (c2' & Hc2' & H').
  apply attention_query_eq in Hq, Hq'. subst q q'.
  assert (Hp : row_agree b (concat_pad x) (concat_pad x')).
  { destruct Hx as (Sx & Ax). unfold shape3 in Sx. injection Sx as X0 X1 X2.
    split.
    - unfold shape3, concat_pad. cbn [dim3_0 dim3_1 dim3_2]. congruence.
    - cbn [concat_pad dim3_1 dim3_2 at3]. intros u l Hu Hl.
      destruct (l <? 2) eqn:E; [reflexivity|].
      apply Nat.ltb_ge in E. apply Ax; lia. }
  assert (Hh1 : row_agree b h h') by (eapply ConvGLU_call_row; eauto).
  assert (Hs1 : row_agree b s s') by (eapply add3_row; eauto).
  assert (Hx1 : row_agree b (mul_scalar3 s scale) (mul_scalar3 s' scale))
    by (apply mul_scalar3_row; exact Hs1).
  pose proof (add3_inv _ _ _ Hs) as (_ & Ss & _).
  unfold shape3 in Ss. injection Ss as S0 S1 S2.
  assert (Hc1 : row_agree b c c').
  { eapply attend_row; [exact Hc | exact Hc' | | exact Hx1 | exact Hz | exact Hm | exact Hv].
    cbn [mul_scalar3 dim3_0]. lia. }
  assert (Hc3 : row_agree b c2 c2').
  { pose proof (mul_att_scale_inv _ _ _ Hc2) as Sc2.
    pose proof (mul_att_scale_inv _ _ _ Hc2') as Sc2'.
    destruct Hc1 as (Sc & Ac). split; [congruence|].
    unfold shape3 in Sc2. injection Sc2 as C0 C1 C2. rewrite C1, C2.
    intros u t Hu Ht.
    rewrite (mul_att_scale_at _ _ _ Hc2), (mul_att_scale_at _ _ _ Hc2').
    rewrite Ac by assumption.
    pose proof (attend_inv _ _ _ _ _ Hc) as Sa.
    pose proof (attend_at _ _ _ _ _ Hc) as (a & Ha & _).
    apply attention_weights_inv in Ha as (_ & A0 & A1 & _).
    cbn [mul_scalar3 dim3_0 dim3_2] in A0, A1.
    unfold shape3 in Sa. injection Sa as E0 E1 E2.
    pose proof (add3_inv _ _ _ H) as (Sxc & _).
    unfold shape3 in Sxc. cbn [mul_scalar3 dim3_0 dim3_1 dim3_2] in Sxc.
    injection Sxc as F0 F1 F2.
    destruct Hm as (Sm & Am). unfold shape3 in Sm. injection Sm as M0 M1 M2.
    rewrite <- M0, <- M1, <- M2.
    rewrite !bidx_id by lia.
    rewrite (count_upto_ext (dim3_2 mask) (at3 mask b t) (at3 mask' b t))
      by (intros s0 Hs0; apply Am; lia).
    reflexivity. }
  eapply add3_row; eauto.
Qed.

Lemma decoder_loop_row b train rnd links :
  forall k0 base_x base_x' z z' ze ze' mask mask' x x' y y',
    decoder_loop train rnd k0 links base_x z ze mask x = Ok y ->
    decoder_loop train rnd k0 links base_x' z' ze' mask' x' = Ok y' ->
    b < dim3_0 x ->
    row_agree b x x' -> row_agree b z z' ->
    mask_row_agree b mask mask' -> value_row_agree b ze ze' ->
    row_agree b y y'.
Proof.
  induction links as [|[g p] rest IH];
    intros k0 base_x base_x' z z' ze ze' mask mask' x x' y y' H H' Hb Hx Hz Hm Hv;
    cbn [decoder_loop] in H, H'.
  - inv_ok H. inv_ok H'. exact Hx.
  - apply bind_inv in H as (x1 & H1 & H). apply bind_inv in H' as (x1' & H1' & H').
    pose proof (decoder_layer_inv _ _ _ _ _ _ _ _ _ _ H1) as (S1 & _).
    unfold shape3 in S1. injection S1 as D0 _ _.
    eapply IH; [exact H | exact H' | lia | | exact Hz | exact Hm | exact Hv].
    eapply decoder_layer_row; [exact H1 | exact H1' | | | | |]; assumption.
Qed.

(** The embedding of row [b] of a block reads ids of row [b] only: the
    reshape moves values within a row, never across rows. *)
Lemma sentence_block_embed_row embed b x x' e e' :
  sentence_block_embed embed x = Ok e ->
  sentence_block_embed embed x' = Ok e' ->
  same_row b x x' -> row_agree b e e'.
Proof.
  intros H H' (X0 & X1 & Hx).
  apply sentence_block_embed_at in H as (Se & Ae).
  apply sentence_block_embed_at in H' as (Se' & Ae').
  split; [congruence|].
  unfold shape3 in Se. injection Se as E0 E1 E2. rewrite E1, E2.
  intros u l Hu Hl. rewrite Ae, Ae', X1.
  unfold flat2. rewrite X1.
  remember (emb_out embed) as U. remember (dim2_1 x) as L.
  remember ((b * U + u) * L + l) as f.
  assert (Hf : f / U / L = b).
  { rewrite Nat.Div0.div_div.
    replace f with (b * (U * L) + (u * L + l)) by lia.
    apply offset_div. nia. }
  assert (Hr : f / U mod L < L) by (apply Nat.mod_upper_bound; lia).
  rewrite Hf, Hx by lia. reflexivity.
Qed.

(** The logits of one sequence of a batch do not depend on the other
    sequences: two forward passes with the same random source on batches
    of the same shape that hold the same source and target ids in row
    [b] return the same logits for every position of row [b]. *)
Theorem logits_of_a_row_ignore_other_rows m xp train rnd
    x_block x_block' y_in_block y_in_block' logits logits' b :
  concat_pred m xp train rnd x_block y_in_block = Ok logits ->
  concat_pred m xp train rnd x_block' y_in_block' = Ok logits' ->
  dim2_0 x_block = dim2_0 y_in_block ->
  b < dim2_0 y_in_block ->
  same_row b x_block x_block' ->
  same_row b y_in_block y_in_block' ->
  forall t v, t < dim2_1 y_in_block ->
    at2 logits (b * dim2_1 y_in_block + t) v
    = at2 logits' (b * dim2_1 y_in_block + t) v.
Proof.
  intros H H' Hbatch Hb Hx Hy t v Ht.
  pose proof Hx as (X0 & X1 & Ax). pose proof Hy as (Y0 & Y1 & Ay).
  unfold concat_pred in H, H'. rewrite X1, Y0, Y1 in H'.
  apply bind_inv in H as (ex & Hex & H). apply bind_inv in H' as (ex' & Hex' & H').
  apply bind_inv in H as (ey & Hey & H). apply bind_inv in H' as (ey' & Hey' & H').
  apply bind_inv in H as (pb & Hpb & H). apply bind_inv in H' as (pb' & Hpb' & H').
  assert (pb' = pb) by congruence. subst pb'.
  apply bind_inv in H as (px & Hpx & H). apply bind_inv in H' as (px' & Hpx' & H').
  assert (px' = px) by congruence. subst px'.
  apply bind_inv in H as (py & Hpy & H). apply bind_inv in H' as (py' & Hpy' & H').
  assert (py' = py) by congruence. subst py'.
  apply bind_inv in H as (ex2 & Hex2 & H). apply bind_inv in H' as (ex2' & Hex2' & H').
  apply bind_inv in H as (ey2 & Hey2 & H). apply bind_inv in H' as (ey2' & Hey2' & H').
  apply bind_inv in H as (z & Hz & H). apply bind_inv in H' as (z' & Hz' & H').
  apply bind_inv in H as (v0 & Hv0 & H). apply bind_inv in H' as (v0' & Hv0' & H').
  apply bind_inv in H as (ze & Hze & H). apply bind_inv in H' as (ze' & Hze' & H').
  apply bind_inv in H as (mask & Hmask & H). apply bind_inv in H' as (mask' & Hmask' & H').
  apply bind_inv in H as (h & Hh & H). apply bind_inv in H' as (h' & Hh' & H').
  apply bind_inv in H as (u1 & Hg & H). apply bind_inv in H' as (u1' & Hg' & H').
  apply guard_inv in Hg. apply guard_inv in Hg'.
  assert (Rp : forall p, row_agree b p p) by (intros p; split; reflexivity).
  assert (Rex : row_agree b ex ex') by (eapply sentence_block_embed_row; eauto).
  assert (Rey : row_agree b ey ey') by (eapply sentence_block_embed_row; eauto).
  assert (Rex2 : row_agree b ex2 ex2') by (eapply add3_row; eauto).
  assert (Rey2 : row_agree b ey2 ey2') by (eapply add3_row; eauto).
  assert (Rz : row_agree b z z') by (eapply ConvGLUEncoder_call_row; eauto).
  assert (Rv : row_agree b v0 v0') by (eapply add3_row; eauto).
  (* the values and the mask *)
  pose proof (sentence_block_embed_at _ _ _ Hey) as (Sey & _).
  pose proof (add3_inv _ _ _ Hey2) as (_ & Sey2 & _).
  rewrite Sey in Sey2. unfold shape3 in Sey2. injection Sey2 as EY0 EY1 EY2.
  assert (Rze : value_row_agree b ze ze').
  { unfold broadcast_value in Hze, Hze'.
    apply bind_inv in Hze as (u2 & G & Hze). apply bind_inv in Hze' as (u2' & G' & Hze').
    apply guard_inv in G. inv_ok Hze. inv_ok Hze'.
    apply andb_prop in G as [G B2]. apply andb_prop in G as [B0 B1].
    destruct Rv as (Sv & Av). unfold shape3 in Sv. injection Sv as V0 V1 V2.
    repeat split. cbn [dim4_1 dim4_2 dim4_3 at4]. intros u t0 s Hu Ht0 Hs.
    rewrite <- V0, <- V1, <- V2.
    pose proof (sentence_block_embed_at _ _ _ Hex) as (Sex & _).
    pose proof (add3_inv _ _ _ Hex2) as (_ & Sex2 & _).
    pose proof (add3_inv _ _ _ Hv0) as (Sv0 & Sv0' & _).
    assert (D0 : dim3_0 v0 = dim2_0 x_block).
    { rewrite Sex in Sex2. unfold shape3 in Sex2, Sv0, Sv0'.
      injection Sex2 as ? ? ?. injection Sv0 as ? ? ?. injection Sv0' as ? ? ?. congruence. }
    rewrite (bidx_id (dim3_0 v0) b) by lia.
    apply Av; eapply bidx_lt; eauto. }
  assert (Rm : mask_row_agree b mask mask').
  { unfold make_mask in Hmask, Hmask'.
    apply bind_inv in Hmask as (u2 & _ & Hmask).
    apply bind_inv in Hmask' as (u2' & _ & Hmask').
    inv_ok Hmask. inv_ok Hmask'. split.
    - unfold shape3. cbn [dim3_0 dim3_1 dim3_2]. congruence.
    - cbn [dim3_1 dim3_2 at3]. intros t0 s Ht0 Hs.
      rewrite X0, Y0, !bidx_id by lia.
      rewrite Ax, Ay by assumption. reflexivity. }
  assert (Rh : row_agree b h h').
  { unfold ConvGLUDecoder_call in Hh, Hh'.
    eapply decoder_loop_row;
      [exact Hh | exact Hh' | lia | exact Rey2 | exact Rz | exact Rm | exact Rze]. }
  (* the output link *)
  apply andb_prop in Hg as [Hg G2]. apply andb_prop in Hg as [G0 G1].
  apply Nat.eqb_eq in G0, G1, G2.
  destruct Rh as (_ & Ah).
  apply bind_inv in H as (c & Hc & H). apply bind_inv in H' as (c' & Hc' & H').
  apply F_dropout2_inv in Hc as (_ & ->). apply F_dropout2_inv in Hc' as (_ & ->).
  unfold Linear_call in H, H'.
  apply bind_inv in H as (u3 & G3 & H). apply bind_inv in H' as (u3' & _ & H').
  apply guard_inv in G3. apply Nat.eqb_eq in G3.
  rewrite (proj2 (dropped2_dims _ _ _ _)) in G3. cbn [dim2_1] in G3.
  inv_ok H. inv_ok H'. cbn [at2]. f_equal.
  apply sum_upto_ext. intros u Hu. f_equal.
  assert (E : forall r, r = b * dim2_1 y_in_block + t ->
              at3 h (r / dim2_1 y_in_block) u (r mod dim2_1 y_in_block)
              = at3 h' (r / dim2_1 y_in_block) u (r mod dim2_1 y_in_block)).
  { intros r ->. rewrite offset_div, offset_mod by exact Ht. apply Ah; lia. }
  destruct train; cbn [dropped2 at2]; rewrite E by reflexivity; reflexivity.
Qed.

(** ** A dropout ratio that [F.dropout] rejects *)

(** In train mode the forward pass of a model whose dropout ratio is
    not in [0, 1) raises on every input, on both paths: if nothing
    raises before, the [F.dropout] in front of the output link does. *)
Theorem forward_raises_on_invalid_ratio m xp rnd x_block y_in_block y_out_block
    get_prediction :
  valid_ratio (dropout m) = false ->
  exists e,
    Seq2seq_call m xp true rnd x_block y_in_block y_out_block get_prediction = Err e.
Proof.
  intros Hr. unfold Seq2seq_call.
  destruct (concat_pred m xp true rnd x_block y_in_block) as [logits|e] eqn:H;
    [exfalso|cbn [bind]; eauto].
  unfold concat_pred in H.
  do 13 (apply bind_inv in H; destruct H as (? & _ & H)).
  apply bind_inv in H as (c & Hc & _).
  apply F_dropout2_inv in Hc as (Hc & _).
  unfold dropout_ok in Hc. cbn [negb orb] in Hc. congruence.
Qed.

End Net.

(** * Runs on concrete inputs *)

(** Stand-ins for the functions of the array library, used to run the
    model: each propagates NaN as the function it stands for does. *)
Definition approx_exp (x : float) : float :=
  let y := (1 + x / 8)%float in
  let y2 := (y * y)%float in
  let y4 := (y2 * y2)%float in
  (y4 * y4)%float.

Definition approx_log (x : float) : float := (2 * (x - 1) / (x + 1))%float.

Definition approx_sigmoid (x : float) : float :=
  (0.5 + x / (2 * (1 + abs x)))%float.


(** The logits of a forward pass, as an array. *)
Definition logits_of (r : result (arr2 float)) : arr2 float :=
  match r with
  | Ok l => l
  | Err _ => Arr2 0 0 (fun _ _ => zero)
  end.

Lemma nan_add_r x y : is_nan y = true -> is_nan (x + y) = true.
Proof.
  intros H. apply is_nan_SF in H. apply is_nan_SF.
  rewrite add_spec, H. destruct (Prim2SF x); reflexivity.
Qed.

Lemma nan_mul x : is_nan x = true -> is_nan (x * x) = true.
Proof.
  intros H. apply is_nan_SF in H. apply is_nan_SF.
  rewrite mul_spec, H. reflexivity.
Qed.

Lemma approx_exp_nan x : is_nan x = true -> is_nan (approx_exp x) = true.
Proof.
  intros H. unfold approx_exp.
  do 3 apply nan_mul. apply nan_add_r, nan_div, H.
Qed.

(** C1, witness: a fully masked row with finite values gives a zero
    context. *)
Lemma attend_masked_row_zero_witness :
  exists c,
    attend approx_exp masked_query masked_key finite_value masked_mask = Ok c /\
    is_zero (at3 c 0 0 0) = true /\ is_nan (at3 c 0 0 0) = false.
Proof.
  eexists. split; [reflexivity|].
  apply (@attend_masked_row_zero approx_exp approx_exp_nan
           masked_query masked_key finite_value masked_mask _ 0 0 0).
  - reflexivity.
  - simpl; lia.
  - simpl; lia.
  - intros s _. reflexivity.
  - intros s Hs. simpl in Hs.
    destruct s as [|[|s]]; [reflexivity | reflexivity | lia].
Defined.

(** C1, counterexample: the same fully masked row with infinite values.
    The weights are zero, and 0 * inf is NaN: the context is NaN.  ([exp]
    is applied to NaN only, where the stand-in agrees with it.) *)
Lemma attend_masked_row_nan :
  exists c,
    attend approx_exp masked_query masked_key infinite_value masked_mask = Ok c /\
    (forall s, s < dim3_2 masked_mask -> at3 masked_mask 0 0 s = false) /\
    is_nan (at3 c 0 0 0) = true /\ is_zero (at3 c 0 0 0) = false.
Proof.
  eexists. split; [reflexivity|]. split; [intros; reflexivity|].
  split; vm_compute; reflexivity.
Qed.

(** C3, the failing input: [short_model] has [max_length] 2; on numpy a
    source of length 3 makes the forward pass raise. *)
Lemma overlong_call_raises_on_numpy_witness :
  exists e,
    Seq2seq_call approx_exp approx_log approx_sigmoid short_model Numpy false no_rng
      (block_of_rows 3 [[1; 2; 1]]%Z) source_1 source_1 true = Err e.
Proof.
  apply overlong_call_raises_on_numpy. simpl. lia.
Defined.

Example overlong_call_numpy_error :
  Seq2seq_call approx_exp approx_log approx_sigmoid short_model Numpy false no_rng
    (block_of_rows 3 [[1; 2; 1]]%Z) source_1 source_1 true = Err ValueError.
Proof. reflexivity. Qed.

(** The same call on cupy goes through, with the position indices
    0, 1, 1. *)
Example overlong_call_cupy :
  (exists a, position_block Cupy 2 1 3 = Ok a /\ to_list2 (nd_data a) = [[0; 1; 1]]%Z)
  /\ exists p,
       Seq2seq_call approx_exp approx_log approx_sigmoid short_model Cupy false no_rng
         (block_of_rows 3 [[1; 2; 1]]%Z) source_1 source_1 true = Ok (Prediction p).
Proof.
  split; eexists; [split|]; reflexivity.
Qed.

(** C4, counterexample: in train mode (chainer's default, which
    [translate] does not change) two calls with the same parameters and
    the same source return different sequences when the dropout samples
    differ.  The model has no layers: [exp] and the logistic function are
    never applied. *)
Lemma translate_differs_in_train_mode :
  translate approx_exp approx_log approx_sigmoid dropout_model Numpy true
    (fun _ => keep_all) (SourceBlock source_1) 1 = Ok [[2%Z]]
  /\
  translate approx_exp approx_log approx_sigmoid dropout_model Numpy true
    (fun _ => drop_all) (SourceBlock source_1) 1 = Ok [[1%Z]].
Proof.
  split; vm_compute; reflexivity.
Qed.

(** C6, witness: a model whose first decoded id is the end-of-sequence
    id returns the placeholder [1] for the row [0] it decoded. *)
Lemma translate_outputs_nonempty_witness :
  translate approx_exp approx_log approx_sigmoid short_model Numpy false
    (fun _ => no_rng) (SourceList [[1%Z]]) 5 = Ok [[1%Z]]
  /\
  exists x results,
    source_block (SourceList [[1%Z]]) = Ok x /\
    greedy_loop approx_exp approx_log approx_sigmoid short_model Numpy false
      (fun _ => no_rng) x 5 0
      (Arr2 (dim2_0 x) 1 (fun _ _ => 0%Z)) (repeat 0 (dim2_0 x)) [] = Ok results /\
    results <> [] /\
    [[1%Z]] = map cut_or_placeholder (decoded_rows (dim2_0 x) results) /\
    Forall (fun y => 1 <= List.length y /\ ~ In 0%Z y) [[1%Z]].
Proof.
  split; [vm_compute; reflexivity|].
  apply (@translate_outputs_nonempty approx_exp approx_log approx_sigmoid
           short_model Numpy false (fun _ => no_rng) (SourceList [[1%Z]]) 5).
  vm_compute. reflexivity.
Defined.

(** The row decoded there, and a row that is cut at its first 0. *)
Example translate_decodes_eos_first :
  exists x results,
    source_block (SourceList [[1%Z]]) = Ok x /\
    greedy_loop approx_exp approx_log approx_sigmoid short_model Numpy false
      (fun _ => no_rng) x 5 0
      (Arr2 (dim2_0 x) 1 (fun _ _ => 0%Z)) (repeat 0 (dim2_0 x)) [] = Ok results /\
    decoded_rows (dim2_0 x) results = [[0%Z]] /\
    cut_or_placeholder [3; 2; 0; 4; 0]%Z = [3; 2]%Z.
Proof.
  eexists. eexists. split; [reflexivity|]. split; [vm_compute; reflexivity|].
  split; reflexivity.
Qed.

Example translate_two_steps :
  translate approx_exp approx_log approx_sigmoid dropout_model Numpy false
    (fun _ => no_rng) (SourceBlock source_1) 2 = Ok [[2; 2]]%Z.
Proof. vm_compute. reflexivity. Qed.



(** When every target is ignored the mean of the specification is the
    zero -0.0 and the loss returned is +0.0. *)
Example Seq2seq_loss_zero_sign :
  exists logits,
    concat_pred approx_exp approx_sigmoid dropout_model Numpy false no_rng
      train_x train_y_in = Ok logits /\
    mean_cross_entropy approx_exp approx_log logits 2 (flat2 ignored_y_out) = neg_zero /\
    Seq2seq_call approx_exp approx_log approx_sigmoid dropout_model Numpy false no_rng
      train_x train_y_in ignored_y_out false
    = Ok (Loss zero [("loss"%string, zero); ("perp"%string, one)]).
Proof.
  eexists. split; [reflexivity|]. split; vm_compute; reflexivity.
Qed.

(** C10, counterexample: a decoder without layers returns its input,
    and so keeps the length, for [width] 7, whose kernel width is 4. *)
Lemma decoder_without_layers_keeps_length :
  ConvGLUDecoder_call approx_exp approx_sigmoid false no_rng 0
    (ConvGLUDecoder_init 0 2 7 0.5 (fun _ _ _ _ => one) (fun _ _ => zero)
                         (fun _ _ _ => one) (fun _ _ => zero))
    demo_state demo_z demo_ze demo_mask = Ok demo_state
  /\ dim3_2 demo_state = 3 /\ 7 / 2 + 1 = 4.
Proof.
  repeat split.
Qed.

(** C10, witness: one layer built with [width] 5 on operands that fit. *)
Lemma decoder_keeps_length_witness :
  dropout_ok true 0.5 = true /\
  exists y,
    ConvGLUDecoder_call approx_exp approx_sigmoid true keep_all 0
      (ConvGLUDecoder_init 1 2 5 0.5 (fun _ _ _ _ => one) (fun _ _ => zero)
                           (fun _ _ _ => one) (fun _ _ => zero))
      demo_state demo_z demo_ze demo_mask = Ok y
    /\ dim3_2 y = dim3_2 demo_state.
Proof.
  split; [reflexivity|].
  apply (proj1 (proj2 (proj2
           (@decoder_keeps_length approx_exp approx_sigmoid 0 2 5 0.5%float
              (fun _ _ _ _ => one) (fun _ _ => zero) (fun _ _ _ => one) (fun _ _ => zero)
              true keep_all 0 demo_state demo_z demo_ze demo_mask)))).
  - reflexivity.
  - reflexivity.
  - unfold decoder_operands. simpl. repeat split; lia.
Defined.

(** C2 (the code diverges from the claim): the target prefixes [0; 1] and
    [0; 2] agree at position 0, and the logits of position 0 differ.  The
    embedded target block holds, at position 0, component 0 of the
    embedding of the id at position 0 in unit 0 and component 0 of the
    embedding of the id at position 1 in unit 1.  The model has no
    layers: [exp] and the logistic function are never applied. *)
Theorem logits_depend_on_later_target :
  at2 target_0_1 0 0 = at2 target_0_2 0 0
  /\
  (exists e e',
      sentence_block_embed (embed_y causal_model) target_0_1 = Ok e /\
      sentence_block_embed (embed_y causal_model) target_0_2 = Ok e' /\
      to_list3 e = [[[0; 1]; [10; 11]]]%float /\
      to_list3 e' = [[[0; 1]; [20; 21]]]%float)
  /\
  (exists p p',
      Seq2seq_call approx_exp approx_log approx_sigmoid causal_model Numpy false no_rng
        source_1 target_0_1 target_0_1 true = Ok (Prediction p) /\
      Seq2seq_call approx_exp approx_log approx_sigmoid causal_model Numpy false no_rng
        source_1 target_0_2 target_0_2 true = Ok (Prediction p') /\
      tabulate 3 (at3 p 0 0) = [10; 10; 10]%float /\
      tabulate 3 (at3 p' 0 0) = [20; 20; 20]%float).
Proof.
  split; [reflexivity|]. split.
  - eexists. eexists. split; [reflexivity|]. split; [reflexivity|].
    split; vm_compute; reflexivity.
  - eexists. eexists. split; [reflexivity|]. split; [reflexivity|].
    split; vm_compute; reflexivity.
Qed.

(** A decoder layer on states of lengths 3 and 2 that agree at positions
    0 and 1: both calls succeed and the outputs agree there. *)
Lemma ConvGLUDecoder_causal_witness :
  exists y y',
    ConvGLUDecoder_call approx_exp approx_sigmoid false no_rng 0 demo_decoder
      demo_state demo_z demo_ze demo_mask = Ok y /\
    ConvGLUDecoder_call approx_exp approx_sigmoid false no_rng 0 demo_decoder
      demo_state_short demo_z demo_ze_short demo_mask_short = Ok y' /\
    at3 y 0 1 1 = at3 y' 0 1 1.
Proof.
  destruct (@ConvGLUDecoder_call_ok approx_exp approx_sigmoid 1 2 5 0.5%float
              (fun _ _ _ _ => 0.25%float) (fun _ _ => zero)
              (fun _ _ _ => one) (fun _ _ => zero)
              false no_rng 0 demo_state demo_z demo_ze demo_mask)
    as (y & Hy & Sy);
    [reflexivity | reflexivity | unfold decoder_operands; simpl; repeat split; lia |].
  destruct (@ConvGLUDecoder_call_ok approx_exp approx_sigmoid 1 2 5 0.5%float
              (fun _ _ _ _ => 0.25%float) (fun _ _ => zero)
              (fun _ _ _ => one) (fun _ _ => zero)
              false no_rng 0 demo_state_short demo_z demo_ze_short demo_mask_short)
    as (y' & Hy' & _);
    [reflexivity | reflexivity | unfold decoder_operands; simpl; repeat split; lia |].
  exists y, y'. split; [exact Hy|]. split; [exact Hy'|].
  unfold shape3 in Sy. injection Sy as Y0 Y1 _.
  apply (@ConvGLUDecoder_causal approx_exp approx_sigmoid 1 2 5 0.5%float
           (fun _ _ _ _ => 0.25%float) (fun _ _ => zero)
           (fun _ _ _ => one) (fun _ _ => zero)
           false no_rng 0 2 demo_state demo_state_short demo_z
           demo_ze demo_ze_short demo_mask demo_mask_short y y' Hy Hy').
  - unfold agree_before. simpl. repeat split; lia.
  - unfold mask_agree_before. simpl. repeat split; lia.
  - unfold value_agree_before. simpl. repeat split; lia.
  - rewrite Y0. simpl. lia.
  - rewrite Y1. simpl. lia.
  - lia.
Defined.

(** * Runs for the further properties *)

(** Ids of a block given by its rows are checked row by row. *)
Ltac check_ids :=
  let i := fresh "i" in
  let j := fresh "j" in
  let Hi := fresh "Hi" in
  let Hj := fresh "Hj" in
  intros i j Hi Hj; cbn in Hi, Hj;
  repeat (destruct i as [|i]; [|try lia]);
  repeat (destruct j as [|j]; [|try lia]);
  cbn; lia.

Lemma seq_linear_positionwise_witness :
  exists r,
    seq_linear demo_linear demo_state = Ok r /\
    to_list3 r = [[[7; 15; 23]; [11; 23; 35]]]%float /\
    lin_out demo_linear = dim3_1 demo_state /\
    at3 r 0 1 2 =
    (sum_upto 2 (fun c => at3 demo_state 0 c 2 * lin_W demo_linear 1 c)
     + lin_b demo_linear 1)%float.
Proof.
  eexists. split; [reflexivity|]. split; [vm_compute; reflexivity|].
  refine (proj2 (proj2 (seq_linear_positionwise demo_linear demo_state _ _)) 0 1 2 _ _ _).
  - reflexivity.
  - simpl; lia.
  - simpl; lia.
  - simpl; lia.
Defined.

Lemma sentence_block_embed_positionwise_witness :
  exists e,
    sentence_block_embed (embed_y causal_model) (block_of_rows 1 [[1]; [2]]%Z) = Ok e /\
    to_list3 e = [[[10]; [11]]; [[20]; [21]]]%float /\
    at3 e 1 1 0 = embed_at (embed_y causal_model) 2 1.
Proof.
  eexists. split; [reflexivity|]. split; [vm_compute; reflexivity|].
  refine (sentence_block_embed_positionwise (embed_y causal_model)
            (block_of_rows 1 [[1]; [2]]%Z) _ _ _ 1 1 0 _ _ _).
  - reflexivity.
  - left. reflexivity.
  - simpl; lia.
  - simpl; lia.
  - simpl; lia.
Defined.

Lemma ConvGLUEncoder_odd_width_runs_witness :
  exists y,
    ConvGLUEncoder_call approx_sigmoid true keep_all 0
      (ConvGLUEncoder_init 3 2 5 0.5 (fun _ _ _ _ => one) (fun _ _ => zero))
      demo_state = Ok y
    /\ shape3 y = shape3 demo_state.
Proof.
  apply (@ConvGLUEncoder_odd_width_runs approx_sigmoid).
  - reflexivity.
  - reflexivity.
  - reflexivity.
  - simpl; lia.
Defined.

Lemma ConvGLUEncoder_even_width_raises_witness :
  exists e,
    ConvGLUEncoder_call approx_sigmoid false no_rng 0
      (ConvGLUEncoder_init 1 2 4 0.5 (fun _ _ _ _ => one) (fun _ _ => zero))
      demo_state = Err e.
Proof.
  apply (@ConvGLUEncoder_even_width_raises approx_sigmoid);
    [reflexivity | simpl; lia].
Defined.

Lemma scenario_well_formed : well_formed_input 5 7 8 scenario_x scenario_y_in.
Proof.
  unfold well_formed_input.
  repeat match goal with |- _ /\ _ => split end;
    try (cbn; lia); try reflexivity; check_ids.
Qed.

Lemma forward_runs_on_well_formed_input_witness :
  exists p,
    Seq2seq_call approx_exp approx_log approx_sigmoid scenario_model Numpy true keep_all
      scenario_x scenario_y_in scenario_y_out true = Ok (Prediction p) /\
    shape3 p = (1, 3, 7).
Proof.
  apply (@forward_runs_on_well_formed_input approx_exp approx_log approx_sigmoid
           1 5 7 2 8 0.5%float (const_weights 0.125) Numpy true keep_all
           scenario_x scenario_y_in scenario_y_out).
  - reflexivity.
  - exact scenario_well_formed.
Defined.

Lemma loss_runs_on_well_formed_input_witness :
  exists loss,
    Seq2seq_call approx_exp approx_log approx_sigmoid scenario_model Numpy true keep_all
      scenario_x scenario_y_in scenario_y_out false
    = Ok (Loss loss [("loss"%string, loss); ("perp"%string, approx_exp loss)]).
Proof.
  apply (@loss_runs_on_well_formed_input approx_exp approx_log approx_sigmoid
           1 5 7 2 8 0.5%float (const_weights 0.125) Numpy true keep_all
           scenario_x scenario_y_in scenario_y_out).
  - reflexivity.
  - exact scenario_well_formed.
  - reflexivity.
  - check_ids.
Defined.

Lemma translate_output_sizes_witness :
  1 <= 2 /\
  List.length [[2; 2]]%Z = source_rows (SourceBlock source_1) /\
  Forall (fun y : list Z => List.length y <= 2) [[2; 2]]%Z.
Proof.
  apply (@translate_output_sizes approx_exp approx_log approx_sigmoid
           dropout_model Numpy false (fun _ => no_rng) (SourceBlock source_1) 2).
  vm_compute. reflexivity.
Defined.

Lemma translate_runs_on_well_formed_source_witness :
  exists outs,
    translate approx_exp approx_log approx_sigmoid scenario_model Cupy true
      (fun _ => keep_all) (SourceBlock scenario_x) 3 = Ok outs /\
    List.length outs = dim2_0 scenario_x /\
    Forall (fun y => 1 <= List.length y <= 3 /\ ~ In 0%Z y) outs.
Proof.
  apply (@translate_runs_on_well_formed_source approx_exp approx_log approx_sigmoid
           1 5 7 2 8 0.5%float (const_weights 0.125) Cupy true (fun _ => keep_all)
           scenario_x 3).
  - reflexivity.
  - lia.
  - lia.
  - cbn; lia.
  - check_ids.
  - lia.
Defined.

Lemma forward_clamps_positions_on_cupy_witness :
  (exists a,
      position_block Cupy 2 1 3 = Ok a /\
      forall i j, j < 3 -> at2 (nd_data a) i j = Z.of_nat (Nat.min j (2 - 1)))
  /\
  exists p,
    Seq2seq_call approx_exp approx_log approx_sigmoid short_model Cupy false no_rng
      (block_of_rows 3 [[1; 2; 1]]%Z) source_1 source_1 true = Ok (Prediction p) /\
    shape3 p = (1, 1, 3).
Proof.
  apply (@forward_clamps_positions_on_cupy approx_exp approx_log approx_sigmoid
           0 3 3 1 2 0.5%float (const_weights one) false no_rng
           (block_of_rows 3 [[1; 2; 1]]%Z) source_1 source_1);
    try (cbn; lia); try reflexivity; check_ids.
Defined.

Lemma attention_weights_never_nan_witness :
  exists a,
    attention_weights approx_exp masked_query masked_key masked_mask = Ok a /\
    is_nan (at3 a 0 0 1) = false.
Proof.
  eexists. split; [reflexivity|].
  apply (@attention_weights_never_nan approx_exp masked_query masked_key masked_mask).
  reflexivity.
Defined.

Lemma loss_of_ignored_targets_witness :
  exists logits loss reported,
    concat_pred approx_exp approx_sigmoid dropout_model Numpy false no_rng
      train_x train_y_in = Ok logits /\
    finite_where_ignored approx_exp approx_log logits
      (dim2_0 train_y_in * dim2_1 train_y_in) (flat2 ignored_y_out) /\
    Seq2seq_call approx_exp approx_log approx_sigmoid dropout_model Numpy false no_rng
      train_x train_y_in ignored_y_out false = Ok (Loss loss reported) /\
    (loss = zero \/ is_nan loss = true) /\ loss = zero.
Proof.
  assert (Hc : exists loss reported,
             Seq2seq_call approx_exp approx_log approx_sigmoid dropout_model Numpy false
               no_rng train_x train_y_in ignored_y_out false = Ok (Loss loss reported))
    by (eexists; eexists; vm_compute; reflexivity).
  destruct Hc as (loss & reported & Hc).
  destruct (@concat_pred_ok approx_exp approx_sigmoid 0 3 3 1 4 0.5%float
              dropout_weights Numpy false no_rng train_x train_y_in)
    as (logits & Hl & _).
  { reflexivity. }
  { unfold well_formed_input.
    repeat match goal with |- _ /\ _ => split end;
      try (cbn; lia); try reflexivity; check_ids. }
  assert (Hf : finite_where_ignored approx_exp approx_log logits
                 (dim2_0 train_y_in * dim2_1 train_y_in) (flat2 ignored_y_out)).
  { assert (E : logits =
                logits_of (concat_pred approx_exp approx_sigmoid dropout_model Numpy false
                             no_rng train_x train_y_in))
      by (unfold dropout_model; rewrite Hl; reflexivity).
    rewrite E. intros p Hp Ht. cbn in Hp.
    destruct p as [|[|p]]; [vm_compute; reflexivity | vm_compute; reflexivity | lia]. }
  exists logits, loss, reported.
  split; [exact Hl|]. split; [exact Hf|]. split; [exact Hc|].
  destruct (@loss_of_ignored_targets approx_exp approx_log approx_sigmoid
              dropout_model Numpy false no_rng train_x train_y_in ignored_y_out
              loss reported Hc ltac:(check_ids)) as (H1 & H2).
  split; [exact H1|]. exact (H2 logits Hl Hf).
Defined.

Lemma loss_is_cross_entropy_of_prediction_witness :
  exists p loss reported,
    Seq2seq_call approx_exp approx_log approx_sigmoid dropout_model Numpy false no_rng
      train_x train_y_in train_y_out true = Ok (Prediction p) /\
    Seq2seq_call approx_exp approx_log approx_sigmoid dropout_model Numpy false no_rng
      train_x train_y_in train_y_out false = Ok (Loss loss reported) /\
    loss =
    F_sum
      (softmax_cross_entropy_forward approx_exp approx_log Numpy
         (Arr2 (dim2_0 train_y_in * dim2_1 train_y_in) (n_target_vocab dropout_model)
               (fun r v => at3 p (r / dim2_1 train_y_in) (r mod dim2_1 train_y_in) v))
         (dim2_0 train_y_in * dim2_1 train_y_in) (flat2 train_y_out)).
Proof.
  destruct (@prediction_ok approx_exp approx_log approx_sigmoid
              0 3 3 1 4 0.5%float dropout_weights Numpy false no_rng
              train_x train_y_in train_y_out) as (logits & p & _ & Hp & _).
  { reflexivity. }
  { unfold well_formed_input.
    repeat match goal with |- _ /\ _ => split end;
      try (cbn; lia); try reflexivity; check_ids. }
  assert (Hc : exists loss reported,
             Seq2seq_call approx_exp approx_log approx_sigmoid dropout_model Numpy false
               no_rng train_x train_y_in train_y_out false = Ok (Loss loss reported))
    by (eexists; eexists; vm_compute; reflexivity).
  destruct Hc as (loss & reported & Hc).
  exists p, loss, reported.
  split; [exact Hp|]. split; [exact Hc|].
  exact (@loss_is_cross_entropy_of_prediction approx_exp approx_log approx_sigmoid
           dropout_model Numpy false no_rng train_x train_y_in train_y_out
           p loss reported Hp Hc).
Defined.


Lemma att_scale_counts_source_witness :
  exists mask,
    make_mask scenario_x padded_y_in = Ok mask /\
    at2 (att_scale mask) 0 0 = sqrt (of_nat 2) /\
    at2 (att_scale mask) 0 1 = zero.
Proof.
  eexists. split; [reflexivity|]. split.
  - eapply (@att_scale_counts_source scenario_x padded_y_in _ 0 0);
      [reflexivity | cbn; lia | cbn; lia].
  - eapply (@att_scale_counts_source scenario_x padded_y_in _ 0 1);
      [reflexivity | cbn; lia | cbn; lia].
Defined.

Lemma padded_target_attends_nothing_witness :
  exists mask a,
    make_mask train_x padded_y_in = Ok mask /\
    attention_weights approx_exp padded_query masked_key mask = Ok a /\
    (at2 padded_y_in 0 1 < 0)%Z /\
    forall s, s < dim2_1 train_x -> at3 a 0 1 s = zero.
Proof.
  eexists. eexists. split; [reflexivity|]. split; [reflexivity|].
  split; [reflexivity|].
  eapply (@padded_target_attends_nothing approx_exp approx_exp_nan
            train_x padded_y_in _ padded_query masked_key _ 0 1);
    [reflexivity | reflexivity | cbn; lia | reflexivity].
Defined.

Lemma empty_sequence_raises_witness :
  (exists e,
      Seq2seq_call approx_exp approx_log approx_sigmoid scenario_model Numpy false no_rng
        empty_block scenario_y_in scenario_y_out true = Err e)
  /\
  exists e,
    Seq2seq_call approx_exp approx_log approx_sigmoid scenario_model Numpy false no_rng
      scenario_x empty_block empty_block true = Err e.
Proof.
  split.
  - apply (@empty_sequence_raises approx_exp approx_log approx_sigmoid
             0 5 7 2 8 0.5%float (const_weights 0.125) Numpy false no_rng
             empty_block scenario_y_in scenario_y_out true).
    left. reflexivity.
  - apply (@empty_sequence_raises approx_exp approx_log approx_sigmoid
             0 5 7 2 8 0.5%float (const_weights 0.125) Numpy false no_rng
             scenario_x empty_block empty_block true).
    right. reflexivity.
Defined.


Lemma logits_of_a_row_ignore_other_rows_witness :
  exists logits logits',
    concat_pred approx_exp approx_sigmoid scenario_model Numpy true keep_all
      batch_x batch_y = Ok logits /\
    concat_pred approx_exp approx_sigmoid scenario_model Numpy true keep_all
      batch_x' batch_y' = Ok logits' /\
    forall t v, t < dim2_1 batch_y ->
      at2 logits (1 * dim2_1 batch_y + t) v = at2 logits' (1 * dim2_1 batch_y + t) v.
Proof.
  destruct (@concat_pred_ok approx_exp approx_sigmoid 1 5 7 2 8 0.5%float
              (const_weights 0.125) Numpy true keep_all batch_x batch_y)
    as (logits & Hl & _).
  { reflexivity. }
  { unfold well_formed_input.
    repeat match goal with |- _ /\ _ => split end;
      try (cbn; lia); try reflexivity; check_ids. }
  destruct (@concat_pred_ok approx_exp approx_sigmoid 1 5 7 2 8 0.5%float
              (const_weights 0.125) Numpy true keep_all batch_x' batch_y')
    as (logits' & Hl' & _).
  { reflexivity. }
  { unfold well_formed_input.
    repeat match goal with |- _ /\ _ => split end;
      try (cbn; lia); try reflexivity; check_ids. }
  exists logits, logits'. split; [exact Hl|]. split; [exact Hl'|].
  apply (@logits_of_a_row_ignore_other_rows approx_exp approx_sigmoid
           scenario_model Numpy true keep_all batch_x batch_x' batch_y batch_y'
           logits logits' 1 Hl Hl').
  - reflexivity.
  - cbn. lia.
  - split; [reflexivity|]. split; [reflexivity|].
    intros j Hj. cbn in Hj.
    destruct j as [|[|j]]; [reflexivity | reflexivity | lia].
  - split; [reflexivity|]. split; [reflexivity|].
    intros j Hj. cbn in Hj.
    destruct j as [|[|j]]; [reflexivity | reflexivity | lia].
Defined.


Lemma ConvGLU_nopad_length_witness :
  (exists e,
      ConvGLU_call approx_sigmoid false (fun _ _ _ => zero)
        (ConvGLU_init 2 3 0.5 true (fun _ _ _ => one) (fun _ => zero))
        demo_state_short = Err e)
  /\
  forall y,
    ConvGLU_call approx_sigmoid false (fun _ _ _ => zero)
      (ConvGLU_init 2 3 0.5 true (fun _ _ _ => one) (fun _ => zero))
      demo_state = Ok y ->
    3 <= dim3_2 demo_state /\ dim3_2 y + 3 = dim3_2 demo_state + 1.
Proof.
  split.
  - apply (proj2 (@ConvGLU_nopad_length approx_sigmoid 2 3 0.5%float
                    (fun _ _ _ => one) (fun _ => zero) false (fun _ _ _ => zero)
                    demo_state_short)).
    cbn. lia.
  - apply (proj1 (@ConvGLU_nopad_length approx_sigmoid 2 3 0.5%float
                    (fun _ _ _ => one) (fun _ => zero) false (fun _ _ _ => zero)
                    demo_state)).
Defined.

Lemma remove_eos_idempotent_witness :
  remove_eos (remove_eos [3; 0; 2; 0]%Z) = remove_eos [3; 0; 2; 0]%Z /\
  remove_eos [3; 2]%Z = [3; 2]%Z.
Proof.
  split.
  - apply (proj1 (remove_eos_idempotent [3; 0; 2; 0]%Z)).
  - apply (proj2 (remove_eos_idempotent [3; 2]%Z)).
    + discriminate.
    + cbn. intros [H|[H|H]]; [discriminate | discriminate | exact H].
Defined.

Lemma translate_raises_on_nothing_witness :
  translate approx_exp approx_log approx_sigmoid scenario_model Numpy false
    (fun _ => no_rng) (SourceList [[2; 3]%Z]) 0 = Err ValueError.
Proof.
  apply (proj1 (proj2 (@translate_raises_on_nothing approx_exp approx_log approx_sigmoid
                         scenario_model Numpy false (fun _ => no_rng)))).
  discriminate.
Defined.


(** C7, witness: a block with padding of its own and [width] 5, in
    train mode with the ratio 0.5. *)
Lemma ConvGLU_output_shape_witness :
  dropout_ok true 0.5 = true /\
  exists y,
    ConvGLU_call approx_sigmoid true (keep_all 0)
      (ConvGLU_init 2 5 0.5 false (fun _ _ _ => one) (fun _ => zero)) demo_state = Ok y /\
    dim3_1 y = 2 /\ dim3_2 y = dim3_2 demo_state.
Proof.
  split; [reflexivity|].
  destruct (proj2 (@ConvGLU_output_shape approx_sigmoid 2 5 0.5%float false
                     (fun _ _ _ => one) (fun _ => zero) true (keep_all 0) demo_state))
    as (y & Hy); [reflexivity | reflexivity | simpl; lia | reflexivity | reflexivity |].
  exists y. split; [exact Hy|].
  destruct (proj1 (@ConvGLU_output_shape approx_sigmoid 2 5 0.5%float false
                     (fun _ _ _ => one) (fun _ => zero) true (keep_all 0) demo_state)
              y Hy) as (_ & _ & H1 & _ & H2).
  split; [exact H1|]. apply H2; reflexivity.
Defined.

Lemma forward_raises_on_invalid_ratio_witness :
  valid_ratio 1 = false /\
  exists e,
    Seq2seq_call approx_exp approx_log approx_sigmoid
      (Seq2seq_init 1 5 7 2 8 1 (const_weights 0.125)) Numpy true keep_all
      scenario_x scenario_y_in scenario_y_out true = Err e.
Proof.
  split; [reflexivity|].
  apply (@forward_raises_on_invalid_ratio approx_exp approx_log approx_sigmoid).
  reflexivity.
Defined.

(** The exception is the [ValueError] of [Dropout.__init__], for the
    ratios 1.0 and 2.0; out of train mode the same calls return. *)
Example invalid_ratio_error :
  Seq2seq_call approx_exp approx_log approx_sigmoid
    (Seq2seq_init 1 5 7 2 8 1 (const_weights 0.125)) Numpy true keep_all
    scenario_x scenario_y_in scenario_y_out true = Err ValueError
  /\
  Seq2seq_call approx_exp approx_log approx_sigmoid
    (Seq2seq_init 0 5 7 2 8 2 (const_weights 0.125)) Numpy true keep_all
    scenario_x scenario_y_in scenario_y_out true = Err ValueError
  /\
  exists p,
    Seq2seq_call approx_exp approx_log approx_sigmoid
      (Seq2seq_init 1 5 7 2 8 1 (const_weights 0.125)) Numpy false keep_all
      scenario_x scenario_y_in scenario_y_out true = Ok (Prediction p).
Proof.
  split; [vm_compute; reflexivity|]. split; [vm_compute; reflexivity|].
  destruct (@prediction_ok approx_exp approx_log approx_sigmoid
              1 5 7 2 8 1%float (const_weights 0.125) Numpy false keep_all
              scenario_x scenario_y_in scenario_y_out) as (logits & p & _ & Hp & _).
  { reflexivity. }
  { exact scenario_well_formed. }
  exists p. exact Hp.
Qed.
